(** * seo_ops_tool: the audit engine, the rule-based enforcement engine,
      the A/B recommendation engine and the export gate.

    A shallow embedding of [app/services/seo_audit.py],
    [app/services/seo_fix.py], [app/services/next_iteration.py] and of
    [api_export] in [app/main.py], followed by the properties the
    specification states about them.

    Conventions of the embedding.
    - A Python [str] is the list of its Unicode code points ([list N]), so
      that [len], slicing and [in] count code points as CPython does.
      Literals are written as in the source and decoded from UTF-8 by [u].
    - A page is a [dict] read only through [page.get(k) or ""]: a field is
      an [option], [None] standing for a missing key or a [None] value.
    - Whitespace ([str.strip], [str.split()], regex [\s]) is CPython's
      [Py_UNICODE_ISSPACE], written out in [isspace].
    - Case mapping ([str.lower], [str.upper]) and the alphanumeric test
      behind the regex [\b] depend on the Unicode character database, which
      is no part of the repository: they are the fields of the class
      [Unicode], and every general theorem holds for all instances.
    - Python floats are used by the source in two places.  The density
      tests compare a quotient of two integers with a constant; they are
      written as the cross-multiplied integer comparison.  The z-test is
      carried out over the real numbers. *)

From Stdlib Require Import List ZArith NArith Bool Arith Lia String Ascii.
From Stdlib Require Import DecimalString Reals Lra.
From stdpp Require Import base gmap.
Import ListNotations.

Set Implicit Arguments.
Local Open Scope N_scope.

(** ** Strings as sequences of code points *)

Abbreviation str := (list N).

Definition bytes_of (s : string) : list N :=
  List.map N_of_ascii (list_ascii_of_string s).

(** UTF-8 decoding of a source literal into its code points. *)
Fixpoint utf8_decode (bs : list N) : str :=
  match bs with
  | [] => []
  | b0 :: r0 =>
      if b0 <? 128 then b0 :: utf8_decode r0
      else if b0 <? 224 then
        match r0 with
        | b1 :: r1 => ((b0 - 192) * 64 + (b1 - 128)) :: utf8_decode r1
        | _ => []
        end
      else if b0 <? 240 then
        match r0 with
        | b1 :: b2 :: r2 =>
            ((b0 - 224) * 4096 + (b1 - 128) * 64 + (b2 - 128)) :: utf8_decode r2
        | _ => []
        end
      else
        match r0 with
        | b1 :: b2 :: b3 :: r3 =>
            ((b0 - 240) * 262144 + (b1 - 128) * 4096 + (b2 - 128) * 64 + (b3 - 128))
              :: utf8_decode r3
        | _ => []
        end
  end.

Definition u (s : string) : str := utf8_decode (bytes_of s).

(** [a == b] *)
Fixpoint str_eqb (a b : str) : bool :=
  match a, b with
  | [], [] => true
  | x :: a', y :: b' => (x =? y) && str_eqb a' b'
  | _, _ => false
  end.

Lemma str_eqb_eq (a b : str) : str_eqb a b = true <-> a = b.
Proof.
  revert b; induction a as [|x a IH]; intros [|y b]; simpl; split;
    try congruence; auto.
  - intros H. apply andb_prop in H as [H1 H2].
    apply N.eqb_eq in H1. apply IH in H2. congruence.
  - intros H. injection H as -> ->. rewrite N.eqb_refl. simpl. now apply IH.
Qed.

Lemma str_eqb_refl (a : str) : str_eqb a a = true.
Proof. now apply str_eqb_eq. Qed.

(** [not s] for a Python string or list. *)
Definition is_empty {A : Type} (s : list A) : bool :=
  match s with [] => true | _ => false end.

(** [s or d] *)
Definition or_str (s d : str) : str := if is_empty s then d else s.

(** [page.get(k) or ""] *)
Definition get_str (o : option str) : str :=
  match o with Some s => s | None => [] end.

(** [str(n)] for a Python [int]. *)
Definition str_of_int (z : Z) : str :=
  bytes_of (NilEmpty.string_of_int (Z.to_int z)).

(** CPython's [Py_UNICODE_ISSPACE]. *)
Definition isspace (c : N) : bool :=
  ((9 <=? c) && (c <=? 13)) || ((28 <=? c) && (c <=? 32))
  || (c =? 133) || (c =? 160) || (c =? 5760)
  || ((8192 <=? c) && (c <=? 8202))
  || (c =? 8232) || (c =? 8233) || (c =? 8239) || (c =? 8287) || (c =? 12288).

Fixpoint drop_while (f : N -> bool) (s : str) : str :=
  match s with
  | [] => []
  | c :: r => if f c then drop_while f r else s
  end.

Definition lstrip_by (f : N -> bool) (s : str) : str := drop_while f s.
Definition rstrip_by (f : N -> bool) (s : str) : str :=
  rev (drop_while f (rev s)).

(** [s.rstrip()], [s.strip()] and [s.rstrip("/")] *)
Definition rstrip (s : str) : str := rstrip_by isspace s.
Definition strip (s : str) : str := rstrip_by isspace (lstrip_by isspace s).
Definition rstrip_slash (s : str) : str := rstrip_by (N.eqb 47) s.

(** [s[:n]] *)
Definition slice_to (n : nat) (s : str) : str := firstn n s.

Fixpoint starts_with (p s : str) : bool :=
  match p, s with
  | [], _ => true
  | _ :: _, [] => false
  | a :: p', b :: s' => (a =? b) && starts_with p' s'
  end.

(** [sub in s] *)
Fixpoint contains (sub s : str) : bool :=
  starts_with sub s ||
  match s with
  | [] => false
  | _ :: r => contains sub r
  end.

(** Scanning with a skip counter: after a match of length [n] at the head,
    the next [n - 1] characters are stepped over, which gives the
    left-to-right non-overlapping matches of [str.count], [str.split] and
    [re.findall]. *)
Fixpoint count_go (sub : str) (skip : nat) (s : str) : nat :=
  match s with
  | [] => 0%nat
  | _ :: r =>
      match skip with
      | S k => count_go sub k r
      | O =>
          if starts_with sub s then S (count_go sub (length sub - 1) r)
          else count_go sub 0 r
      end
  end.

(** [s.count(sub)]; also [len(re.findall(re.escape(sub), s))] for a
    non-empty [sub]. *)
Definition count (sub s : str) : nat :=
  match sub with
  | [] => S (length s)
  | _ => count_go sub 0 s
  end.

Fixpoint split_go (sep : str) (skip : nat) (cur : str) (s : str) : list str :=
  match s with
  | [] => [rev cur]
  | c :: r =>
      match skip with
      | S k => split_go sep k cur r
      | O =>
          if starts_with sep s then rev cur :: split_go sep (length sep - 1) [] r
          else split_go sep 0 (c :: cur) r
      end
  end.

(** [s.split(sep)] for a non-empty separator (the source never passes an
    empty one: CPython raises [ValueError] there). *)
Definition split (sep s : str) : list str := split_go sep 0 [] s.

(** [sep.join(parts)] *)
Fixpoint join (sep : str) (parts : list str) : str :=
  match parts with
  | [] => []
  | [p] => p
  | p :: ps => p ++ sep ++ join sep ps
  end.

Fixpoint words_go (cur : str) (s : str) : list str :=
  match s with
  | [] => match cur with [] => [] | _ => [rev cur] end
  | c :: r =>
      if isspace c then
        match cur with
        | [] => words_go [] r
        | _ => rev cur :: words_go [] r
        end
      else words_go (c :: cur) r
  end.

(** [s.split()], and [re.findall(r"\S+", s)]: the maximal runs of
    non-whitespace characters. *)
Definition split_ws (s : str) : list str := words_go [] s.

Definition SP : N := 32.
Definition NL : N := 10.

(** [re.sub(r"\s+", " ", s)]: every maximal run of whitespace becomes one
    space; [in_run] tells that the previous character was whitespace. *)
Fixpoint sub_ws_go (in_run : bool) (s : str) : str :=
  match s with
  | [] => []
  | c :: r =>
      if isspace c then
        if in_run then sub_ws_go true r else SP :: sub_ws_go true r
      else c :: sub_ws_go false r
  end.

Definition sub_ws (s : str) : str := sub_ws_go false s.

(** ** The Unicode character database *)

Definition is_ascii (c : N) : bool := c <? 128.

Definition ascii_upper (c : N) : N :=
  if (97 <=? c) && (c <=? 122) then c - 32 else c.

Definition ascii_lower (c : N) : N :=
  if (65 <=? c) && (c <=? 90) then c + 32 else c.

(** [lower] is [str.lower], [upper] is [str.upper], [isalnum] is
    [str.isalnum] on one character.  The two laws say that on ASCII text
    they are the ASCII case mappings, as in CPython. *)
Class Unicode := {
  lower : str -> str;
  upper : str -> str;
  isalnum : N -> bool;
  lower_ascii : forall s, forallb is_ascii s = true -> lower s = List.map ascii_lower s;
  upper_ascii : forall s, forallb is_ascii s = true -> upper s = List.map ascii_upper s
}.

(** The tables restricted to ASCII letters and digits and the Hangul
    syllables (which are alphanumeric and have no case): they agree with
    CPython on every string made of ASCII characters, Hangul syllables and
    the punctuation of the source's literals. *)
Definition basic_isalnum (c : N) : bool :=
  ((48 <=? c) && (c <=? 57)) || ((65 <=? c) && (c <=? 90))
  || ((97 <=? c) && (c <=? 122)) || ((44032 <=? c) && (c <=? 55203)).

#[export] Program Instance basic_unicode : Unicode := {|
  lower := List.map ascii_lower;
  upper := List.map ascii_upper;
  isalnum := basic_isalnum
|}.
Next Obligation. reflexivity. Qed.
Next Obligation. reflexivity. Qed.

(** ** Regular expressions of the two services *)

Section Regex.
Context `{Unicode}.

(** [\w] *)
Definition isword (c : N) : bool := isalnum c || (c =? 95).

(** [\b] right after a word character: the next character, if any, is not
    a word character. *)
Definition boundary (r : str) : bool :=
  match r with
  | [] => true
  | c :: _ => negb (isword c)
  end.

(** [h] under [re.IGNORECASE] *)
Definition ci_h (c : N) : bool := (c =? 104) || (c =? 72).

(** Length of the match of [[^>]*>] at the head of [s]. *)
Fixpoint tag_rest_len (s : str) : option nat :=
  match s with
  | [] => None
  | c :: r => if c =? 62 then Some 1%nat else option_map S (tag_rest_len r)
  end.

(** Length of the match of [[^>]+>] at the head of [s]. *)
Definition tag_body_len (s : str) : option nat :=
  match s with
  | [] => None
  | c :: r => if c =? 62 then None else option_map S (tag_rest_len r)
  end.

(** [re.compile(r"<[^>]+>").sub(" ", s)] *)
Fixpoint sub_tags_go (skip : nat) (s : str) : str :=
  match s with
  | [] => []
  | c :: r =>
      match skip with
      | S k => sub_tags_go k r
      | O =>
          if c =? 60 then
            match tag_body_len r with
            | Some n => SP :: sub_tags_go n r
            | None => c :: sub_tags_go 0 r
            end
          else c :: sub_tags_go 0 r
      end
  end.

Definition sub_tags (s : str) : str := sub_tags_go 0 s.

(** [<h{d}\b] under [re.IGNORECASE] at the head of [s]. *)
Definition heading_open_at (d : N) (s : str) : bool :=
  match s with
  | lt :: h :: d' :: r => (lt =? 60) && ci_h h && (d' =? d) && boundary r
  | _ => false
  end.

(** [len(re.compile(r"<h2\b", re.IGNORECASE).findall(s))]: a match is three
    characters long and starts with [<], so two matches never overlap. *)
Fixpoint count_open (d : N) (s : str) : nat :=
  match s with
  | [] => 0%nat
  | _ :: r => ((if heading_open_at d s then 1 else 0) + count_open d r)%nat
  end.

(** [</h{d}>] under [re.IGNORECASE] at the head of [s]. *)
Definition heading_close_at (d : N) (s : str) : bool :=
  match s with
  | lt :: sl :: h :: d' :: gt :: _ =>
      (lt =? 60) && (sl =? 47) && ci_h h && (d' =? d) && (gt =? 62)
  | _ => false
  end.

Fixpoint find_close (d : N) (s : str) : option nat :=
  match s with
  | [] => None
  | _ :: r => if heading_close_at d s then Some 0%nat else option_map S (find_close d r)
  end.

(** Length of the match of [<h{d}\b[^>]*>(.*?)</h{d}>] (IGNORECASE, DOTALL)
    at the head of [s]: the opening tag runs to the first [>], and the lazy
    group to the first closing tag after it. *)
Definition heading_len (d : N) (s : str) : option nat :=
  match s with
  | _ :: _ :: _ :: r =>
      if heading_open_at d s then
        match tag_rest_len r with
        | Some j =>
            match find_close d (skipn j r) with
            | Some k => Some (3 + j + k + 5)%nat
            | None => None
            end
        | None => None
        end
      else None
  | _ => None
  end.

(** [len(RE.findall(s))] for the two heading expressions of the audit. *)
Fixpoint count_headings_go (d : N) (skip : nat) (s : str) : nat :=
  match s with
  | [] => 0%nat
  | _ :: r =>
      match skip with
      | S k => count_headings_go d k r
      | O =>
          match heading_len d s with
          | Some n => S (count_headings_go d (n - 1) r)
          | None => count_headings_go d 0 r
          end
      end
  end.

Definition count_headings (d : N) (s : str) : nat := count_headings_go d 0 s.

End Regex.

Local Close Scope N_scope.
Local Open Scope nat_scope.

(** ** Page snapshots and targeting metadata *)

(** One FAQ entry, the dict with the keys [q] and [a]. *)
Record FaqItem := { faq_q : str; faq_a : str }.

Record Page := {
  meta_title : option str;
  meta_description : option str;
  canonical_url : option str;
  og_title : option str;
  og_description : option str;
  h1 : option str;
  body_html : option str;
  cta : option str;
  faq : option (list FaqItem);
  has_faq_jsonld : option bool
}.

(** [page.get("faq") or []] and [bool(page.get("has_faq_jsonld"))] *)
Definition get_faq (o : option (list FaqItem)) : list FaqItem :=
  match o with Some l => l | None => [] end.
Definition get_bool (o : option bool) : bool :=
  match o with Some b => b | None => false end.

Definition set_body_html (v : str) (p : Page) : Page :=
  {| meta_title := meta_title p; meta_description := meta_description p;
     canonical_url := canonical_url p; og_title := og_title p;
     og_description := og_description p; h1 := h1 p; body_html := Some v;
     cta := cta p; faq := faq p; has_faq_jsonld := has_faq_jsonld p |}.

Definition set_meta_title (v : str) (p : Page) : Page :=
  {| meta_title := Some v; meta_description := meta_description p;
     canonical_url := canonical_url p; og_title := og_title p;
     og_description := og_description p; h1 := h1 p; body_html := body_html p;
     cta := cta p; faq := faq p; has_faq_jsonld := has_faq_jsonld p |}.

Definition set_meta_description (v : str) (p : Page) : Page :=
  {| meta_title := meta_title p; meta_description := Some v;
     canonical_url := canonical_url p; og_title := og_title p;
     og_description := og_description p; h1 := h1 p; body_html := body_html p;
     cta := cta p; faq := faq p; has_faq_jsonld := has_faq_jsonld p |}.

Definition set_canonical_url (v : str) (p : Page) : Page :=
  {| meta_title := meta_title p; meta_description := meta_description p;
     canonical_url := Some v; og_title := og_title p;
     og_description := og_description p; h1 := h1 p; body_html := body_html p;
     cta := cta p; faq := faq p; has_faq_jsonld := has_faq_jsonld p |}.

Definition set_og (t d : str) (p : Page) : Page :=
  {| meta_title := meta_title p; meta_description := meta_description p;
     canonical_url := canonical_url p; og_title := Some t;
     og_description := Some d; h1 := h1 p; body_html := body_html p;
     cta := cta p; faq := faq p; has_faq_jsonld := has_faq_jsonld p |}.

Definition set_h1 (v : str) (p : Page) : Page :=
  {| meta_title := meta_title p; meta_description := meta_description p;
     canonical_url := canonical_url p; og_title := og_title p;
     og_description := og_description p; h1 := Some v; body_html := body_html p;
     cta := cta p; faq := faq p; has_faq_jsonld := has_faq_jsonld p |}.

Definition set_cta (v : str) (p : Page) : Page :=
  {| meta_title := meta_title p; meta_description := meta_description p;
     canonical_url := canonical_url p; og_title := og_title p;
     og_description := og_description p; h1 := h1 p; body_html := body_html p;
     cta := Some v; faq := faq p; has_faq_jsonld := has_faq_jsonld p |}.

Definition set_faq (v : list FaqItem) (j : bool) (p : Page) : Page :=
  {| meta_title := meta_title p; meta_description := meta_description p;
     canonical_url := canonical_url p; og_title := og_title p;
     og_description := og_description p; h1 := h1 p; body_html := body_html p;
     cta := cta p; faq := Some v; has_faq_jsonld := Some j |}.

(** ** services/seo_fix.py: the rule-based enforcement engine *)

Section SeoFix.
Context `{Unicode}.

Definition strip_tags (html : str) : str := strip (sub_ws (sub_tags html)).

Definition word_count (text : str) : nat := length (split_ws text).

Definition count_h2 (body_html : str) : nat := count_open 50%N body_html.

Definition ensure_nonempty (s fallback : str) : str :=
  let s := strip s in
  if is_empty s then fallback else s.

Definition clamp_text_len (s : str) (lo hi : nat) (pad : str) : str :=
  let s := strip s in
  let s := if is_empty s then pad else s in
  let s :=
    if length s <? lo then
      let need := lo - length s in
      slice_to (lo + Nat.max 0 need) (s ++ [SP] ++ pad)
    else s in
  if hi <? length s then rstrip (slice_to hi s) else s.

Definition PURCHASE : str := u "구매형".

Definition is_purchase (intent : str) : bool := str_eqb (strip intent) PURCHASE.

Definition ensure_primary_in_intro (body_html primary_kw : str) : str :=
  let plain := strip_tags body_html in
  let first_120 := join [SP] (firstn 120 (split_ws plain)) in
  if negb (is_empty primary_kw) && negb (contains primary_kw first_120) then
    let intro :=
      u "<p><b>" ++ primary_kw
        ++ u "</b>를 찾는 분들을 위해, 이 페이지는 선택 기준/사용 루틴/FAQ를 "
        ++ u "사실 기반으로 정리했습니다.</p>" in
    intro ++ [NL] ++ body_html
  else body_html.

Definition ensure_disclaimer (body_html : str) : str :=
  let plain := strip_tags body_html in
  if contains (u "개인차") plain || contains (u "전문가") plain
     || contains (u "이상 반응") plain
  then body_html
  else
    let block :=
      u "<p><i>※ 안내: 본 내용은 일반 정보이며 개인 피부 상태에 따라 반응이 다를 수 있습니다. "
        ++ u "사용 중 이상 반응이 있으면 사용을 중단하고 전문가와 상담하세요.</i></p>" in
    body_html ++ [NL] ++ block.

Definition ensure_supporting_hits (body_html : str) (supporting : list str)
    (min_hits : nat) : str :=
  let supporting := List.filter (fun s => negb (is_empty s)) supporting in
  if is_empty supporting then body_html
  else
    let plain := lower (strip_tags body_html) in
    let hits := length (List.filter (fun s => contains (lower s) plain) supporting) in
    if min_hits <=? hits then body_html
    else
      let need := min_hits - hits in
      let insert := firstn (Nat.max 2 (need + 1)) supporting in
      let line :=
        u "<p>관련 키워드 기준으로는 "
          ++ join (u ", ") (List.map (fun x => u "<b>" ++ x ++ u "</b>") insert)
          ++ u " 관점에서 함께 살펴보는 것이 도움이 됩니다.</p>" in
      body_html ++ [NL] ++ line.

Definition NEUTRAL : str := u "해당 제품".

(** The [for i in range(1, len(parts))] loop of [reduce_keyword_density]:
    [idx] counts the occurrences seen so far, [out] is the text built. *)
Fixpoint density_loop (primary_kw : str) (idx : nat) (parts : list str)
    (out : str) : str :=
  match parts with
  | [] => out
  | p :: ps =>
      let idx := idx + 1 in
      let token := if (4 <=? idx) && Nat.even idx then NEUTRAL else primary_kw in
      density_loop primary_kw idx ps (out ++ token ++ p)
  end.

(** [max_density] is always 0.03 in the source; [density <= max_density]
    is [occ / wc <= 3 / 100], that is [100 * occ <= 3 * wc]. *)
Definition reduce_keyword_density (body_html primary_kw : str) : str :=
  if is_empty primary_kw then body_html
  else
    let plain := strip_tags body_html in
    let wc := word_count plain in
    if wc <=? 0 then body_html
    else
      let occ := count primary_kw plain in
      if 100 * occ <=? 3 * Nat.max wc 1 then body_html
      else
        let parts := split primary_kw body_html in
        match parts with
        | [] | [_] => body_html
        | p0 :: ps => density_loop primary_kw 0 ps p0
        end.

Definition ensure_h1 (fixed : Page) (primary_kw : str) : Page :=
  set_h1 (ensure_nonempty (get_str (h1 fixed)) primary_kw) fixed.

Definition ensure_h2_sections (fixed : Page) (primary_kw intent : str) : Page :=
  let body := get_str (body_html fixed) in
  let current := count_h2 body in
  let min_h2 := if is_purchase intent then 3 else 2 in
  if min_h2 <=? current then fixed
  else
    let sections :=
      [ u "<h2>" ++ primary_kw ++ u " 핵심 포인트</h2>"
          ++ u "<p>" ++ primary_kw
          ++ u "를 고를 때는 보습 지속감, 사용감, 성분 구성, 개인 피부 컨디션을 함께 고려하는 것이 좋습니다.</p>";
        u "<h2>성분/구성 체크</h2>"
          ++ u "<p>세라마이드, 판테놀 등은 보습/진정 루틴에서 자주 언급됩니다. 다만 개인차가 있으니 패치 테스트를 권장합니다.</p>";
        u "<h2>사용 루틴</h2>"
          ++ u "<p>세안 후 토너 다음 단계에서 적당량을 얇게 펴 바르고, 건조한 부위는 소량을 레이어링하세요. 낮에는 자외선 차단제로 마무리하세요.</p>" ]
      ++ (if is_purchase intent then
            [ u "<h2>구매 전 확인</h2>"
                ++ u "<ul>"
                ++ u "<li>피부 타입/민감도와의 적합성(패치 테스트 권장)</li>"
                ++ u "<li>제형/사용감(계절/습도에 따라 체감 차이)</li>"
                ++ u "<li>전성분 및 알레르기 유발 가능 성분 확인</li>"
                ++ u "</ul>" ]
          else []) in
    let needed := Nat.max 0 (min_h2 - current) in
    if 0 <? needed then
      set_body_html (body ++ [NL] ++ join [NL] (firstn needed sections)) fixed
    else fixed.

Definition faq_candidates (primary_kw : str) : list (str * str) :=
  [ (primary_kw ++ u "는 민감 피부도 사용 가능한가요?",
     u "개인차가 있으므로 사용 전 패치 테스트를 권장합니다.");
    (u "아침/저녁 모두 사용해도 되나요?",
     u "일반적인 보습 루틴에서 아침/저녁 사용이 가능하며 피부 상태에 따라 사용량을 조절하세요.");
    (u "어떤 순서로 바르면 좋나요?",
     u "세안→토너→(에센스/세럼)→크림 순으로 마무리하는 방식이 일반적입니다.");
    (u "향이나 제형이 궁금해요.",
     u "제품별로 상이하므로 상세 페이지의 표기 정보를 확인하는 것을 권장합니다.") ].

(** [q in existing_q] for the set of question texts. *)
Definition mem_str (x : str) (l : list str) : bool := existsb (str_eqb x) l.

(** The [for q, a in candidates] loop of [ensure_faq], with its [break]
    and [continue]. *)
Fixpoint faq_loop (min_faq : nat) (candidates : list (str * str))
    (faq : list FaqItem) (existing_q : list str) : list FaqItem :=
  match candidates with
  | [] => faq
  | (q, a) :: rest =>
      if min_faq <=? length faq then faq
      else if mem_str q existing_q then faq_loop min_faq rest faq existing_q
      else faq_loop min_faq rest (faq ++ [{| faq_q := q; faq_a := a |}])
             (q :: existing_q)
  end.

Definition ensure_faq (fixed : Page) (primary_kw : str) (min_faq : nat) : Page :=
  let faq0 := get_faq (faq fixed) in
  let existing_q := List.map (fun item => strip (faq_q item)) faq0 in
  let faq1 := faq_loop min_faq (faq_candidates primary_kw) faq0 existing_q in
  set_faq faq1 true fixed.

Definition ensure_cta (fixed : Page) (intent : str) : Page :=
  if negb (is_empty (strip (get_str (cta fixed)))) then fixed
  else set_cta (if is_purchase intent then u "지금 구매하기" else u "자세히 보기") fixed.

Definition body_pad (primary_kw : str) : str :=
  u "<h2>" ++ primary_kw ++ u " 선택 기준</h2>"
    ++ u "<p>" ++ primary_kw
    ++ u "를 선택할 때는 보습 지속감, 자극 가능성(개인차), 사용감(흡수/잔여감), 계절/습도 환경을 함께 고려하는 것이 좋습니다.</p>"
    ++ u "<h2>사용 팁</h2>"
    ++ u "<p>크림은 적당량을 여러 번 레이어링하는 방식이 더 편안할 수 있습니다. 건조한 부위는 소량을 한 번 더 덧바르세요.</p>"
    ++ u "<h2>주의 사항</h2>"
    ++ u "<p>사용 중 붉어짐/가려움/따가움 등 이상 반응이 있으면 사용을 중단하고 전문가와 상담하세요.</p>".

(** The [while wc < min_words and loops < 3] loop of [ensure_body_length].
    [fuel] bounds the number of iterations the model may run; [None] means
    the fuel ran out before the loop condition became false. *)
Fixpoint body_length_loop (fuel : nat) (min_words : nat) (pad body : str)
    (wc loops : nat) : option (str * nat) :=
  if (wc <? min_words) && (loops <? 3) then
    match fuel with
    | O => None
    | S fuel' =>
        let body := body ++ [NL] ++ pad in
        let plain := strip_tags body in
        let wc := word_count plain in
        body_length_loop fuel' min_words pad body wc (loops + 1)
    end
  else Some (body, loops).

Definition ensure_body_length (fixed : Page) (primary_kw : str)
    (min_words : nat) : Page :=
  let body := get_str (body_html fixed) in
  let plain := strip_tags body in
  let wc := word_count plain in
  if min_words <=? wc then fixed
  else
    let pad := body_pad primary_kw in
    match body_length_loop 3 min_words pad body wc 0 with
    | Some (body', _) => set_body_html body' fixed
    | None => fixed
    end.

Definition ensure_canonical (fixed : Page) (run_id : Z) (base_url : str) : Page :=
  let canonical := strip (get_str (canonical_url fixed)) in
  if negb (is_empty canonical) then fixed
  else
    let base := rstrip_slash (or_str base_url (u "https://example.com")) in
    set_canonical_url (base ++ u "/r/" ++ str_of_int run_id) fixed.

Definition ensure_og (fixed : Page) : Page :=
  set_og (ensure_nonempty (get_str (og_title fixed)) (get_str (meta_title fixed)))
         (ensure_nonempty (get_str (og_description fixed))
            (get_str (meta_description fixed)))
         fixed.

(** [fixed[k] = g(fixed.get(k) or "")] for the three keys that [_rule_fix]
    rewrites in place. *)
Definition update_meta_title (g : str -> str) (fixed : Page) : Page :=
  set_meta_title (g (get_str (meta_title fixed))) fixed.
Definition update_meta_description (g : str -> str) (fixed : Page) : Page :=
  set_meta_description (g (get_str (meta_description fixed))) fixed.
Definition update_body (g : str -> str) (fixed : Page) : Page :=
  set_body_html (g (get_str (body_html fixed))) fixed.

Definition _rule_fix (page : Page) (primary_kw : str) (supporting : list str)
    (intent : str) (run_id : option Z) (base_url : option str) : Page :=
  let fixed :=
    {| meta_title := Some (strip (get_str (meta_title page)));
       meta_description := Some (strip (get_str (meta_description page)));
       canonical_url := Some (strip (get_str (canonical_url page)));
       og_title := Some (strip (get_str (og_title page)));
       og_description := Some (strip (get_str (og_description page)));
       h1 := Some (strip (get_str (h1 page)));
       body_html := Some (strip (get_str (body_html page)));
       cta := Some (strip (get_str (cta page)));
       faq := Some (get_faq (faq page));
       has_faq_jsonld := Some (get_bool (has_faq_jsonld page)) |} in
  let fixed :=
    update_meta_title
      (fun s => clamp_text_len s 20 60 (primary_kw ++ u " 가이드 | 선택 기준")) fixed in
  let fixed :=
    update_meta_description
      (fun s =>
         clamp_text_len s 60 170
           (primary_kw
              ++ u " 선택 기준, 사용 루틴, FAQ를 정리했습니다. 개인차가 있어 패치 테스트를 권장합니다."))
      fixed in
  let fixed := ensure_h1 fixed primary_kw in
  let fixed := ensure_cta fixed intent in
  let fixed := ensure_h2_sections fixed primary_kw intent in
  let fixed := ensure_faq fixed primary_kw 3 in
  let fixed := ensure_body_length fixed primary_kw 360 in
  let fixed := update_body (fun b => ensure_primary_in_intro b primary_kw) fixed in
  let fixed := update_body (fun b => ensure_supporting_hits b supporting 2) fixed in
  let fixed := update_body ensure_disclaimer fixed in
  let fixed := update_body (fun b => reduce_keyword_density b primary_kw) fixed in
  let fixed :=
    match run_id, base_url with
    | Some rid, Some base => ensure_canonical fixed rid base
    | _, _ => fixed
    end in
  ensure_og fixed.

End SeoFix.

(** ** services/seo_audit.py: the audit engine *)

Inductive severity := FAIL | WARN | INFO.
Inductive verdict := PASS | OVERALL_WARN | OVERALL_FAIL.
Inductive rule :=
  | T001 | T002 | T003 | T004 | T005 | T006 | T007
  | C001 | C002 | C003 | C004 | C005 | C007
  | E001 | E002 | S001 | S002.

Definition severity_eqb (x y : severity) : bool :=
  match x, y with
  | FAIL, FAIL | WARN, WARN | INFO, INFO => true
  | _, _ => false
  end.



(** The literal the source stores under ["overall"]. *)
Definition verdict_text (v : verdict) : str :=
  match v with
  | PASS => u "PASS"
  | OVERALL_WARN => u "WARN"
  | OVERALL_FAIL => u "FAIL"
  end.

(** An issue: the keys [rule_id] and [severity] of the source's dict.  Its
    [message] and [fix_hint] are display texts (one of them formats a
    float) and are not carried. *)
Record Issue := { rule_id : rule; issue_severity : severity }.

(** The [signals] of the result, but for [primary_kw_density_pct], a
    rounded float that is only displayed. *)
Record Signals := {
  title_len : nat;
  desc_len : nat;
  sig_h1_count : nat;
  sig_h2_count : nat;
  sig_word_count : nat;
  primary_kw_in_h1 : bool;
  primary_kw_in_first120 : bool;
  supporting_kw_hits : nat;
  sig_faq_count : nat;
  sig_has_faq_jsonld : bool
}.

Record AuditResult := {
  overall : verdict;
  score : Z;
  issues : list Issue;
  signals : Signals
}.

(** The issue list and the running [penalty] that the closure [add]
    updates. *)
Definition audit_state : Type := list Issue * Z.

Definition add (r : rule) (s : severity) (p : Z) (st : audit_state) : audit_state :=
  (fst st ++ [{| rule_id := r; issue_severity := s |}], (snd st + p)%Z).

(** [if c: add(...)] *)
Definition when (c : bool) (f : audit_state -> audit_state) (st : audit_state)
    : audit_state :=
  if c then f st else st.

Definition banned : list str :=
  [ u "완치"; u "치료"; u "즉시"; u "무조건"; u "100%"; u "부작용 없음";
    u "의사 추천"; u "염증 치료"; u "아토피 치료"; u "피부병 치료" ].

Definition disclaimer_candidates : list str :=
  [ u "개인차"; u "피부 상태"; u "패치 테스트"; u "민감한 경우" ].

(** The last block of [seo_audit_page]: the verdict from the issue list. *)
Definition overall_of (issues : list Issue) : verdict :=
  if existsb (fun i => severity_eqb (issue_severity i) FAIL) issues then OVERALL_FAIL
  else
    let warn_cnt :=
      length (List.filter (fun i => severity_eqb (issue_severity i) WARN) issues) in
    if 2 <=? warn_cnt then OVERALL_WARN else PASS.

Section SeoAudit.
Context `{Unicode}.

Definition _strip_tags (html : str) : str := sub_tags html.

Definition _norm (s : str) : str := lower (strip (sub_ws s)).

Definition _word_count (text : str) : nat :=
  let t := sub_ws (strip text) in
  if is_empty t then 0 else length (split [SP] t).

(** [(x.get("q") or "").strip() and (x.get("a") or "").strip()] *)
Definition faq_complete (x : FaqItem) : bool :=
  negb (is_empty (strip (faq_q x))) && negb (is_empty (strip (faq_a x))).

Definition seo_audit_page (page : Page) (primary_keyword : str)
    (supporting_keywords : list str) (intent : str) : AuditResult :=
  let meta_title := strip (get_str (meta_title page)) in
  let meta_desc := strip (get_str (meta_description page)) in
  let canonical := strip (get_str (canonical_url page)) in
  let og_title := strip (get_str (og_title page)) in
  let og_desc := strip (get_str (og_description page)) in
  let h1 := strip (get_str (h1 page)) in
  let body_html := get_str (body_html page) in
  let body_text := _strip_tags body_html in
  let faq := get_faq (faq page) in
  let has_faq_jsonld := get_bool (has_faq_jsonld page) || (3 <=? length faq) in
  let primary := strip primary_keyword in
  let supporting :=
    List.map strip
      (List.filter (fun s => negb (is_empty (strip s))) supporting_keywords) in
  let h1_count := if is_empty body_html then 0 else count_headings 49%N body_html in
  let h2_count := if is_empty body_html then 0 else count_headings 50%N body_html in
  let h1_count := if negb (is_empty h1) && (h1_count =? 0) then 1 else h1_count in
  let title_len := length meta_title in
  let desc_len := length meta_desc in
  let words := _word_count body_text in
  let faq_count := length (List.filter faq_complete faq) in
  let norm_primary := _norm primary in
  let norm_h1 := _norm h1 in
  let norm_body := _norm body_text in
  let primary_kw_in_h1 := negb (is_empty norm_primary) && contains norm_primary norm_h1 in
  let first120 := join [SP] (firstn 120 (split [SP] body_text)) in
  let primary_kw_in_first120 :=
    negb (is_empty norm_primary) && contains norm_primary (_norm first120) in
  let supporting_hits :=
    length
      (List.filter
         (fun sk => negb (is_empty (_norm sk)) && contains (_norm sk) norm_body)
         supporting) in
  let primary_count := if is_empty norm_primary then 0 else count norm_primary norm_body in
  (* density = (primary_count / max(words, 1)) * 100.0 if words > 0 else 0.0 *)
  let density_gt_3 := (0 <? words) && (3 * Nat.max words 1 <? 100 * primary_count) in
  let st : audit_state := ([], 0%Z) in
  (* ---- T rules ---- *)
  let st :=
    if is_empty meta_title then add T001 FAIL 25 st
    else when (negb ((30 <=? title_len) && (title_len <=? 60))) (add T002 WARN 10) st in
  let st :=
    if is_empty meta_desc then add T003 FAIL 25 st
    else when (negb ((70 <=? desc_len) && (desc_len <=? 160))) (add T004 WARN 10) st in
  let st := when (is_empty canonical) (add T005 WARN 10) st in
  let st := when (negb (h1_count =? 1)) (add T006 FAIL 25) st in
  let st := when (is_empty og_title || is_empty og_desc) (add T007 INFO 2) st in
  (* ---- C rules ---- *)
  let st := when (negb (is_empty primary) && negb primary_kw_in_h1) (add C001 FAIL 25) st in
  let st :=
    when (negb (is_empty primary) && negb primary_kw_in_first120) (add C002 WARN 10) st in
  let st :=
    when (negb (is_empty supporting) && (supporting_hits <? 2)) (add C003 WARN 10) st in
  let st := when (h2_count <? 3) (add C004 FAIL 25) st in
  let st := when (words <? 350) (add C005 WARN 10) st in
  let st := when (negb (is_empty primary) && density_gt_3) (add C007 FAIL 25) st in
  (* ---- E rules ---- *)
  let st :=
    when
      (existsb
         (fun w =>
            negb (is_empty w)
            && (contains w body_text || contains w meta_title || contains w meta_desc))
         banned)
      (add E002 FAIL 25) st in
  let has_disclaimer := existsb (fun x => contains x body_text) disclaimer_candidates in
  let st := when (negb has_disclaimer) (add E001 WARN 10) st in
  (* ---- S rules ---- *)
  let st := when (faq_count <? 3) (add S001 WARN 10) st in
  let st := when ((3 <=? faq_count) && negb has_faq_jsonld) (add S002 WARN 10) st in
  let issues := fst st in
  let penalty := snd st in
  {| overall := overall_of issues;
     score := Z.max 0 (100 - penalty);
     issues := issues;
     signals :=
       {| title_len := title_len; desc_len := desc_len;
          sig_h1_count := h1_count; sig_h2_count := h2_count;
          sig_word_count := words;
          primary_kw_in_h1 := primary_kw_in_h1;
          primary_kw_in_first120 := primary_kw_in_first120;
          supporting_kw_hits := supporting_hits;
          sig_faq_count := faq_count;
          sig_has_faq_jsonld := has_faq_jsonld |} |}.

(** The rule ids of the issues an audit emits. *)
Definition audit_rules (page : Page) (primary_keyword : str)
    (supporting_keywords : list str) (intent : str) : list rule :=
  List.map rule_id (issues (seo_audit_page page primary_keyword supporting_keywords intent)).

End SeoAudit.

(** The penalty with which the source adds each rule. *)
Definition penalty_of (r : rule) : Z :=
  match r with
  | T001 | T003 | T006 | C001 | C004 | C007 | E002 => 25
  | T007 => 2
  | _ => 10
  end.

(** [build_faq_jsonld]: the FAQ structured data. *)

(** One [Question] of the JSON-LD object: its [name] and the [text] of its
    [acceptedAnswer]. *)
Record Question := { question_name : str; answer_text : str }.

(** The [FAQPage] object. *)
Record FaqPage := { ld_context : str; ld_type : str; mainEntity : list Question }.

Fixpoint faq_main (faq : list FaqItem) : list Question :=
  match faq with
  | [] => []
  | item :: rest =>
      let q := strip (faq_q item) in
      let a := strip (faq_a item) in
      if is_empty q || is_empty a then faq_main rest
      else {| question_name := q; answer_text := a |} :: faq_main rest
  end.

Definition build_faq_jsonld (faq : list FaqItem) : FaqPage :=
  {| ld_context := u "https://schema.org"; ld_type := u "FAQPage";
     mainEntity := faq_main faq |}.

(** ** services/next_iteration.py: the A/B recommendation engine *)

Module AB.
Local Open Scope R_scope.

(** [math.erf] as its power series
    [erf x = 2/sqrt(pi) * sum_n (-1)^n x^(2n+1) / (n! (2n+1))]; the series
    converges for every [x] by d'Alembert's criterion. *)
Definition erf_coef (n : nat) : R := (-1) ^ n / (INR (fact n) * INR (2 * n + 1)).

Lemma erf_coef_neq0 (n : nat) : erf_coef n <> 0.
Proof.
  unfold erf_coef. apply Rmult_integral_contrapositive_currified.
  - apply pow_nonzero. lra.
  - apply Rinv_neq_0_compat. apply Rmult_integral_contrapositive_currified.
    + apply INR_fact_neq_0.
    + apply not_0_INR. lia.
Qed.

Lemma erf_coef_ratio (n : nat) :
  erf_coef (S n) / erf_coef n = - (INR (2 * n + 1) / (INR (S n) * INR (2 * S n + 1))).
Proof.
  unfold erf_coef. rewrite fact_simpl, mult_INR.
  replace ((-1) ^ S n) with (-1 * (-1) ^ n) by (simpl; ring).
  assert (H1 : (-1) ^ n <> 0) by (apply pow_nonzero; lra).
  assert (H2 : INR (fact n) <> 0) by apply INR_fact_neq_0.
  assert (H3 : INR (2 * n + 1) <> 0) by (apply not_0_INR; lia).
  assert (H4 : INR (S n) <> 0) by (apply not_0_INR; lia).
  assert (H5 : INR (2 * S n + 1) <> 0) by (apply not_0_INR; lia).
  field. repeat split; assumption.
Qed.

Lemma erf_coef_cv : Un_cv (fun n : nat => Rabs (erf_coef (S n) / erf_coef n)) 0.
Proof.
  intros eps Heps.
  destruct (archimed_cor1 eps Heps) as [N [HN HN0]].
  exists N. intros n Hn. unfold Rdist. rewrite Rminus_0_r, Rabs_Rabsolu.
  rewrite erf_coef_ratio, Rabs_Ropp.
  assert (Hn1 : 0 < INR (S n)) by (apply lt_0_INR; lia).
  assert (Ha : 0 < INR (2 * n + 1)) by (apply lt_0_INR; lia).
  assert (Hb : 0 < INR (2 * S n + 1)) by (apply lt_0_INR; lia).
  assert (Hab : INR (2 * n + 1) < INR (2 * S n + 1)) by (apply lt_INR; lia).
  rewrite Rabs_pos_eq.
  2:{ apply Rlt_le, Rdiv_lt_0_compat; [assumption | now apply Rmult_lt_0_compat]. }
  apply Rle_lt_trans with (/ INR N); [|assumption].
  assert (HN1 : 0 < INR N) by (apply lt_0_INR; lia).
  assert (HNn : INR N <= INR (S n)) by (apply le_INR; lia).
  apply Rle_trans with (/ INR (S n)).
  - unfold Rdiv. rewrite Rinv_mult.
    rewrite <- (Rmult_1_r (/ INR (S n))) at 2.
    replace (INR (2 * n + 1) * (/ INR (S n) * / INR (2 * S n + 1)))
      with (/ INR (S n) * (INR (2 * n + 1) * / INR (2 * S n + 1))) by ring.
    apply Rmult_le_compat_l.
    + apply Rlt_le, Rinv_0_lt_compat; assumption.
    + apply Rlt_le. apply Rmult_lt_reg_r with (INR (2 * S n + 1)); [assumption|].
      rewrite Rmult_assoc, Rinv_l by lra. lra.
  - apply Rinv_le_contravar; assumption.
Qed.

Definition erf_series (y : R) : R :=
  proj1_sig (Alembert_C3 erf_coef y erf_coef_neq0 erf_coef_cv).


(** [math.erf] *)
Definition erf (x : R) : R := 2 / sqrt PI * (x * erf_series (x * x)).



(** One recorded event, the dict with the keys [variant] and
    [event_name]. *)
Record Event := { variant : str; event_name : str }.

Record VariantStats := { view : nat; click : nat; ctr : R }.

Record ABSummary := {
  stats_A : VariantStats;
  stats_B : VariantStats;
  uplift : R;
  z : R;
  p_value : R;
  min_views_required : Z;
  recommend_variant : option str
}.

Definition _phi_cdf (x : R) : R := 0.5 * (1 + erf (x / sqrt 2)).

Definition _p_value_two_sided (z : R) : R := 2 * (1 - _phi_cdf (Rabs z)).

(** [sum(1 for e in events if e.get("variant") == v and e.get("event_name") == n)] *)
Definition count_events (v n : str) (events : list Event) : nat :=
  length (List.filter (fun e => str_eqb (variant e) v && str_eqb (event_name e) n) events).

Definition ab_ctr_summary (events : list Event) (min_views_required : Z) : ABSummary :=
  let A_view := count_events (u "A") (u "view") events in
  let A_click := count_events (u "A") (u "cta_click") events in
  let B_view := count_events (u "B") (u "view") events in
  let B_click := count_events (u "B") (u "cta_click") events in
  let A_ctr := if (0 <? A_view)%nat then INR A_click / INR A_view else 0 in
  let B_ctr := if (0 <? B_view)%nat then INR B_click / INR B_view else 0 in
  let uplift := B_ctr - A_ctr in
  let '(z, pval) :=
    if ((0 <? A_view) && (0 <? B_view))%nat then
      let p_pool :=
        if (0 <? A_view + B_view)%nat then INR (A_click + B_click) / INR (A_view + B_view)
        else 0 in
      let denom :=
        sqrt (Rmax (p_pool * (1 - p_pool) * (1 / INR A_view + 1 / INR B_view))
                (1 / 10 ^ 12)) in
      let z := (B_ctr - A_ctr) / denom in
      (z, _p_value_two_sided z)
    else (0, 1) in
  let recommend :=
    if (min_views_required <=? Z.of_nat A_view)%Z
       && (min_views_required <=? Z.of_nat B_view)%Z
       && (if Rlt_dec pval (1 / 10) then true else false)
    then Some (if Rgt_dec B_ctr A_ctr then u "B" else u "A")
    else None in
  {| stats_A := {| view := A_view; click := A_click; ctr := A_ctr |};
     stats_B := {| view := B_view; click := B_click; ctr := B_ctr |};
     uplift := uplift;
     z := z;
     p_value := pval;
     min_views_required := min_views_required;
     recommend_variant := recommend |}.

End AB.

(** ** main.py: the export gate *)

Inductive stage := DRAFT | AB_READY | APPROVED | AUDIT_DONE | FIXED | EXPORTED.

(** The [export] entry of a run: [{"path": ..., "ts": ...}]. *)
Record ExportInfo := { export_path : str; export_ts : str }.

(** A row of the table [runs], as [get_run] returns it: the fields
    [api_export] reads or writes, and the stored page content. *)
Record Run := {
  run_stage : stage;
  run_updated_at : str;
  run_primary_keyword : str;
  run_supporting_keywords : list str;
  run_intent : str;
  run_content : Page;
  run_audit : option AuditResult;
  run_export : option ExportInfo
}.

(** The [detail] of a job log entry written by [api_export]. *)
Inductive JobDetail :=
  | DetailBlocked (error : str) (audit : option AuditResult)
  | DetailExport (export : ExportInfo).

Record JobLog := {
  log_run_id : Z;
  job_name : str;
  job_status : str;
  elapsed_ms : Z;
  job_detail : JobDetail;
  job_ts : str
}.

(** What [api_export] can read and write: the table [runs], the table
    [job_logs] and the files of the export directory. *)
Record World := {
  runs : gmap Z Run;
  job_logs : list JobLog;
  files : gmap (list N) (list N)
}.

(** The JSON responses of [api_export]: [_json_error(status, error,
    audit=...)], the success payload, and the HTTP 500 of an uncaught
    exception. *)
Inductive Response :=
  | JsonError (status_code : nat) (error : str) (audit : option (option AuditResult))
  | ExportOk (run_id : Z) (path : str) (export : ExportInfo) (run : Run)
  | InternalError.

(** SQLite binds a Python [int] only if it fits in 64 signed bits. *)
Definition fits_int64 (z : Z) : bool := (- 2 ^ 63 <=? z)%Z && (z <? 2 ^ 63)%Z.

Section ExportApi.
Context `{Unicode}.

(** [_render_export_html(_make_page_snapshot(run, base_url=...), ...)]: the
    HTML template of the export renderer. *)
Variable render_export : Run -> str -> Z -> str.

(** [str(EXPORT_DIR)], fixed when the application is installed. *)
Variable EXPORT_DIR : str.

Definition _log_job (w : World) (run_id : Z) (name status : str) (elapsed : Z)
    (detail : JobDetail) (now : str) : World :=
  {| runs := runs w;
     job_logs := job_logs w ++
       [{| log_run_id := run_id; job_name := name; job_status := status;
           elapsed_ms := elapsed; job_detail := detail; job_ts := now |}];
     files := files w |}.

(** [update_run(DB, run_id, fields={"export": export, "stage": ST_EXPORTED})]:
    the row after the update, as the closing [get_run] returns it, and the
    new state; [None] is the [KeyError] of [get_run] when there is no such
    row. *)
Definition update_run_export (w : World) (run_id : Z) (export : ExportInfo)
    (now : str) : option (Run * World) :=
  match runs w !! run_id with
  | Some r =>
      let r' :=
        {| run_stage := EXPORTED; run_updated_at := now;
           run_primary_keyword := run_primary_keyword r;
           run_supporting_keywords := run_supporting_keywords r;
           run_intent := run_intent r; run_content := run_content r;
           run_audit := run_audit r; run_export := Some export |} in
      Some (r', {| runs := <[run_id := r']> (runs w);
                   job_logs := job_logs w; files := files w |})
  | None => None
  end.

Definition write_text (w : World) (path content : str) : World :=
  {| runs := runs w; job_logs := job_logs w; files := <[path := content]> (files w) |}.

(** [(audit.get("overall") or "UNKNOWN").strip().upper()] for
    [audit = run.get("audit") or {}] *)
Definition current_overall (r : Run) : str :=
  upper (strip (or_str (match run_audit r with
                        | Some a => verdict_text (overall a)
                        | None => []
                        end) (u "UNKNOWN"))).

(** [now] is the reading of the clock and [elapsed] the measured running
    time in milliseconds.  When there is no such row, [get_run] raises
    [KeyError], which the handler answers with 404, but for an id that
    SQLite cannot bind it raises [OverflowError], which nothing catches (the
    rows of the table have 64-bit ids, so a row that is found has an id
    that fits). *)
Definition api_export (w : World) (run_id : Z) (base_url now : str) (elapsed : Z)
    : Response * World :=
  match runs w !! run_id with
  | None =>
      if fits_int64 run_id
      then (JsonError 404 (u "'run_id " ++ str_of_int run_id ++ u " not found'") None, w)
      else (InternalError, w)
  | Some run =>
      let audit := run_audit run in
      let overall := current_overall run in
      if negb (str_eqb overall (u "PASS")) then
        let w :=
          _log_job w run_id (u "EXPORT") (u "ERR") 0
            (DetailBlocked (u "blocked (current=" ++ overall ++ u ")") audit) now in
        (JsonError 400
           (u "Export blocked: requires PASS (current=" ++ overall
              ++ u "). Run Audit → Fix/Auto first.")
           (Some audit), w)
      else
        let base_url := rstrip_slash base_url in
        let html := render_export run base_url run_id in
        let out := EXPORT_DIR ++ u "/run_" ++ str_of_int run_id ++ u ".html" in
        let w := write_text w out html in
        let export := {| export_path := out; export_ts := now |} in
        match update_run_export w run_id export now with
        | None => (InternalError, w)
        | Some (run', w) =>
            let w :=
              _log_job w run_id (u "EXPORT") (u "OK") elapsed (DetailExport export) now in
            (ExportOk run_id out export run', w)
        end
  end.

End ExportApi.

(** ** services/seo_fix.py: the hybrid helpers *)

(** [safe_primary(pack)], a function of the two keys it reads. *)
Definition safe_primary (primary_keyword meta_title : option str) : str :=
  let v := strip (get_str primary_keyword) in
  if negb (is_empty v) then v
  else
    let v := strip (get_str meta_title) in
    if negb (is_empty v) then strip (hd [] (split (u "|") v)) else u "랜딩 페이지".

(** The argument [supporting_keywords]: a list of strings, one string, or
    anything else ([None] included). *)
Inductive SupportingArg :=
  | SupList (l : list str)
  | SupStr (s : str)
  | SupOther.

Definition parse_supporting (supporting_keywords : SupportingArg) : list str :=
  match supporting_keywords with
  | SupList l => List.map strip (List.filter (fun x => negb (is_empty (strip x))) l)
  | SupStr s =>
      List.map strip
        (List.filter (fun x => negb (is_empty (strip x))) (split (u ",") s))
  | SupOther => []
  end.

(** A value of the response of the rewrite service under one of the text
    keys: absent, not a string, or a string. *)
Inductive JText := JMissing | JOther | JStr (s : str).

(** A JSON value under the key [q] or [a] of a FAQ item.  A float, a list
    or a dict is given by the text that [str] returns for it. *)
Inductive JValue :=
  | JAbsent
  | JString (s : str)
  | JNull
  | JBoolean (b : bool)
  | JInteger (z : Z)
  | JRepr (text : str).

(** [str(item.get(k, ""))]: a missing key gives the default [""], and
    [str] turns [None] into ["None"], a number into its digits. *)
Definition py_str (v : JValue) : str :=
  match v with
  | JAbsent => []
  | JString s => s
  | JNull => u "None"
  | JBoolean true => u "True"
  | JBoolean false => u "False"
  | JInteger z => str_of_int z
  | JRepr text => text
  end.

(** An item of the list that is a dict: its values under [q] and [a]. *)
Record JItem := { item_q : JValue; item_a : JValue }.

(** The value under [faq]: absent, not a list, or a list whose items are
    dicts ([Some]) or anything else ([None]). *)
Inductive JFaq := FaqMissing | FaqOther | FaqList (items : list (option JItem)).

(** The parsed response: the six keys that [_merge_llm_into_page] reads, and
    whether the dict has any other key. *)
Record Patch := {
  p_meta_title : JText;
  p_meta_description : JText;
  p_h1 : JText;
  p_body_html : JText;
  p_cta : JText;
  p_faq : JFaq;
  p_other_keys : bool
}.

(** [out[k] = llm[k].strip()] when [llm.get(k)] is a non-blank string. *)
Definition merge_text (j : JText) (current : option str) : option str :=
  match j with
  | JStr s => if negb (is_empty (strip s)) then Some (strip s) else current
  | _ => current
  end.

(** The list [faq_ok]: the items that are dicts whose [q] and [a], made
    strings by [str] and stripped, are not empty. *)
Fixpoint faq_ok (items : list (option JItem)) : list FaqItem :=
  match items with
  | [] => []
  | None :: rest => faq_ok rest
  | Some item :: rest =>
      let q := strip (py_str (item_q item)) in
      let a := strip (py_str (item_a item)) in
      if negb (is_empty q) && negb (is_empty a)
      then {| faq_q := q; faq_a := a |} :: faq_ok rest
      else faq_ok rest
  end.

Definition _merge_llm_into_page (base : Page) (llm : Patch) : Page :=
  let ok :=
    match p_faq llm with
    | FaqList items => faq_ok items
    | _ => []
    end in
  {| meta_title := merge_text (p_meta_title llm) (meta_title base);
     meta_description := merge_text (p_meta_description llm) (meta_description base);
     canonical_url := canonical_url base;
     og_title := og_title base;
     og_description := og_description base;
     h1 := merge_text (p_h1 llm) (h1 base);
     body_html := merge_text (p_body_html llm) (body_html base);
     cta := merge_text (p_cta llm) (cta base);
     faq := if negb (is_empty ok) then Some ok else faq base;
     has_faq_jsonld :=
       if negb (is_empty ok) then Some (3 <=? length ok) else has_faq_jsonld base |}.

(** [not llm_out] for a dict. *)
Definition patch_is_empty (p : Patch) : bool :=
  match p_meta_title p, p_meta_description p, p_h1 p, p_body_html p, p_cta p, p_faq p with
  | JMissing, JMissing, JMissing, JMissing, JMissing, FaqMissing => negb (p_other_keys p)
  | _, _, _, _, _, _ => false
  end.

Section Hybrid.
Context `{Unicode}.

(** [occ / wc > 0.035] is [1000 * occ > 35 * wc]. *)
Definition _likely_pass_quickcheck (page : Page) (primary_kw : str)
    (supporting : list str) (intent : str) : bool :=
  let mt := strip (get_str (meta_title page)) in
  let md := strip (get_str (meta_description page)) in
  let h1 := strip (get_str (h1 page)) in
  let canon := strip (get_str (canonical_url page)) in
  let body := strip (get_str (body_html page)) in
  let faq := get_faq (faq page) in
  if negb ((20 <=? length mt) && (length mt <=? 60)) then false
  else if negb ((60 <=? length md) && (length md <=? 170)) then false
  else if is_empty h1 then false
  else if is_empty canon then false
  else if count_h2 body <? (if is_purchase intent then 3 else 2) then false
  else if word_count (strip_tags body) <? 360 then false
  else if length faq <? 3 then false
  else
    let plain := strip_tags body in
    let first_120 := join [SP] (firstn 120 (split_ws plain)) in
    if negb (is_empty primary_kw) && negb (contains primary_kw first_120) then false
    else
      let sup := List.filter (fun s => negb (is_empty s)) supporting in
      let low := lower plain in
      let hits := length (List.filter (fun s => contains (lower s) low) sup) in
      if negb (is_empty sup) && (hits <? 2) then false
      else
        let wc := word_count plain in
        let occ := count primary_kw plain in
        if (0 <? wc) && negb (is_empty primary_kw) && (35 * wc <? 1000 * occ)
        then false
        else if negb (contains (u "개인차") plain) || negb (contains (u "이상 반응") plain)
        then false
        else true.

(** The external rewrite: [_llm_fix(page=..., audit=..., primary_kw=...,
    supporting=..., intent=...)], [None] on any failure. *)
Variable _llm_fix : Page -> option AuditResult -> str -> list str -> str -> option Patch.

(** [(os.getenv("SEO_FIX_USE_LLM") or "1").strip().lower() not in
    ("0", "false", "no", "off")] *)
Definition use_llm_of (env : option str) : bool :=
  negb (mem_str (lower (strip (or_str (get_str env) (u "1"))))
          [u "0"; u "false"; u "no"; u "off"]).

(** [env_use_llm] is the environment variable SEO_FIX_USE_LLM.  A page
    snapshot has no key [primary_keyword], so [safe_primary(page)] reads
    the title only. *)
Definition ai_fix_to_pass (env_use_llm : option str) (page : Page)
    (audit : option AuditResult) (primary_keyword : str)
    (supporting_keywords : SupportingArg) (intent : str) (run_id : option Z)
    (base_url : option str) : Page :=
  let primary_kw := or_str (strip primary_keyword) (safe_primary None (meta_title page)) in
  let supporting := parse_supporting supporting_keywords in
  let fixed := _rule_fix page primary_kw supporting intent run_id base_url in
  if negb (use_llm_of env_use_llm) then fixed
  else if _likely_pass_quickcheck fixed primary_kw supporting intent then fixed
  else
    match _llm_fix fixed audit primary_kw supporting intent with
    | None => fixed
    | Some llm_out =>
        if patch_is_empty llm_out then fixed
        else
          let merged := _merge_llm_into_page fixed llm_out in
          _rule_fix merged primary_kw supporting intent run_id base_url
    end.

End Hybrid.

(** ** main.py: the enforce layer *)

(** [s.replace(old, new)] for a non-empty [old]. *)
Definition replace (old new s : str) : str := join new (split old s).

(** [c in ".!?"] for a character [c]. *)
Definition is_end_mark (c : N) : bool := (c =? 46)%N || (c =? 33)%N || (c =? 63)%N.

(** [t and t[-1] in ".!?"] *)
Definition ends_sentence (t : str) : bool :=
  match rev t with
  | c :: _ => is_end_mark c
  | [] => false
  end.

Section Enforce.
Context `{Unicode}.

Definition _strip_html (s : str) : str :=
  let s := replace (u "<br>") [SP] (replace (u "<br/>") [SP] s) in
  let s := sub_tags s in
  strip (sub_ws s).

(** The callers pass literal, non-negative bounds. *)
Definition _fit_len (text : str) (min_len max_len : nat) (pad : str)
    (cut_ellipsis : bool) : str :=
  let t := strip text in
  let t :=
    if (length t <? min_len) && negb (is_empty pad)
    then (if negb (is_empty t) then strip (t ++ [SP] ++ pad) else strip pad)
    else t in
  if max_len <? length t then
    let t := rstrip (slice_to max_len t) in
    if cut_ellipsis && (1 <=? length t) && negb (ends_sentence t)
    then strip (removelast t ++ u "…")
    else t
  else t.

Definition _ensure_sentence_end (text : str) (max_len : nat) : str :=
  let t := strip text in
  if is_empty t then t
  else if ends_sentence t then t
  else if length t + 1 <=? max_len then strip (t ++ u ".")
  else if 1 <=? max_len then
    let t := rstrip (slice_to max_len t) in
    if negb (is_empty t) && negb (ends_sentence t)
    then strip (removelast t ++ u ".")
    else t
  else t.

Definition _ensure_kw_in_h1 (h1 primary_kw : str) : str :=
  let h := strip h1 in
  let kw := strip primary_kw in
  if is_empty kw then h
  else if is_empty h then kw
  else if contains kw h then h
  else strip (kw ++ [SP] ++ h).

Definition _ensure_kw_in_first120 (body_html primary_kw : str)
    (supporting : list str) (intent : str) : str :=
  let kw := strip primary_kw in
  if is_empty kw then body_html
  else
    let plain := _strip_html body_html in
    if (1 <=? length plain) && contains kw (slice_to 120 plain) then body_html
    else
      let sup :=
        List.map strip
          (List.filter (fun s => negb (is_empty s) && negb (is_empty (strip s)))
             supporting) in
      let sup_part :=
        if negb (is_empty sup)
        then u " (" ++ join (u ", ") (firstn 3 sup) ++ u ")"
        else [] in
      let intent := strip intent in
      let lead :=
        if contains (u "구매") intent
        then u "<p><b>" ++ kw ++ u "</b>" ++ sup_part
             ++ u " 기준으로 선택 포인트와 사용 팁을 정리했습니다. 아래에서 확인해 보세요.</p>"
        else u "<p><b>" ++ kw ++ u "</b>" ++ sup_part
             ++ u " 핵심 정보를 먼저 요약합니다. 아래에서 자세히 확인해 보세요.</p>" in
      strip (lead ++ body_html).

Definition _enforce_page_for_pass (page : Page) (primary_keyword : str)
    (supporting_keywords : list str) (intent : str) : Page :=
  let kw := strip primary_keyword in
  let sup :=
    List.map strip
      (List.filter (fun s => negb (is_empty s) && negb (is_empty (strip s)))
         supporting_keywords) in
  let title := strip (get_str (meta_title page)) in
  let title :=
    if negb (is_empty kw) && negb (contains kw title)
    then (if negb (is_empty title) then strip (kw ++ [SP] ++ title)
          else strip (kw ++ u " 선택 가이드"))
    else title in
  let title_pad :=
    if negb (is_empty kw)
    then (if contains (u "구매") intent then u "| " ++ kw ++ u " 구매 가이드"
          else u "| " ++ kw ++ u " 핵심 정리")
    else [] in
  let title := _fit_len title 30 60 title_pad false in
  let desc := strip (get_str (meta_description page)) in
  let desc :=
    if negb (is_empty kw) && negb (contains kw desc)
    then (if negb (is_empty desc) then strip ((kw ++ [SP]) ++ desc)
          else kw ++ u " 정보를 정리했습니다.")
    else desc in
  let desc_pad := u "선택 기준, 사용 팁, FAQ까지 과장 없이 정리했습니다. 지금 확인해 보세요" in
  let desc := _fit_len desc 70 160 desc_pad false in
  let desc := _ensure_sentence_end desc 160 in
  let h1 := strip (get_str (h1 page)) in
  let h1 := _ensure_kw_in_h1 h1 kw in
  let h1 := if is_empty h1 && negb (is_empty kw) then kw else h1 in
  let body_html := strip (get_str (body_html page)) in
  let body_html := _ensure_kw_in_first120 body_html kw sup intent in
  let og_title := or_str (strip (get_str (og_title page))) title in
  let og_desc := or_str (strip (get_str (og_description page))) desc in
  {| meta_title := Some title;
     meta_description := Some desc;
     canonical_url := canonical_url page;
     og_title := Some og_title;
     og_description := Some og_desc;
     h1 := Some h1;
     body_html := Some body_html;
     cta := cta page;
     faq := faq page;
     has_faq_jsonld := Some (3 <=? length (get_faq (faq page))) |}.

End Enforce.

(** ** main.py: the rounds of fix_to_pass *)

(** [max(1, min(int(max_rounds or default), 6))] *)
Definition rounds_of (max_rounds default : Z) : nat :=
  Z.to_nat (Z.max 1 (Z.min (if (max_rounds =? 0)%Z then default else max_rounds) 6)).

Definition is_pass (v : verdict) : bool :=
  match v with PASS => true | _ => false end.

Section FixRounds.
Context `{Unicode}.

(** The rewrite service at its [k]-th call within one request. *)
Variable llm_call : nat -> Page -> option AuditResult -> str -> list str -> str -> option Patch.
(** The environment variable SEO_FIX_USE_LLM. *)
Variable env_use_llm : option str.
Variables (primary : str) (supporting : list str) (intent : str).
Variables (run_id : Z) (base_url : str).

(** One pass of the loop body: hybrid fix, enforce layer. *)
Definition fix_round (k : nat) (page : Page) (last_audit : AuditResult) : Page :=
  let fixed_page :=
    ai_fix_to_pass (llm_call k) env_use_llm page (Some last_audit) primary
      (SupList supporting) intent (Some run_id) (Some base_url) in
  _enforce_page_for_pass fixed_page primary supporting intent.

(** [for _ in range(rounds): ...; if last_audit["overall"] == "PASS": break],
    with the variables [page] (which is [fixed_page] after the first pass),
    [fixed_page] and [last_audit]; [k] counts the passes made. *)
Fixpoint fix_rounds (rounds k : nat) (page : Page) (fixed_page : option Page)
    (last_audit : AuditResult) : option Page * AuditResult :=
  match rounds with
  | O => (fixed_page, last_audit)
  | S n =>
      let fixed := fix_round k page last_audit in
      let audit := seo_audit_page fixed primary supporting intent in
      if is_pass (overall audit) then (Some fixed, audit)
      else fix_rounds n (S k) fixed (Some fixed) audit
  end.

End FixRounds.

(** ** main.py: the bulk export *)

(** What [_admin_do_export] does: the [KeyError] or the [OverflowError] of
    [get_run], the [ValueError] of the gate, or the returned
    [{"run": ..., "export": ...}]. *)
Inductive AdminOutcome :=
  | AdminKeyError
  | AdminOverflowError
  | AdminValueError (message : str)
  | AdminExported (run : Run) (export : ExportInfo).

Section AdminExport.
Variable render_export : Run -> str -> Z -> str.
Variable EXPORT_DIR : str.

Definition _admin_do_export (w : World) (run_id : Z) (base_url now : str)
    : AdminOutcome * World :=
  match runs w !! run_id with
  | None => (if fits_int64 run_id then AdminKeyError else AdminOverflowError, w)
  | Some run =>
      let audit := run_audit run in
      if negb (match audit with
               | Some a => str_eqb (verdict_text (overall a)) (u "PASS")
               | None => false
               end)
      then
        let st := match audit with
                  | Some a => verdict_text (overall a)
                  | None => u "UNKNOWN"
                  end in
        (AdminValueError (u "Export blocked: SEO is not PASS (current=" ++ st ++ u ")"), w)
      else
        let html := render_export run base_url run_id in
        let out := EXPORT_DIR ++ u "/run_" ++ str_of_int run_id ++ u ".html" in
        let w := write_text w out html in
        let export := {| export_path := out; export_ts := now |} in
        match update_run_export w run_id export now with
        | None => (AdminKeyError, w)
        | Some (run2, w) => (AdminExported run2 export, w)
        end
  end.

End AdminExport.

(** ** services/qc_rules.py: the banned-term check *)

Definition BANNED_FAIL : list str :=
  [ u "완치"; u "치료"; u "염증 치료"; u "아토피 치료"; u "피부병 치료"; u "의약품";
    u "부작용 없음"; u "100%" ].

Definition BANNED_WARN : list str :=
  [ u "즉시"; u "무조건"; u "완벽"; u "기적"; u "단번에"; u "확실한 효과" ].

(** The keys [grade] and [hits] of the result; [notes] is a display text
    fixed by the grade. *)
Record QcResult := { qc_grade : verdict; qc_hits : list str }.

Definition qc_check_text_pack (text : str) : QcResult :=
  let hits_fail := List.filter (fun w => contains w text) BANNED_FAIL in
  let hits_warn := List.filter (fun w => contains w text) BANNED_WARN in
  if negb (is_empty hits_fail) then {| qc_grade := OVERALL_FAIL; qc_hits := hits_fail |}
  else if negb (is_empty hits_warn) then {| qc_grade := OVERALL_WARN; qc_hits := hits_warn |}
  else {| qc_grade := PASS; qc_hits := [] |}.

(** * Properties *)

(** ** The audit engine: score, verdict and the rule catalog *)

Definition sum_penalties (l : list Issue) : Z :=
  fold_right (fun i acc => (penalty_of (rule_id i) + acc)%Z) 0%Z l.

Definition count_severity (s : severity) (l : list Issue) : nat :=
  length (List.filter (fun i => severity_eqb (issue_severity i) s) l).

Definition rules_of (st : audit_state) : list rule := List.map rule_id (fst st).

(** The running penalty is the sum of the penalties of the issues so far. *)
Definition penalty_ok (st : audit_state) : Prop := snd st = sum_penalties (fst st).

Lemma severity_eqb_eq (x y : severity) : severity_eqb x y = true <-> x = y.
Proof. destruct x, y; simpl; split; congruence. Qed.

Lemma sum_penalties_app (l1 l2 : list Issue) :
  sum_penalties (l1 ++ l2) = (sum_penalties l1 + sum_penalties l2)%Z.
Proof. induction l1 as [|i l1 IH]; simpl; [|rewrite IH]; lia. Qed.

Lemma penalty_ok_add (r : rule) (s : severity) (p : Z) (st : audit_state) :
  p = penalty_of r -> penalty_ok st -> penalty_ok (add r s p st).
Proof.
  unfold penalty_ok, add. simpl. intros -> ->.
  rewrite sum_penalties_app. simpl. lia.
Qed.

Lemma penalty_ok_when (c : bool) (f : audit_state -> audit_state) (st : audit_state) :
  (penalty_ok st -> penalty_ok (f st)) -> penalty_ok st -> penalty_ok (when c f st).
Proof. unfold when. destruct c; auto. Qed.

Lemma rules_of_add (r : rule) (s : severity) (p : Z) (st : audit_state) :
  rules_of (add r s p st) = rules_of st ++ [r].
Proof. unfold rules_of, add. simpl. now rewrite List.map_app. Qed.

Lemma in_rules_when_add (x r : rule) (s : severity) (p : Z) (c : bool)
    (st : audit_state) :
  In x (rules_of (when c (add r s p) st)) <-> In x (rules_of st) \/ (c = true /\ x = r).
Proof.
  unfold when. destruct c.
  - rewrite rules_of_add, List.in_app_iff. simpl. intuition congruence.
  - intuition congruence.
Qed.

Lemma in_rules_if_add (x r1 r2 : rule) (s1 s2 : severity) (p1 p2 : Z) (c1 c2 : bool)
    (st : audit_state) :
  In x (rules_of (if c1 then add r1 s1 p1 st else when c2 (add r2 s2 p2) st)) <->
  In x (rules_of st) \/ (c1 = true /\ x = r1) \/ (c1 = false /\ c2 = true /\ x = r2).
Proof.
  destruct c1.
  - rewrite rules_of_add, List.in_app_iff. simpl. intuition congruence.
  - rewrite in_rules_when_add. intuition congruence.
Qed.

Lemma overall_of_fail (l : list Issue) :
  overall_of l = OVERALL_FAIL <-> exists i, In i l /\ issue_severity i = FAIL.
Proof.
  unfold overall_of.
  destruct (existsb _ l) eqn:E.
  - split; [intros _|reflexivity].
    apply List.existsb_exists in E as [i [Hi Hs]]. exists i. split; [assumption|].
    now apply severity_eqb_eq.
  - split.
    + destruct (2 <=? _); discriminate.
    + intros [i [Hi Hs]]. exfalso.
      assert (existsb (fun i => severity_eqb (issue_severity i) FAIL) l = true).
      { apply List.existsb_exists. exists i. split; [assumption|]. now apply severity_eqb_eq. }
      congruence.
Qed.

Lemma overall_of_warn (l : list Issue) :
  overall_of l = OVERALL_WARN <->
  (forall i, In i l -> issue_severity i <> FAIL) /\ 2 <= count_severity WARN l.
Proof.
  pose proof (overall_of_fail l) as HF.
  unfold overall_of, count_severity in *.
  destruct (existsb _ l) eqn:E.
  - split; [discriminate|]. intros [Hno _]. exfalso.
    destruct HF as [HF _]. destruct (HF eq_refl) as [i [Hi Hs]]. now apply (Hno i).
  - destruct (2 <=? _) eqn:E2.
    + apply Nat.leb_le in E2. split; [intros _|reflexivity]. split; [|assumption].
      intros i Hi Hs. destruct HF as [_ HF].
      discriminate HF. now exists i.
    + apply Nat.leb_gt in E2. split; [discriminate|]. intros [_ Hc]. lia.
Qed.

Lemma overall_of_pass (l : list Issue) :
  overall_of l = PASS <->
  (forall i, In i l -> issue_severity i <> FAIL) /\ count_severity WARN l < 2.
Proof.
  pose proof (overall_of_fail l) as HF. pose proof (overall_of_warn l) as HW.
  destruct (overall_of l) eqn:E.
  - split; [intros _|reflexivity]. split.
    + intros i Hi Hs. destruct HF as [_ HF]. discriminate HF. now exists i.
    + destruct (Nat.lt_ge_cases (count_severity WARN l) 2) as [Hlt|Hge]; [assumption|].
      destruct HW as [_ HW]. discriminate HW. split; [|assumption].
      intros i Hi Hs. destruct HF as [_ HF]. discriminate HF. now exists i.
  - split; [discriminate|]. intros [Hno Hc]. destruct HW as [HW _].
    destruct (HW eq_refl). lia.
  - split; [discriminate|]. intros [Hno _]. destruct HF as [HF _].
    destruct (HF eq_refl) as [i [Hi Hs]]. now destruct (Hno i).
Qed.

Definition not_info (i : Issue) : bool := negb (severity_eqb (issue_severity i) INFO).

Lemma filter_severity_not_info (s : severity) (l : list Issue) :
  s <> INFO ->
  List.filter (fun i => severity_eqb (issue_severity i) s) (List.filter not_info l)
  = List.filter (fun i => severity_eqb (issue_severity i) s) l.
Proof.
  intros Hs. induction l as [|i l IH]; simpl; [reflexivity|].
  unfold not_info at 1. destruct (issue_severity i) eqn:Ei; simpl;
    rewrite ?Ei; destruct s; simpl; try congruence; now rewrite IH.
Qed.

Lemma existsb_fail_not_info (l : list Issue) :
  existsb (fun i => severity_eqb (issue_severity i) FAIL) (List.filter not_info l)
  = existsb (fun i => severity_eqb (issue_severity i) FAIL) l.
Proof.
  induction l as [|i l IH]; simpl; [reflexivity|].
  unfold not_info at 1. destruct (issue_severity i) eqn:Ei; simpl;
    rewrite ?Ei; simpl; now rewrite ?IH.
Qed.

Lemma overall_of_ignores_info (l : list Issue) :
  overall_of (List.filter not_info l) = overall_of l.
Proof.
  unfold overall_of.
  rewrite existsb_fail_not_info.
  rewrite (@filter_severity_not_info WARN); [reflexivity|discriminate].
Qed.

Section AuditProperties.
Context `{Unicode}.

Lemma audit_penalty_ok (page : Page) (pk : str) (sup : list str) (intent : str) :
  let r := seo_audit_page page pk sup intent in
  score r = Z.max 0 (100 - sum_penalties (issues r)).
Proof.
  cbv beta zeta delta [seo_audit_page]. cbn [score issues].
  f_equal. f_equal.
  match goal with |- snd ?st = sum_penalties (fst ?st) => change (penalty_ok st) end.
  repeat first
    [ apply penalty_ok_when; [intros ?; apply penalty_ok_add; [reflexivity|assumption]|]
    | match goal with
      | |- penalty_ok (if ?c then _ else _) => destruct c
      end
    | apply penalty_ok_add; [reflexivity|] ].
  all: reflexivity.
Qed.

(** C4.  The score of an audit is [max(0, 100 - sum of the penalties of the
    emitted issues)]; the verdict is FAIL exactly when some issue has
    severity FAIL, WARN exactly when none has and at least two have
    severity WARN, and PASS otherwise; removing the INFO issues never
    changes the verdict. *)
Theorem audit_score_and_verdict (page : Page) (primary_keyword : str)
    (supporting_keywords : list str) (intent : str) :
  let r := seo_audit_page page primary_keyword supporting_keywords intent in
  score r = Z.max 0 (100 - sum_penalties (issues r))
  /\ (overall r = OVERALL_FAIL <-> exists i, In i (issues r) /\ issue_severity i = FAIL)
  /\ (overall r = OVERALL_WARN <->
        (forall i, In i (issues r) -> issue_severity i <> FAIL)
        /\ 2 <= count_severity WARN (issues r))
  /\ (overall r = PASS <->
        (forall i, In i (issues r) -> issue_severity i <> FAIL)
        /\ count_severity WARN (issues r) < 2)
  /\ overall r = overall_of (List.filter not_info (issues r)).
Proof.
  intros r.
  assert (Ho : overall r = overall_of (issues r)) by reflexivity.
  split; [apply audit_penalty_ok|].
  rewrite overall_of_ignores_info, Ho.
  split; [apply overall_of_fail|].
  split; [apply overall_of_warn|].
  split; [apply overall_of_pass|reflexivity].
Qed.

End AuditProperties.

(** Opens [audit_rules] into one disjunct per [add] of the source. *)
Ltac audit_rules_cases :=
  unfold audit_rules; cbv beta zeta delta [seo_audit_page]; cbn [issues];
  match goal with
  | |- context [List.map rule_id (fst ?st)] =>
      change (List.map rule_id (fst st)) with (rules_of st)
  end;
  repeat (rewrite in_rules_when_add || rewrite in_rules_if_add);
  unfold rules_of; cbn [fst List.map In].

Section RuleCatalog.
Context `{Unicode}.

Lemma filter_length_le {A : Type} (f : A -> bool) (l : list A) :
  length (List.filter f l) <= length l.
Proof. induction l as [|x l IH]; simpl; [lia|]. destruct (f x); simpl; lia. Qed.

(** The audit takes a page with three or more FAQ entries as having FAQ
    JSON-LD, so rule S002 can never fire. *)
Lemma audit_never_S002 (page : Page) (pk : str) (sup : list str) (intent : str) :
  ~ In S002 (audit_rules page pk sup intent).
Proof.
  audit_rules_cases.
  intros HIn.
  repeat match goal with
  | H : _ \/ _ |- _ => destruct H as [H|H]
  | H : _ /\ _ |- _ => destruct H
  | H : False |- _ => destruct H
  | H : S002 = _ |- _ => try discriminate H; clear H
  end.
  match goal with
  | H : (_ && negb (_ || (3 <=? length ?l)))%bool = true |- _ =>
      apply andb_prop in H as [H1 H2];
      apply Nat.leb_le in H1;
      apply negb_true_iff, orb_false_elim in H2 as [_ H2];
      apply Nat.leb_gt in H2;
      pose proof (filter_length_le faq_complete l)
  end.
  lia.
Qed.


End RuleCatalog.

(** ** Whitespace stripping *)

(** A string has ink when one of its characters is not whitespace. *)
Definition has_ink (s : str) : bool := existsb (fun c => negb (isspace c)) s.

Lemma has_ink_iff (s : str) :
  has_ink s = true <-> exists c, In c s /\ isspace c = false.
Proof.
  unfold has_ink. rewrite List.existsb_exists.
  split; intros [c [Hc Hs]]; exists c; split; try assumption.
  - now apply negb_true_iff.
  - now apply negb_true_iff.
Qed.

Lemma has_ink_app (s t : str) : has_ink (s ++ t) = (has_ink s || has_ink t)%bool.
Proof. unfold has_ink. apply List.existsb_app. Qed.

Lemma has_ink_rev (s : str) : has_ink (rev s) = has_ink s.
Proof.
  induction s as [|c s IH]; simpl; [reflexivity|].
  rewrite has_ink_app, IH. simpl. rewrite orb_false_r. apply orb_comm.
Qed.

Lemma has_ink_drop_while (s : str) : has_ink (drop_while isspace s) = has_ink s.
Proof.
  induction s as [|c s IH]; simpl; [reflexivity|].
  destruct (isspace c) eqn:E; simpl; [assumption|now rewrite E].
Qed.

Lemma drop_while_nil_iff (s : str) : drop_while isspace s = [] <-> has_ink s = false.
Proof.
  induction s as [|c s IH]; simpl; [tauto|].
  destruct (isspace c); simpl; [assumption|]. split; discriminate.
Qed.

Lemma drop_while_head (f : N -> bool) (s r : str) (c : N) :
  drop_while f s = c :: r -> f c = false.
Proof.
  induction s as [|x s IH]; simpl; [discriminate|].
  destruct (f x) eqn:E; [assumption|]. intros Heq. injection Heq as -> _. exact E.
Qed.

Lemma drop_while_idem (f : N -> bool) (s : str) :
  drop_while f (drop_while f s) = drop_while f s.
Proof.
  induction s as [|x s IH]; simpl; [reflexivity|].
  destruct (f x) eqn:E; [assumption|]. simpl. now rewrite E.
Qed.

Lemma drop_while_snoc (f : N -> bool) (s : str) (c : N) :
  f c = false -> drop_while f (s ++ [c]) = drop_while f s ++ [c].
Proof.
  intros Hc. induction s as [|x s IH]; simpl; [now rewrite Hc|].
  destruct (f x); [assumption|reflexivity].
Qed.

Lemma has_ink_rstrip (s : str) : has_ink (rstrip s) = has_ink s.
Proof.
  unfold rstrip, rstrip_by. now rewrite has_ink_rev, has_ink_drop_while, has_ink_rev.
Qed.

Lemma has_ink_strip (s : str) : has_ink (strip s) = has_ink s.
Proof.
  unfold strip, lstrip_by. fold (rstrip (drop_while isspace s)).
  now rewrite has_ink_rstrip, has_ink_drop_while.
Qed.

Lemma has_ink_nonempty (s : str) : has_ink s = true -> is_empty s = false.
Proof. destruct s; [discriminate|reflexivity]. Qed.

Lemma strip_nonempty (s : str) : has_ink s = true -> is_empty (strip s) = false.
Proof. intros Hs. apply has_ink_nonempty. now rewrite has_ink_strip. Qed.

Lemma strip_empty_iff (s : str) : is_empty (strip s) = negb (has_ink s).
Proof.
  destruct (has_ink s) eqn:E; simpl.
  - now apply strip_nonempty.
  - unfold strip, rstrip_by, lstrip_by.
    assert (Hd : drop_while isspace (rev (drop_while isspace s)) = []).
    { apply drop_while_nil_iff. now rewrite has_ink_rev, has_ink_drop_while. }
    now rewrite Hd.
Qed.

Lemma rstrip_idem (s : str) : rstrip (rstrip s) = rstrip s.
Proof.
  unfold rstrip, rstrip_by. now rewrite List.rev_involutive, drop_while_idem.
Qed.

Lemma rstrip_cons_ink (c : N) (r : str) :
  isspace c = false -> rstrip (c :: r) = c :: rstrip r.
Proof.
  intros Hc. unfold rstrip, rstrip_by. simpl.
  rewrite drop_while_snoc by assumption. rewrite List.rev_app_distr. reflexivity.
Qed.

Lemma lstrip_strip (s : str) : drop_while isspace (strip s) = strip s.
Proof.
  unfold strip, lstrip_by. fold (rstrip (drop_while isspace s)).
  destruct (drop_while isspace s) as [|c r] eqn:E; [reflexivity|].
  pose proof (drop_while_head _ _ E) as Hc.
  rewrite rstrip_cons_ink by assumption. simpl. now rewrite Hc.
Qed.

Lemma strip_idem (s : str) : strip (strip s) = strip s.
Proof.
  unfold strip at 1. unfold lstrip_by. rewrite lstrip_strip.
  unfold strip, lstrip_by. fold (rstrip (drop_while isspace s)). apply rstrip_idem.
Qed.

(** A stripped string is empty or starts with ink. *)
Lemma stripped_head (s : str) :
  strip s = s -> s = [] \/ exists c r, s = c :: r /\ isspace c = false.
Proof.
  intros Hs. destruct s as [|c r]; [now left|right].
  exists c, r. split; [reflexivity|].
  pose proof (lstrip_strip (c :: r)) as Hl. rewrite Hs in Hl.
  now apply (drop_while_head _ _ Hl).
Qed.

Lemma In_firstn {A : Type} (x : A) (n : nat) (l : list A) :
  In x (firstn n l) -> In x l.
Proof.
  revert l; induction n as [|n IH]; intros [|y l]; simpl; try tauto.
  intros [->|Hx]; [now left|right; now apply IH].
Qed.

(** Ink among the first [k] characters survives appending and cutting at
    [n >= k]. *)
Lemma has_ink_firstn_app (k n : nat) (s r : str) :
  has_ink (firstn k s) = true -> k <= n -> has_ink (firstn k (firstn n (s ++ r))) = true.
Proof.
  intros Hk Hle.
  rewrite List.firstn_firstn, Nat.min_l by assumption.
  rewrite List.firstn_app, has_ink_app, Hk. reflexivity.
Qed.

Lemma has_ink_firstn_weaken (k : nat) (s : str) :
  has_ink (firstn k s) = true -> has_ink s = true.
Proof.
  rewrite !has_ink_iff. intros [c [Hc Hs]]. exists c. split; [|assumption].
  now apply In_firstn in Hc.
Qed.

Lemma has_ink_firstn_firstn (k n : nat) (s : str) :
  has_ink (firstn k s) = true -> k <= n -> has_ink (firstn n s) = true.
Proof.
  intros Hk Hle. apply has_ink_firstn_weaken with k.
  now rewrite List.firstn_firstn, Nat.min_l.
Qed.

(** ** The enforcement engine, field by field *)

Section FixFields.
Context `{Unicode}.

Ltac case_all :=
  repeat match goal with
  | |- context [if ?c then _ else _] => destruct c
  | |- context [match ?x with Some _ => _ | None => _ end] => destruct x
  | |- context [match ?x with (_, _) => _ end] => destruct x
  end.

Ltac frame_tac :=
  intros;
  unfold ensure_og, ensure_canonical, update_body, ensure_body_length, ensure_faq,
    ensure_h2_sections, ensure_cta, ensure_h1, update_meta_description,
    update_meta_title;
  case_all; reflexivity.

Ltac is_field proj :=
  lazymatch proj with
  | meta_title => idtac | meta_description => idtac | canonical_url => idtac
  | og_title => idtac | og_description => idtac | h1 => idtac
  | body_html => idtac | cta => idtac | faq => idtac | has_faq_jsonld => idtac
  end.

(** Steps of [_rule_fix] that do not write a field leave it as it is. *)
Ltac peel :=
  repeat match goal with
  | |- context [?proj (ensure_og ?f)] =>
      is_field proj;
      let E := fresh "E" in
      assert (E : forall x, proj (ensure_og x) = proj x) by frame_tac;
      rewrite (E f); clear E
  | |- context [?proj (ensure_canonical ?f ?r ?b)] =>
      is_field proj;
      let E := fresh "E" in
      assert (E : forall x, proj (ensure_canonical x r b) = proj x) by frame_tac;
      rewrite (E f); clear E
  | |- context [?proj (update_body ?g ?f)] =>
      is_field proj;
      let E := fresh "E" in
      assert (E : forall x, proj (update_body g x) = proj x) by frame_tac;
      rewrite (E f); clear E
  | |- context [?proj (ensure_body_length ?f ?k ?n)] =>
      is_field proj;
      let E := fresh "E" in
      assert (E : forall x, proj (ensure_body_length x k n) = proj x) by frame_tac;
      rewrite (E f); clear E
  | |- context [?proj (ensure_faq ?f ?k ?n)] =>
      is_field proj;
      let E := fresh "E" in
      assert (E : forall x, proj (ensure_faq x k n) = proj x) by frame_tac;
      rewrite (E f); clear E
  | |- context [?proj (ensure_h2_sections ?f ?k ?i)] =>
      is_field proj;
      let E := fresh "E" in
      assert (E : forall x, proj (ensure_h2_sections x k i) = proj x) by frame_tac;
      rewrite (E f); clear E
  | |- context [?proj (ensure_cta ?f ?i)] =>
      is_field proj;
      let E := fresh "E" in
      assert (E : forall x, proj (ensure_cta x i) = proj x) by frame_tac;
      rewrite (E f); clear E
  | |- context [?proj (ensure_h1 ?f ?k)] =>
      is_field proj;
      let E := fresh "E" in
      assert (E : forall x, proj (ensure_h1 x k) = proj x) by frame_tac;
      rewrite (E f); clear E
  | |- context [?proj (update_meta_description ?g ?f)] =>
      is_field proj;
      let E := fresh "E" in
      assert (E : forall x, proj (update_meta_description g x) = proj x) by frame_tac;
      rewrite (E f); clear E
  | |- context [?proj (update_meta_title ?g ?f)] =>
      is_field proj;
      let E := fresh "E" in
      assert (E : forall x, proj (update_meta_title g x) = proj x) by frame_tac;
      rewrite (E f); clear E
  end.

Ltac open_rule_fix :=
  unfold _rule_fix;
  match goal with
  | |- context [match ?r with Some _ => _ | None => _ end] => destruct r
  | _ => idtac
  end;
  match goal with
  | |- context [match ?r with Some _ => _ | None => _ end] => destruct r
  | _ => idtac
  end;
  cbv beta iota zeta.

Definition default_cta (intent : str) : str :=
  if is_purchase intent then u "지금 구매하기" else u "자세히 보기".


Lemma rule_fix_cta (page : Page) (pk : str) (sup : list str) (intent : str)
    (rid : option Z) (base : option str) :
  cta (_rule_fix page pk sup intent rid base)
  = Some (if is_empty (strip (get_str (cta page))) then default_cta intent
          else strip (get_str (cta page))).
Proof.
  open_rule_fix; peel.
  all: unfold ensure_cta; peel; cbn [cta get_str]; rewrite strip_idem;
    destruct (is_empty (strip (get_str (cta page)))); cbn [negb]; peel; reflexivity.
Qed.

Lemma rule_fix_faq (page : Page) (pk : str) (sup : list str) (intent : str)
    (rid : option Z) (base : option str) :
  faq (_rule_fix page pk sup intent rid base)
  = Some (faq_loop 3 (faq_candidates pk) (get_faq (faq page))
            (List.map (fun item => strip (faq_q item)) (get_faq (faq page)))).
Proof.
  open_rule_fix; peel.
  all: unfold ensure_faq; cbn [faq set_faq]; peel; reflexivity.
Qed.

Lemma rule_fix_has_faq_jsonld (page : Page) (pk : str) (sup : list str) (intent : str)
    (rid : option Z) (base : option str) :
  has_faq_jsonld (_rule_fix page pk sup intent rid base) = Some true.
Proof.
  open_rule_fix; peel.
  all: reflexivity.
Qed.

Lemma rule_fix_h1 (page : Page) (pk : str) (sup : list str) (intent : str)
    (rid : option Z) (base : option str) :
  h1 (_rule_fix page pk sup intent rid base)
  = Some (ensure_nonempty (strip (get_str (h1 page))) pk).
Proof.
  open_rule_fix; peel.
  all: unfold ensure_h1; cbn [h1 set_h1]; peel; reflexivity.
Qed.

Lemma rule_fix_meta_title (page : Page) (pk : str) (sup : list str) (intent : str)
    (rid : option Z) (base : option str) :
  meta_title (_rule_fix page pk sup intent rid base)
  = Some (clamp_text_len (strip (get_str (meta_title page))) 20 60
            (pk ++ u " 가이드 | 선택 기준")).
Proof.
  open_rule_fix; peel.
  all: reflexivity.
Qed.

Lemma rule_fix_meta_description (page : Page) (pk : str) (sup : list str)
    (intent : str) (rid : option Z) (base : option str) :
  meta_description (_rule_fix page pk sup intent rid base)
  = Some (clamp_text_len (strip (get_str (meta_description page))) 60 170
            (pk ++ u " 선택 기준, 사용 루틴, FAQ를 정리했습니다. 개인차가 있어 패치 테스트를 권장합니다.")).
Proof.
  open_rule_fix; peel.
  all: unfold update_meta_description; cbn [meta_description set_meta_description];
    peel; reflexivity.
Qed.

Lemma rule_fix_og_title (page : Page) (pk : str) (sup : list str) (intent : str)
    (rid : option Z) (base : option str) :
  og_title (_rule_fix page pk sup intent rid base)
  = Some (ensure_nonempty (strip (get_str (og_title page)))
            (get_str (meta_title (_rule_fix page pk sup intent rid base)))).
Proof.
  rewrite rule_fix_meta_title.
  open_rule_fix.
  all: unfold ensure_og at 1; cbn [og_title set_og]; peel; reflexivity.
Qed.

Lemma rule_fix_og_description (page : Page) (pk : str) (sup : list str)
    (intent : str) (rid : option Z) (base : option str) :
  og_description (_rule_fix page pk sup intent rid base)
  = Some (ensure_nonempty (strip (get_str (og_description page)))
            (get_str (meta_description (_rule_fix page pk sup intent rid base)))).
Proof.
  rewrite rule_fix_meta_description.
  open_rule_fix.
  all: unfold ensure_og at 1; cbn [og_description set_og]; peel;
    unfold update_meta_description; cbn [meta_description set_meta_description];
    peel; reflexivity.
Qed.

Lemma rule_fix_canonical_url (page : Page) (pk : str) (sup : list str)
    (intent : str) (rid : Z) (base : str) :
  canonical_url (_rule_fix page pk sup intent (Some rid) (Some base))
  = Some (if is_empty (strip (get_str (canonical_url page)))
          then rstrip_slash (or_str base (u "https://example.com"))
                 ++ u "/r/" ++ str_of_int rid
          else strip (get_str (canonical_url page))).
Proof.
  unfold _rule_fix; cbv beta iota zeta. peel.
  unfold ensure_canonical. peel. cbn [canonical_url get_str]. rewrite strip_idem.
  destruct (is_empty (strip (get_str (canonical_url page)))); cbn [negb]; peel;
    reflexivity.
Qed.

End FixFields.

(** ** The FAQ step *)

(** Candidates whose question is not yet among the existing ones. *)
Definition fresh (cands : list (str * str)) (existing_q : list str) : nat :=
  length (List.filter (fun c => negb (mem_str (fst c) existing_q)) cands).

Lemma str_eqb_neq (a b : str) : a <> b -> str_eqb a b = false.
Proof.
  intros Hab. destruct (str_eqb a b) eqn:E; [|reflexivity].
  apply str_eqb_eq in E. contradiction.
Qed.

Lemma mem_str_cons (x e : str) (ex : list str) :
  mem_str x (e :: ex) = (str_eqb x e || mem_str x ex)%bool.
Proof. reflexivity. Qed.

Lemma fresh_cons (c : str * str) (cs : list (str * str)) (ex : list str) :
  fresh (c :: cs) ex = (if mem_str (fst c) ex then 0 else 1) + fresh cs ex.
Proof. unfold fresh. cbn [List.filter]. destruct (mem_str (fst c) ex); reflexivity. Qed.

Lemma fresh_cons_notin (cands : list (str * str)) (e : str) (ex : list str) :
  ~ In e (List.map fst cands) -> fresh cands (e :: ex) = fresh cands ex.
Proof.
  induction cands as [|c cs IH]; [reflexivity|].
  cbn [List.map In]. intros Hn.
  assert (Hc : str_eqb (fst c) e = false).
  { apply str_eqb_neq. intros Heq. apply Hn. now left. }
  rewrite !fresh_cons, mem_str_cons, Hc, IH by tauto. reflexivity.
Qed.

Lemma fresh_cons_le (cands : list (str * str)) (e : str) (ex : list str) :
  List.NoDup (List.map fst cands) -> fresh cands ex <= fresh cands (e :: ex) + 1.
Proof.
  induction cands as [|c cs IH]; intros Hnd; [unfold fresh; simpl; lia|].
  cbn [List.map] in Hnd. apply List.NoDup_cons_iff in Hnd as [Hnotin Hnd].
  specialize (IH Hnd). rewrite !fresh_cons, mem_str_cons.
  destruct (str_eqb (fst c) e) eqn:Ee.
  - apply str_eqb_eq in Ee. subst e.
    rewrite (@fresh_cons_notin cs (fst c) ex Hnotin).
    destruct (mem_str (fst c) ex); simpl; lia.
  - destruct (mem_str (fst c) ex); simpl; lia.
Qed.

Lemma fresh_lower (cands : list (str * str)) (ex : list str) :
  List.NoDup (List.map fst cands) -> length cands <= fresh cands ex + length ex.
Proof.
  intros Hnd. induction ex as [|e ex IH].
  - clear Hnd. induction cands as [|c cs IHc]; [simpl; lia|].
    rewrite fresh_cons. simpl in *. lia.
  - pose proof (@fresh_cons_le cands e ex Hnd). simpl. lia.
Qed.

Lemma faq_loop_length (cands : list (str * str)) :
  List.NoDup (List.map fst cands) ->
  forall faq ex, 3 <= fresh cands ex + length faq ->
  3 <= length (faq_loop 3 cands faq ex).
Proof.
  induction cands as [|[q a] cs IH]; intros Hnd faq ex Hlen.
  - unfold fresh in Hlen. simpl in *. lia.
  - cbn [List.map fst] in Hnd. apply List.NoDup_cons_iff in Hnd as [Hnotin Hnd].
    rewrite fresh_cons in Hlen. cbn [fst] in Hlen.
    cbn [faq_loop]. destruct (3 <=? length faq) eqn:E3.
    + now apply Nat.leb_le in E3.
    + apply Nat.leb_gt in E3.
      destruct (mem_str q ex) eqn:Em.
      * apply IH; [assumption|]. lia.
      * apply IH; [assumption|]. rewrite fresh_cons_notin by assumption.
        rewrite List.length_app. simpl. lia.
Qed.


(** The last three characters of a string, latest first. *)
Definition last3 (s : str) : str := firstn 3 (rev s).

Lemma last3_app (s t : str) : 3 <= length t -> last3 (s ++ t) = last3 t.
Proof.
  intros Ht. unfold last3. rewrite List.rev_app_distr, List.firstn_app.
  rewrite List.length_rev.
  replace (3 - length t) with 0 by lia. simpl. apply List.app_nil_r.
Qed.

Lemma faq_candidates_nodup (pk : str) : List.NoDup (List.map fst (faq_candidates pk)).
Proof.
  unfold faq_candidates. cbn [List.map fst].
  assert (Hfirst : forall y, last3 y <> last3 (u "는 민감 피부도 사용 가능한가요?") ->
                   pk ++ u "는 민감 피부도 사용 가능한가요?" <> y).
  { intros y Hy Heq. apply Hy. rewrite <- Heq. rewrite last3_app; [reflexivity|].
    vm_compute. lia. }
  repeat apply List.NoDup_cons.
  - cbn [In]. intros [Hq|[Hq|[Hq|[]]]]; symmetry in Hq; revert Hq; apply Hfirst;
      vm_compute; discriminate.
  - cbn [In]. intros [Hq|[Hq|[]]]; vm_compute in Hq; discriminate.
  - cbn [In]. intros [Hq|[]]; vm_compute in Hq; discriminate.
  - cbn [In]. tauto.
  - apply List.NoDup_nil.
Qed.

Lemma ensure_faq_length (pk : str) (faq0 : list FaqItem) :
  3 <= length (faq_loop 3 (faq_candidates pk) faq0
                 (List.map (fun item => strip (faq_q item)) faq0)).
Proof.
  apply faq_loop_length; [apply faq_candidates_nodup|].
  pose proof (@fresh_lower (faq_candidates pk)
                (List.map (fun item => strip (faq_q item)) faq0)
                (faq_candidates_nodup pk)) as Hf.
  rewrite List.length_map in Hf. simpl in Hf. lia.
Qed.

Section FaqComplete.
Context `{Unicode}.

Lemma faq_loop_complete (cands : list (str * str)) :
  Forall (fun c => faq_complete {| faq_q := fst c; faq_a := snd c |} = true) cands ->
  forall faq ex, Forall (fun x => faq_complete x = true) faq ->
  Forall (fun x => faq_complete x = true) (faq_loop 3 cands faq ex).
Proof.
  induction cands as [|[q a] cs IH]; intros Hc faq ex Hf; [assumption|].
  apply List.Forall_cons_iff in Hc as [Hqa Hc].
  cbn [faq_loop]. destruct (3 <=? length faq); [assumption|].
  destruct (mem_str q ex); [now apply IH|].
  apply IH; [assumption|]. apply List.Forall_app. split; [assumption|].
  constructor; [assumption|constructor].
Qed.

Lemma faq_candidates_complete (pk : str) :
  Forall (fun c => faq_complete {| faq_q := fst c; faq_a := snd c |} = true)
    (faq_candidates pk).
Proof.
  unfold faq_candidates. repeat constructor.
  all: unfold faq_complete; cbn [faq_q faq_a fst snd];
    rewrite ?strip_empty_iff, ?has_ink_app, ?negb_involutive;
    try (rewrite orb_true_r); reflexivity.
Qed.

Lemma filter_all {A : Type} (f : A -> bool) (l : list A) :
  Forall (fun x => f x = true) l -> List.filter f l = l.
Proof.
  induction 1 as [|x l Hx _ IH]; simpl; [reflexivity|]. now rewrite Hx, IH.
Qed.

End FaqComplete.

(** ** Example inputs (evaluated with the tables [basic_unicode]) *)

Unset Implicit Arguments.

Definition empty_page : Page :=
  {| meta_title := None; meta_description := None; canonical_url := None;
     og_title := None; og_description := None; h1 := None; body_html := None;
     cta := None; faq := None; has_faq_jsonld := None |}.

(** Three FAQ entries with a question and no answer. *)
Definition page_unanswered_faq : Page :=
  {| meta_title := None; meta_description := None; canonical_url := None;
     og_title := None; og_description := None; h1 := None; body_html := None;
     cta := None;
     faq := Some [ {| faq_q := u "Q1"; faq_a := [] |};
                   {| faq_q := u "Q2"; faq_a := [] |};
                   {| faq_q := u "Q3"; faq_a := [] |} ];
     has_faq_jsonld := None |}.

(** Three complete FAQ entries and [has_faq_jsonld] false. *)
Definition page_faq_without_jsonld : Page :=
  {| meta_title := None; meta_description := None; canonical_url := None;
     og_title := None; og_description := None; h1 := None; body_html := None;
     cta := None;
     faq := Some [ {| faq_q := u "Q1"; faq_a := u "A1" |};
                   {| faq_q := u "Q2"; faq_a := u "A2" |};
                   {| faq_q := u "Q3"; faq_a := u "A3" |} ];
     has_faq_jsonld := Some false |}.

Definition complete_count `{Unicode} (p : Page) : nat :=
  length (List.filter faq_complete (get_faq (faq p))).

(** ** The enforcement engine: idempotence and the FAQ flag *)

Section FixProperties.
Context `{Unicode}.


(** C2, as amended.  After [_rule_fix] the flag [has_faq_jsonld] is true and
    the FAQ list has at least three entries, so the flag equals
    [len(faq) >= 3] with every entry counted; when every entry of the
    input list is complete it also equals
    [(number of complete entries) >= 3]. *)
Theorem rule_fix_faq_jsonld_flag (page : Page) (primary_kw : str)
    (supporting : list str) (intent : str) (run_id : option Z)
    (base_url : option str) :
  let r := _rule_fix page primary_kw supporting intent run_id base_url in
  has_faq_jsonld r = Some true
  /\ 3 <= length (get_faq (faq r))
  /\ (Forall (fun x => faq_complete x = true) (get_faq (faq page)) ->
      get_bool (has_faq_jsonld r) = (3 <=? complete_count r)).
Proof.
  intros r. subst r. unfold complete_count.
  rewrite rule_fix_has_faq_jsonld, rule_fix_faq. cbn [get_faq get_bool].
  pose proof (ensure_faq_length primary_kw (get_faq (faq page))) as Hlen.
  split; [reflexivity|]. split; [assumption|].
  intros Hall. rewrite filter_all.
  - symmetry. now apply Nat.leb_le.
  - apply faq_loop_complete; [apply faq_candidates_complete|assumption].
Qed.

End FixProperties.



Lemma rule_fix_faq_jsonld_flag_witness :
  get_bool (has_faq_jsonld (_rule_fix empty_page (u "k") [] PURCHASE None None))
  = (3 <=? complete_count (_rule_fix empty_page (u "k") [] PURCHASE None None)).
Proof.
  exact (proj2 (proj2
           (rule_fix_faq_jsonld_flag empty_page (u "k") [] PURCHASE None None))
           (List.Forall_nil _)).
Defined.

(** Three unanswered entries: the flag is set although no entry is
    complete. *)
Lemma rule_fix_faq_jsonld_counterexample :
  get_bool
    (has_faq_jsonld (_rule_fix page_unanswered_faq (u "k") [] PURCHASE None None))
  <> (3 <=? complete_count
              (_rule_fix page_unanswered_faq (u "k") [] PURCHASE None None)).
Proof. vm_compute. discriminate. Qed.

(** C8, as amended.  [seo_audit_page] never emits S002: it takes a page whose
    FAQ list has three or more entries as having FAQ JSON-LD, whatever its
    [has_faq_jsonld] field says. *)
Theorem audit_S002_unreachable `{Unicode} (page : Page) (primary_keyword : str)
    (supporting_keywords : list str) (intent : str) :
  ~ In S002 (audit_rules page primary_keyword supporting_keywords intent).
Proof. apply audit_never_S002. Qed.

(** Three complete entries, the flag false, and no S002. *)
Lemma audit_S002_counterexample :
  3 <= complete_count page_faq_without_jsonld
  /\ get_bool (has_faq_jsonld page_faq_without_jsonld) = false
  /\ ~ In S002 (audit_rules page_faq_without_jsonld (u "k") [] PURCHASE).
Proof.
  split; [vm_compute; lia|]. split; [reflexivity|].
  vm_compute. intuition discriminate.
Qed.

(** ** What one call of the enforcement engine guarantees to the audit *)

Section FixThenAudit.
Context `{Unicode}.

Ltac only_rule r :=
  split;
  [ intros HIn;
    repeat match goal with
    | H : _ \/ _ |- _ => destruct H as [H|H]
    | H : _ /\ _ |- _ => destruct H
    | H : False |- _ => destruct H
    | H : r = _ |- _ => try discriminate H; clear H
    end;
    try assumption
  | ].

Lemma audit_T001_iff (page : Page) (pk : str) (sup : list str) (intent : str) :
  In T001 (audit_rules page pk sup intent)
  <-> is_empty (strip (get_str (meta_title page))) = true.
Proof.
  audit_rules_cases. only_rule T001.
  intros Hc. do 14 left. right. left. split; [assumption|reflexivity].
Qed.

Lemma audit_T003_iff (page : Page) (pk : str) (sup : list str) (intent : str) :
  In T003 (audit_rules page pk sup intent)
  <-> is_empty (strip (get_str (meta_description page))) = true.
Proof.
  audit_rules_cases. only_rule T003.
  intros Hc. do 13 left. right. left. split; [assumption|reflexivity].
Qed.

Lemma audit_T005_iff (page : Page) (pk : str) (sup : list str) (intent : str) :
  In T005 (audit_rules page pk sup intent)
  <-> is_empty (strip (get_str (canonical_url page))) = true.
Proof.
  audit_rules_cases. only_rule T005.
  intros Hc. do 12 left. right. split; [assumption|reflexivity].
Qed.

Lemma audit_T007_iff (page : Page) (pk : str) (sup : list str) (intent : str) :
  In T007 (audit_rules page pk sup intent)
  <-> (is_empty (strip (get_str (og_title page)))
       || is_empty (strip (get_str (og_description page))))%bool = true.
Proof.
  audit_rules_cases. only_rule T007.
  intros Hc. do 10 left. right. split; [assumption|reflexivity].
Qed.

Lemma clamp_has_ink (s : str) (lo hi : nat) (pad : str) :
  has_ink (firstn 2 pad) = true -> 2 <= lo -> 2 <= hi ->
  has_ink (clamp_text_len s lo hi pad) = true.
Proof.
  intros Hpad Hlo Hhi. unfold clamp_text_len.
  set (s1 := if is_empty (strip s) then pad else strip s).
  assert (H1 : has_ink (firstn 2 s1) = true).
  { subst s1. destruct (is_empty (strip s)) eqn:E; [assumption|].
    destruct (stripped_head (strip_idem s)) as [Hnil|[c [r [Hs Hc]]]].
    - rewrite Hnil in E. discriminate.
    - rewrite Hs. cbn [firstn has_ink existsb]. now rewrite Hc. }
  set (s2 := if length s1 <? lo
             then slice_to (lo + Nat.max 0 (lo - length s1)) (s1 ++ [SP] ++ pad)
             else s1).
  assert (H2 : has_ink (firstn 2 s2) = true).
  { subst s2. destruct (length s1 <? lo); [|assumption].
    unfold slice_to. apply has_ink_firstn_app; [assumption|lia]. }
  destruct (hi <? length s2).
  - rewrite has_ink_rstrip. unfold slice_to.
    now apply has_ink_firstn_firstn with 2.
  - now apply has_ink_firstn_weaken with 2.
Qed.

(** A pad phrase built on a stripped keyword has ink among its first two
    characters. *)
Lemma pad_ink (pk tail : str) :
  strip pk = pk -> has_ink (firstn 2 tail) = true ->
  has_ink (firstn 2 (pk ++ tail)) = true.
Proof.
  intros Hpk Ht. destruct (stripped_head Hpk) as [->|[c [r [-> Hc]]]].
  - assumption.
  - cbn [app firstn has_ink existsb]. now rewrite Hc.
Qed.

Lemma ensure_nonempty_ink (s fallback : str) :
  has_ink fallback = true -> has_ink (ensure_nonempty s fallback) = true.
Proof.
  intros Hf. unfold ensure_nonempty.
  destruct (is_empty (strip s)) eqn:E; [assumption|].
  rewrite strip_empty_iff in E. apply negb_false_iff in E.
  now rewrite has_ink_strip.
Qed.

Lemma rule_fix_meta_title_ink (page : Page) (pk : str) (sup : list str)
    (intent : str) (rid : option Z) (base : option str) :
  strip pk = pk ->
  has_ink (get_str (meta_title (_rule_fix page pk sup intent rid base))) = true.
Proof.
  intros Hpk. rewrite rule_fix_meta_title. cbn [get_str].
  apply clamp_has_ink; [|lia|lia]. now apply pad_ink.
Qed.

Lemma rule_fix_meta_description_ink (page : Page) (pk : str) (sup : list str)
    (intent : str) (rid : option Z) (base : option str) :
  strip pk = pk ->
  has_ink (get_str (meta_description (_rule_fix page pk sup intent rid base))) = true.
Proof.
  intros Hpk. rewrite rule_fix_meta_description. cbn [get_str].
  apply clamp_has_ink; [|lia|lia]. now apply pad_ink.
Qed.

(** C3, as amended.  When the primary keyword has no surrounding whitespace,
    the audit of the output of one [_rule_fix] call never reports T001, T003,
    T007 or S002, nor T005 when a run id and a base URL are supplied. *)
Theorem rule_fix_then_audit (page : Page) (primary_kw : str)
    (supporting : list str) (intent : str) (run_id : option Z)
    (base_url : option str) :
  strip primary_kw = primary_kw ->
  let fixed := _rule_fix page primary_kw supporting intent run_id base_url in
  let found := audit_rules fixed primary_kw supporting intent in
  ~ In T001 found /\ ~ In T003 found /\ ~ In T007 found /\ ~ In S002 found
  /\ (run_id <> None -> base_url <> None -> ~ In T005 found).
Proof.
  intros Hpk fixed found. subst found fixed.
  pose proof (rule_fix_meta_title_ink page primary_kw supporting intent run_id base_url Hpk)
    as Ht.
  pose proof (rule_fix_meta_description_ink page primary_kw supporting intent run_id
                base_url Hpk) as Hd.
  rewrite audit_T001_iff, audit_T003_iff, audit_T007_iff.
  split; [|split; [|split; [|split]]].
  - rewrite strip_empty_iff, Ht. discriminate.
  - rewrite strip_empty_iff, Hd. discriminate.
  - rewrite rule_fix_og_title, rule_fix_og_description. cbn [get_str].
    rewrite !strip_empty_iff, !ensure_nonempty_ink by assumption. discriminate.
  - apply audit_never_S002.
  - intros Hr Hb.
    destruct run_id as [rid|]; [|exfalso; apply Hr; reflexivity].
    destruct base_url as [base|]; [|exfalso; apply Hb; reflexivity].
    rewrite audit_T005_iff, rule_fix_canonical_url. cbn [get_str].
    rewrite strip_empty_iff.
    destruct (is_empty (strip (get_str (canonical_url page)))) eqn:E.
    + rewrite !has_ink_app.
      replace (has_ink (u "/r/")) with true by reflexivity.
      rewrite orb_true_l, orb_true_r. discriminate.
    + rewrite strip_empty_iff in E. rewrite has_ink_strip.
      apply negb_false_iff in E. rewrite E. discriminate.
Qed.

End FixThenAudit.

Lemma rule_fix_then_audit_witness :
  strip (u "k") = u "k"
  /\ ~ In T001
         (audit_rules
            (_rule_fix empty_page (u "k") [] PURCHASE (Some 7%Z) (Some (u "http://x/")))
            (u "k") [] PURCHASE).
Proof.
  split; [reflexivity|].
  exact (proj1 (@rule_fix_then_audit basic_unicode empty_page (u "k") [] PURCHASE
                  (Some 7%Z) (Some (u "http://x/")) eq_refl)).
Defined.

(** Inputs on which the other rules outside C001, C002 and C007 are still
    reported after one [_rule_fix] call. *)
Example empty_page_after_fix :
  audit_rules
    (_rule_fix empty_page (u "k") [] PURCHASE (Some 7%Z) (Some (u "http://x/")))
    (u "k") [] PURCHASE
  = [T002; T004; C005].
Proof. vm_compute. reflexivity. Qed.

(** The clamped title of the empty page has 27 characters, inside the
    engine's window [20, 60] and outside the audit's [30, 60]. *)
Lemma rule_fix_then_audit_counterexample :
  In T002
    (audit_rules
       (_rule_fix empty_page (u "k") [] PURCHASE (Some 7%Z) (Some (u "http://x/")))
       (u "k") [] PURCHASE).
Proof. rewrite empty_page_after_fix. left. reflexivity. Qed.

Example unanswered_faq_after_fix :
  audit_rules (_rule_fix page_unanswered_faq (u "k") [u "s1"] PURCHASE None None)
    (u "k") [u "s1"] PURCHASE
  = [T002; T004; T005; C003; C005; S001].
Proof. vm_compute. reflexivity. Qed.

(** A long informational page with two [<h1>], two [<h2>], a banned term
    and the word the engine takes for a disclaimer. *)
Definition page_long_body : Page :=
  {| meta_title := None; meta_description := None; canonical_url := None;
     og_title := None; og_description := None; h1 := None;
     body_html :=
       Some (u "<h1>a</h1><h1>b</h1><h2>x</h2><h2>y</h2> 전문가 치료 "
               ++ List.concat (List.repeat (u "w ") 400));
     cta := None; faq := None; has_faq_jsonld := None |}.

Example long_body_after_fix :
  audit_rules (_rule_fix page_long_body (u "k") [] (u "info") None None)
    (u "k") [] (u "info")
  = [T002; T004; T005; T006; C004; E002; E001].
Proof. vm_compute. reflexivity. Qed.

(** ** Body padding: the bounded loop *)

(** [body] followed by [k] copies of a newline and [pad]. *)
Fixpoint padded (k : nat) (pad body : str) : str :=
  match k with
  | O => body
  | S k' => padded k' pad (body ++ [NL] ++ pad)
  end.

Section BodyLength.
Context `{Unicode}.

(** [word_count(strip_tags(body))], the measure of [ensure_body_length]. *)
Definition body_words (body : str) : nat := word_count (strip_tags body).

Lemma body_length_loop_runs (pad : str) (fuel : nat) :
  forall loops body,
    loops <= 3 -> 3 - loops <= fuel ->
    exists k,
      loops + k <= 3
      /\ body_length_loop fuel 360 pad body (body_words body) loops
         = Some (padded k pad body, loops + k)
      /\ (forall j, j < k -> body_words (padded j pad body) < 360)
      /\ (loops + k < 3 -> 360 <= body_words (padded k pad body)).
Proof.
  induction fuel as [|fuel IH]; intros loops body Hl Hf.
  - assert (loops = 3) by lia. subst loops.
    exists 0. cbn [body_length_loop padded].
    replace (3 <? 3) with false by reflexivity. rewrite andb_false_r.
    rewrite Nat.add_0_r.
    split; [lia|]. split; [reflexivity|]. split; intros; lia.
  - cbn [body_length_loop].
    destruct ((body_words body <? 360) && (loops <? 3))%bool eqn:Ec.
    + apply andb_prop in Ec as [Ew El].
      apply Nat.ltb_lt in Ew. apply Nat.ltb_lt in El.
      destruct (IH (loops + 1) (body ++ [NL] ++ pad)) as [k [Hk [Hrun [Hlt Hge]]]];
        [lia|lia|].
      exists (S k). cbn [padded]. fold (body_words (body ++ [NL] ++ pad)).
      rewrite Hrun.
      split; [lia|]. split; [f_equal; f_equal; lia|]. split.
      * intros [|j] Hj; cbn [padded]; [assumption|]. apply Hlt. lia.
      * intros Hlk. apply Hge. lia.
    + exists 0. cbn [padded]. rewrite Nat.add_0_r.
      split; [lia|]. split; [reflexivity|]. split; [intros j Hj; lia|].
      intros Hl3. apply andb_false_iff in Ec as [Ec|Ec].
      * now apply Nat.ltb_ge in Ec.
      * apply Nat.ltb_ge in Ec. lia.
Qed.

(** C9.  [ensure_body_length] returns for every page: it leaves a body of
    at least 360 words alone; otherwise the loop appends the expansion
    block [k <= 3] times, going on only while the re-measured word count
    is below 360, and three iterations are always enough fuel.  The page
    it returns is the one with the padded body, so the engine never
    depends on an unfinished loop. *)
Theorem ensure_body_length_terminates (fixed : Page) (primary_kw : str) :
  let body := get_str (body_html fixed) in
  let pad := body_pad primary_kw in
  (360 <= body_words body -> ensure_body_length fixed primary_kw 360 = fixed)
  /\ exists k,
       k <= 3
       /\ (forall fuel, 3 <= fuel ->
           body_length_loop fuel 360 pad body (body_words body) 0
           = Some (padded k pad body, k))
       /\ (forall j, j < k -> body_words (padded j pad body) < 360)
       /\ (k < 3 -> 360 <= body_words (padded k pad body))
       /\ (body_words body < 360 ->
           ensure_body_length fixed primary_kw 360
           = set_body_html (padded k pad body) fixed).
Proof.
  intros body pad. split.
  - intros Hw. unfold ensure_body_length. fold body. fold (body_words body).
    apply Nat.leb_le in Hw. now rewrite Hw.
  - destruct (body_length_loop_runs pad 3 0 body) as [k [Hk [Hrun [Hlt Hge]]]];
      [lia|lia|].
    exists k. cbn [Nat.add] in *.
    split; [assumption|]. split; [|split; [assumption|split; [assumption|]]].
    + intros fuel Hfuel.
      destruct (body_length_loop_runs pad fuel 0 body)
        as [k' [Hk' [Hrun' [Hlt' Hge']]]]; [lia|lia|].
      cbn [Nat.add] in *. rewrite Hrun'.
      assert (k' = k); [|now subst].
      destruct (Nat.lt_trichotomy k' k) as [Hlt1|[Heq|Hgt1]]; [|assumption|].
      * specialize (Hlt k' Hlt1). specialize (Hge' ltac:(lia)). lia.
      * specialize (Hlt' k Hgt1). specialize (Hge ltac:(lia)). lia.
    + intros Hw. unfold ensure_body_length. fold body. fold (body_words body).
      apply Nat.leb_gt in Hw. rewrite Hw. fold pad. now rewrite Hrun.
Qed.

End BodyLength.

Lemma page_long_body_words :
  360 <= body_words (get_str (body_html page_long_body)).
Proof. apply Nat.leb_le. vm_compute. reflexivity. Defined.

Lemma ensure_body_length_terminates_witness :
  360 <= body_words (get_str (body_html page_long_body))
  /\ ensure_body_length page_long_body (u "k") 360 = page_long_body.
Proof.
  split; [exact page_long_body_words|].
  exact (proj1 (ensure_body_length_terminates page_long_body (u "k"))
           page_long_body_words).
Defined.

(** On the empty page three blocks are appended and the body is still
    short. *)
Example empty_page_padding :
  body_length_loop 3 360 (body_pad (u "k")) [] 0 0
  = Some (padded 3 (body_pad (u "k")) [], 3)
  /\ body_words (padded 3 (body_pad (u "k")) []) = 147.
Proof. vm_compute. split; reflexivity. Qed.

(** ** Keyword density *)

Lemma starts_with_app (p s : str) :
  starts_with p s = true -> exists r, s = p ++ r.
Proof.
  revert s. induction p as [|a p IH]; intros s Hs.
  - exists s. reflexivity.
  - destruct s as [|b s]; [discriminate|]. cbn [starts_with] in Hs.
    apply andb_prop in Hs as [Hab Hp]. apply N.eqb_eq in Hab. subst b.
    destruct (IH s Hp) as [r ->]. exists r. reflexivity.
Qed.
























Section Density.
Context `{Unicode}.















End Density.

(** A body of six words, each the keyword. *)
Definition page_dense_body : Page :=
  {| meta_title := None; meta_description := None; canonical_url := None;
     og_title := None; og_description := None; h1 := None;
     body_html := Some (u "k k k k k k"); cta := None; faq := None;
     has_faq_jsonld := None |}.




(** Such a body does trigger C007 before fixing. *)
Example dense_body_audit :
  audit_rules page_dense_body (u "k") [] PURCHASE
  = [T001; T003; T005; T006; T007; C001; C004; C005; C007; E001; S001].
Proof. vm_compute. reflexivity. Qed.

(** ** The A/B engine *)

Section ABProperties.
Local Open Scope R_scope.

Lemma erf_0 : AB.erf 0 = 0.
Proof. unfold AB.erf. ring. Qed.









Lemma p_value_zero : AB._p_value_two_sided 0 = 1.
Proof.
  unfold AB._p_value_two_sided, AB._phi_cdf.
  rewrite Rabs_R0. replace (0 / sqrt 2) with 0 by (unfold Rdiv; ring).
  rewrite erf_0. lra.
Qed.



(** An event outside the two variants or outside the two event names. *)
Definition out_of_domain (e : AB.Event) : Prop :=
  (AB.variant e <> u "A" /\ AB.variant e <> u "B")
  \/ (AB.event_name e <> u "view" /\ AB.event_name e <> u "cta_click").

Lemma count_events_app (v n : str) (l1 l2 : list AB.Event) :
  AB.count_events v n (l1 ++ l2) = (AB.count_events v n l1 + AB.count_events v n l2)%nat.
Proof. unfold AB.count_events. now rewrite List.filter_app, List.length_app. Qed.

Lemma count_events_foreign (v n : str) (events : list AB.Event) (e : AB.Event) :
  (AB.variant e <> v \/ AB.event_name e <> n) ->
  AB.count_events v n (events ++ [e]) = AB.count_events v n events.
Proof.
  intros He. rewrite count_events_app.
  unfold AB.count_events at 2. cbn [List.filter].
  destruct He as [He|He]; rewrite (str_eqb_neq He), ?andb_false_r; cbn [andb length]; lia.
Qed.

(** C10.  Appending an event whose variant is neither A nor B, or whose
    event name is neither [view] nor [cta_click], changes no field of the
    summary. *)
Theorem ab_summary_ignores_foreign_events (events : list AB.Event) (e : AB.Event)
    (min_views_required : Z) :
  out_of_domain e ->
  AB.ab_ctr_summary (events ++ [e]) min_views_required
  = AB.ab_ctr_summary events min_views_required.
Proof.
  intros He. unfold AB.ab_ctr_summary.
  rewrite !count_events_foreign; [reflexivity| | | |];
    destruct He as [[Ha Hb]|[Hv Hc]]; tauto.
Qed.

End ABProperties.

(** Three views and one click for A, two views and one click for B. *)
Definition events_3_1_2_1 : list AB.Event :=
  [ {| AB.variant := u "A"; AB.event_name := u "view" |};
    {| AB.variant := u "A"; AB.event_name := u "view" |};
    {| AB.variant := u "A"; AB.event_name := u "view" |};
    {| AB.variant := u "A"; AB.event_name := u "cta_click" |};
    {| AB.variant := u "B"; AB.event_name := u "view" |};
    {| AB.variant := u "B"; AB.event_name := u "view" |};
    {| AB.variant := u "B"; AB.event_name := u "cta_click" |} ].



Lemma ab_summary_ignores_foreign_events_witness :
  out_of_domain {| AB.variant := u "C"; AB.event_name := u "view" |}
  /\ AB.ab_ctr_summary
       ([ {| AB.variant := u "A"; AB.event_name := u "view" |} ]
          ++ [ {| AB.variant := u "C"; AB.event_name := u "view" |} ]) 20%Z
     = AB.ab_ctr_summary [ {| AB.variant := u "A"; AB.event_name := u "view" |} ] 20%Z.
Proof.
  assert (Hd : out_of_domain {| AB.variant := u "C"; AB.event_name := u "view" |}).
  { left. split; discriminate. }
  split; [exact Hd|].
  exact (ab_summary_ignores_foreign_events
           [ {| AB.variant := u "A"; AB.event_name := u "view" |} ]
           {| AB.variant := u "C"; AB.event_name := u "view" |} 20%Z Hd).
Defined.

(** ** The export gate *)

Section ExportGate.
Context `{Unicode}.
Variable render_export : Run -> str -> Z -> str.
Variable EXPORT_DIR : str.

(** The verdict that the gate names: the recorded one, or [UNKNOWN] when no
    audit is recorded. *)
Definition recorded_verdict (r : Run) : str :=
  match run_audit r with
  | Some a => verdict_text (overall a)
  | None => u "UNKNOWN"
  end.

Lemma current_overall_recorded (r : Run) : current_overall r = recorded_verdict r.
Proof.
  unfold current_overall, recorded_verdict.
  destruct (run_audit r) as [a|].
  - destruct (overall a); cbn [verdict_text];
      match goal with
      | |- upper (strip (or_str ?t ?d)) = _ =>
          replace (strip (or_str t d)) with t by reflexivity
      end;
      rewrite upper_ascii by reflexivity; reflexivity.
  - replace (strip (or_str [] (u "UNKNOWN"))) with (u "UNKNOWN") by reflexivity.
    rewrite upper_ascii by reflexivity. reflexivity.
Qed.

Lemma recorded_verdict_pass (r : Run) :
  str_eqb (recorded_verdict r) (u "PASS") = true
  <-> exists a, run_audit r = Some a /\ overall a = PASS.
Proof.
  unfold recorded_verdict. destruct (run_audit r) as [a|].
  - destruct (overall a) eqn:Eo; cbn [verdict_text]; split.
    + intros _. exists a. split; reflexivity || assumption.
    + intros _. reflexivity.
    + intros Hc. discriminate Hc.
    + intros [a' [Ha Ho]]. injection Ha as <-. rewrite Eo in Ho. discriminate Ho.
    + intros Hc. discriminate Hc.
    + intros [a' [Ha Ho]]. injection Ha as <-. rewrite Eo in Ho. discriminate Ho.
  - split.
    + intros Hc. discriminate Hc.
    + intros [a' [Ha _]]. discriminate Ha.
Qed.

(** C6.  For a run whose recorded verdict is not PASS (WARN, FAIL, or no
    audit at all) [api_export] answers with the error 400 that names the
    recorded verdict, writes no file and leaves the table of runs as it
    was (it only adds an entry to the job log); for a run whose recorded
    verdict is PASS it writes the rendered page, records the export, moves
    the run to EXPORTED and answers with the export. *)
Theorem export_gate (w : World) (run_id : Z) (run : Run) (base_url now : str)
    (elapsed : Z) :
  runs w !! run_id = Some run ->
  let res := api_export render_export EXPORT_DIR w run_id base_url now elapsed in
  let out := EXPORT_DIR ++ u "/run_" ++ str_of_int run_id ++ u ".html" in
  let export := {| export_path := out; export_ts := now |} in
  ((forall a, run_audit run = Some a -> overall a <> PASS) ->
     fst res
     = JsonError 400
         (u "Export blocked: requires PASS (current=" ++ recorded_verdict run
            ++ u "). Run Audit → Fix/Auto first.")
         (Some (run_audit run))
     /\ runs (snd res) = runs w
     /\ files (snd res) = files w
     /\ job_logs (snd res)
        = job_logs w
          ++ [{| log_run_id := run_id; job_name := u "EXPORT"; job_status := u "ERR";
                 elapsed_ms := 0;
                 job_detail :=
                   DetailBlocked (u "blocked (current=" ++ recorded_verdict run ++ u ")")
                     (run_audit run);
                 job_ts := now |}])
  /\ ((exists a, run_audit run = Some a /\ overall a = PASS) ->
      exists run',
        fst res = ExportOk run_id out export run'
        /\ run_stage run' = EXPORTED
        /\ run_export run' = Some export
        /\ run_audit run' = run_audit run
        /\ runs (snd res) = <[run_id := run']> (runs w)
        /\ files (snd res)
           = <[out := render_export run (rstrip_slash base_url) run_id]> (files w)).
Proof.
  intros Hrun res out export. subst res.
  unfold api_export. rewrite Hrun. cbv zeta.
  rewrite current_overall_recorded.
  destruct (str_eqb (recorded_verdict run) (u "PASS")) eqn:Ep; cbn [negb].
  - apply recorded_verdict_pass in Ep. split.
    + intros Hno. destruct Ep as [a [Ha Ho]]. destruct (Hno a Ha Ho).
    + intros _. unfold update_run_export, write_text. cbn [runs files job_logs].
      rewrite Hrun. cbn [fst snd _log_job runs files job_logs].
      eexists. split; [reflexivity|]. cbn [run_stage run_export run_audit].
      split; [reflexivity|]. split; [reflexivity|]. split; [reflexivity|].
      split; reflexivity.
  - split.
    + intros _. cbn [fst snd _log_job runs files job_logs].
      split; [reflexivity|]. split; [reflexivity|]. split; reflexivity.
    + intros Hpass. apply recorded_verdict_pass in Hpass. rewrite Hpass in Ep.
      discriminate Ep.
Qed.

End ExportGate.

(** A run in stage FIXED with no audit recorded. *)
Definition run_without_audit : Run :=
  {| run_stage := FIXED; run_updated_at := []; run_primary_keyword := u "k";
     run_supporting_keywords := []; run_intent := PURCHASE;
     run_content := empty_page; run_audit := None; run_export := None |}.

Definition world_one_run : World :=
  {| runs := {[ 1%Z := run_without_audit ]}; job_logs := []; files := ∅ |}.

Lemma export_gate_witness :
  runs world_one_run !! 1%Z = Some run_without_audit
  /\ fst (api_export (fun _ _ _ => []) (u "exports") world_one_run 1%Z (u "http://x/")
            (u "2026-01-01 00:00:00") 5%Z)
     = JsonError 400
         (u "Export blocked: requires PASS (current=" ++ recorded_verdict run_without_audit
            ++ u "). Run Audit → Fix/Auto first.")
         (Some (run_audit run_without_audit))
  /\ runs (snd (api_export (fun _ _ _ => []) (u "exports") world_one_run 1%Z
                  (u "http://x/") (u "2026-01-01 00:00:00") 5%Z))
     = runs world_one_run.
Proof.
  assert (Hrun : runs world_one_run !! 1%Z = Some run_without_audit) by reflexivity.
  split; [exact Hrun|].
  destruct (proj1 (export_gate (fun _ _ _ => []) (u "exports") world_one_run 1%Z
                     run_without_audit (u "http://x/") (u "2026-01-01 00:00:00") 5%Z Hrun))
    as (Hres & Hruns & _).
  - intros a Ha. discriminate Ha.
  - split; [exact Hres|exact Hruns].
Defined.

Example blocked_message :
  u "Export blocked: requires PASS (current=" ++ recorded_verdict run_without_audit
    ++ u "). Run Audit → Fix/Auto first."
  = u "Export blocked: requires PASS (current=UNKNOWN). Run Audit → Fix/Auto first.".
Proof. vm_compute. reflexivity. Qed.

(** * Further properties of the audit engine *)

(** The severity with which the source adds each rule. *)
Definition severity_of_rule (r : rule) : severity :=
  match r with
  | T001 | T003 | T006 | C001 | C004 | C007 | E002 => FAIL
  | T007 => INFO
  | _ => WARN
  end.

(** The position of a rule in the order in which [seo_audit_page] tests
    them. *)
Definition rule_position (r : rule) : nat :=
  match r with
  | T001 => 0 | T002 => 1 | T003 => 2 | T004 => 3 | T005 => 4 | T006 => 5
  | T007 => 6 | C001 => 7 | C002 => 8 | C003 => 9 | C004 => 10 | C005 => 11
  | C007 => 12 | E002 => 13 | E001 => 14 | S001 => 15 | S002 => 16
  end.

Definition severity_penalty (s : severity) : Z :=
  match s with FAIL => 25%Z | WARN => 10%Z | INFO => 2%Z end.

(** Every issue carries the severity of its rule. *)
Definition severities_ok (st : audit_state) : Prop :=
  Forall (fun i => issue_severity i = severity_of_rule (rule_id i)) (fst st).

(** No rule was reported twice, and only rules tested before position [k]
    were reported. *)
Definition reported_below (k : nat) (st : audit_state) : Prop :=
  List.NoDup (rules_of st) /\ Forall (fun r => rule_position r < k) (rules_of st).

Lemma severities_ok_add (r : rule) (s : severity) (p : Z) (st : audit_state) :
  s = severity_of_rule r -> severities_ok st -> severities_ok (add r s p st).
Proof.
  unfold severities_ok, add. cbn [fst]. intros -> Hst.
  apply List.Forall_app. split; [assumption|]. constructor; [reflexivity|constructor].
Qed.

Lemma severities_ok_when (c : bool) (f : audit_state -> audit_state) (st : audit_state) :
  (severities_ok st -> severities_ok (f st)) -> severities_ok st ->
  severities_ok (when c f st).
Proof. unfold when. destruct c; auto. Qed.

Lemma reported_below_weaken (k k' : nat) (st : audit_state) :
  k <= k' -> reported_below k st -> reported_below k' st.
Proof.
  intros Hk [Hnd Hall]. split; [assumption|].
  eapply List.Forall_impl; [|exact Hall]. cbn beta. intros r Hr. lia.
Qed.

Lemma reported_below_add (n : nat) (r : rule) (s : severity) (p : Z) (st : audit_state) :
  rule_position r < n -> reported_below (rule_position r) st ->
  reported_below n (add r s p st).
Proof.
  intros Hn [Hnd Hall]. unfold reported_below. rewrite (rules_of_add r s p st). split.
  - apply List.NoDup_app.
    + exact Hnd.
    + constructor; [intros []|constructor].
    + intros x Hx [<-|[]]. rewrite List.Forall_forall in Hall.
      specialize (Hall _ Hx). lia.
  - apply List.Forall_app. split.
    + eapply List.Forall_impl; [|exact Hall]. cbn beta. intros x Hx. lia.
    + constructor; [assumption|constructor].
Qed.

Lemma reported_below_when (n : nat) (r : rule) (s : severity) (p : Z) (c : bool)
    (st : audit_state) :
  rule_position r < n -> reported_below (rule_position r) st ->
  reported_below n (when c (add r s p) st).
Proof.
  intros Hn Hst. unfold when. destruct c.
  - now apply reported_below_add.
  - apply reported_below_weaken with (rule_position r); [lia|assumption].
Qed.

Lemma reported_below_if (n : nat) (r1 r2 : rule) (s1 s2 : severity) (p1 p2 : Z)
    (c1 c2 : bool) (st : audit_state) :
  rule_position r1 < rule_position r2 -> rule_position r2 < n ->
  reported_below (rule_position r1) st ->
  reported_below n (if c1 then add r1 s1 p1 st else when c2 (add r2 s2 p2) st).
Proof.
  intros H12 Hn Hst. destruct c1.
  - apply reported_below_add; [lia|assumption].
  - apply reported_below_when; [assumption|].
    apply reported_below_weaken with (rule_position r1); [lia|assumption].
Qed.

Lemma sum_penalties_split (l : list Issue) :
  Forall (fun i => issue_severity i = severity_of_rule (rule_id i)) l ->
  sum_penalties l
  = (25 * Z.of_nat (count_severity FAIL l) + 10 * Z.of_nat (count_severity WARN l)
     + 2 * Z.of_nat (count_severity INFO l))%Z.
Proof.
  unfold count_severity.
  induction 1 as [|i l Hi _ IH]; [reflexivity|].
  cbn [sum_penalties fold_right List.filter]. fold (sum_penalties l). rewrite IH, Hi.
  destruct (rule_id i); cbn [severity_of_rule severity_eqb penalty_of length]; lia.
Qed.

Lemma count_info_le_1 (l : list Issue) :
  Forall (fun i => issue_severity i = severity_of_rule (rule_id i)) l ->
  List.NoDup (List.map rule_id l) ->
  count_severity INFO l <= 1.
Proof.
  unfold count_severity. intros Hall Hnd.
  assert (Hin : forall i, In i l -> issue_severity i = INFO -> rule_id i = T007).
  { intros i Hi Hs. rewrite List.Forall_forall in Hall. rewrite (Hall i Hi) in Hs.
    destruct (rule_id i); cbn in Hs; try discriminate Hs; reflexivity. }
  clear Hall. induction l as [|i l IH]; [cbn; lia|].
  cbn [List.map] in Hnd. apply List.NoDup_cons_iff in Hnd as [Hni Hnd].
  cbn [List.filter]. destruct (severity_eqb (issue_severity i) INFO) eqn:Ei.
  - apply severity_eqb_eq in Ei.
    assert (Hi7 : rule_id i = T007) by (apply Hin; [now left|assumption]).
    assert (Hnone : List.filter (fun j => severity_eqb (issue_severity j) INFO) l = []).
    { clear IH. induction l as [|j l IHl]; [reflexivity|].
      cbn [List.filter]. destruct (severity_eqb (issue_severity j) INFO) eqn:Ej.
      - exfalso. apply severity_eqb_eq in Ej. apply Hni. left.
        rewrite Hi7. apply Hin; [right; now left|assumption].
      - apply IHl.
        + intros Hc. apply Hni. now right.
        + now apply List.NoDup_cons_iff in Hnd as [_ Hnd'].
        + intros k Hk. apply Hin. destruct Hk as [->|Hk]; [now left|right; now right]. }
    rewrite Hnone. cbn. lia.
  - apply IH; [assumption|]. intros j Hj. apply Hin. now right.
Qed.

Section AuditShape.
Context `{Unicode}.

Lemma audit_severities_ok (page : Page) (pk : str) (sup : list str) (intent : str) :
  Forall (fun i => issue_severity i = severity_of_rule (rule_id i))
    (issues (seo_audit_page page pk sup intent)).
Proof.
  cbv beta zeta delta [seo_audit_page]. cbn [issues].
  match goal with |- Forall _ (fst ?st) => change (severities_ok st) end.
  repeat first
    [ apply severities_ok_when;
      [intros ?; apply severities_ok_add; [reflexivity|assumption]|]
    | match goal with
      | |- severities_ok (if ?c then _ else _) => destruct c
      end
    | apply severities_ok_add; [reflexivity|] ].
  all: constructor.
Qed.

Lemma audit_reported_once (page : Page) (pk : str) (sup : list str) (intent : str) :
  List.NoDup (audit_rules page pk sup intent).
Proof.
  unfold audit_rules. cbv beta zeta delta [seo_audit_page]. cbn [issues].
  match goal with
  | |- List.NoDup (List.map rule_id (fst ?st)) =>
      cut (reported_below 17 st); [intros [Hnd _]; exact Hnd|]
  end.
  repeat first
    [ apply reported_below_when; [cbn [rule_position]; lia|]
    | apply reported_below_if; [cbn [rule_position]; lia|cbn [rule_position]; lia|] ].
  split; [constructor|constructor].
Qed.

(** The score is a number from 0 to 100. *)
Theorem audit_score_range (page : Page) (primary_keyword : str)
    (supporting_keywords : list str) (intent : str) :
  (0 <= score (seo_audit_page page primary_keyword supporting_keywords intent) <= 100)%Z.
Proof.
  rewrite (audit_penalty_ok page primary_keyword supporting_keywords intent).
  rewrite sum_penalties_split by apply audit_severities_ok. lia.
Qed.

(** No rule is reported twice in one audit. *)
Theorem audit_rules_distinct (page : Page) (primary_keyword : str)
    (supporting_keywords : list str) (intent : str) :
  List.NoDup (audit_rules page primary_keyword supporting_keywords intent).
Proof. apply audit_reported_once. Qed.

(** The verdict can be read off the score: PASS is a score of 88 or more,
    WARN leaves at most 80 and FAIL at most 75. *)
Theorem audit_verdict_from_score (page : Page) (primary_keyword : str)
    (supporting_keywords : list str) (intent : str) :
  let r := seo_audit_page page primary_keyword supporting_keywords intent in
  (overall r = PASS <-> (88 <= score r)%Z)
  /\ (overall r = OVERALL_WARN -> (score r <= 80)%Z)
  /\ (overall r = OVERALL_FAIL -> (score r <= 75)%Z).
Proof.
  intros r.
  pose proof (audit_severities_ok page primary_keyword supporting_keywords intent) as Hsev.
  pose proof (audit_reported_once page primary_keyword supporting_keywords intent) as Hnd.
  pose proof (audit_penalty_ok page primary_keyword supporting_keywords intent) as Hscore.
  cbv zeta in Hscore. fold r in Hsev, Hscore. unfold audit_rules in Hnd. fold r in Hnd.
  pose proof (sum_penalties_split (issues r) Hsev) as Hsum.
  pose proof (count_info_le_1 (issues r) Hsev Hnd) as Hinfo.
  assert (Ho : overall r = overall_of (issues r)) by reflexivity.
  assert (Hfail : overall r = OVERALL_FAIL -> 1 <= count_severity FAIL (issues r)).
  { rewrite Ho, overall_of_fail. intros [i [Hi Hs]].
    unfold count_severity.
    assert (Hin : In i (List.filter (fun j => severity_eqb (issue_severity j) FAIL) (issues r))).
    { apply List.filter_In. split; [assumption|]. now apply severity_eqb_eq. }
    destruct (List.filter _ (issues r)); [destruct Hin|cbn; lia]. }
  assert (Hnofail : overall r <> OVERALL_FAIL -> count_severity FAIL (issues r) = 0).
  { rewrite Ho, overall_of_fail. intros Hno. unfold count_severity.
    destruct (List.filter _ (issues r)) as [|i l] eqn:Ef; [reflexivity|].
    exfalso. apply Hno. exists i.
    assert (Hin : In i (List.filter (fun j => severity_eqb (issue_severity j) FAIL) (issues r)))
      by (rewrite Ef; now left).
    apply List.filter_In in Hin as [Hi Hs]. split; [assumption|].
    now apply severity_eqb_eq. }
  assert (Hpass : overall r = PASS -> count_severity WARN (issues r) < 2).
  { rewrite Ho, overall_of_pass. tauto. }
  assert (Hwarn : overall r = OVERALL_WARN -> 2 <= count_severity WARN (issues r)).
  { rewrite Ho, overall_of_warn. tauto. }
  split; [split|split].
  - intros Hp. specialize (Hpass Hp).
    rewrite Hnofail in Hsum by (rewrite Hp; discriminate). lia.
  - intros H88. destruct (overall r) eqn:Eo; [reflexivity| |].
    + specialize (Hwarn eq_refl). lia.
    + specialize (Hfail eq_refl). lia.
  - intros Hw. specialize (Hwarn Hw). lia.
  - intros Hf. specialize (Hfail Hf). lia.
Qed.

End AuditShape.

(** ** seo_audit.py: the FAQ structured data *)

(** The structured data has one question for each entry that the audit
    counts as complete, in the same order, and no question or answer in it
    is empty or carries surrounding whitespace. *)
Theorem build_faq_jsonld_complete_entries `{Unicode} (page : Page)
    (primary_keyword : str) (supporting_keywords : list str) (intent : str) :
  let ld := build_faq_jsonld (get_faq (faq page)) in
  length (mainEntity ld)
  = sig_faq_count (signals (seo_audit_page page primary_keyword supporting_keywords intent))
  /\ List.map question_name (mainEntity ld)
     = List.map (fun x => strip (faq_q x)) (List.filter faq_complete (get_faq (faq page)))
  /\ Forall (fun q => question_name q <> [] /\ answer_text q <> []
                      /\ strip (question_name q) = question_name q
                      /\ strip (answer_text q) = answer_text q)
       (mainEntity ld).
Proof.
  cbv zeta. cbv beta zeta delta [seo_audit_page].
  cbn [signals sig_faq_count mainEntity build_faq_jsonld].
  induction (get_faq (faq page)) as [|item l (IH1 & IH2 & IH3)].
  - split; [reflexivity|split; [reflexivity|constructor]].
  - cbn [faq_main List.filter].
    assert (Hc : faq_complete item
                 = negb (is_empty (strip (faq_q item)) || is_empty (strip (faq_a item)))).
    { unfold faq_complete. now rewrite negb_orb. }
    rewrite Hc.
    destruct (is_empty (strip (faq_q item)) || is_empty (strip (faq_a item)))%bool eqn:E;
      cbn [negb].
    + split; [exact IH1|split; [exact IH2|exact IH3]].
    + apply orb_false_elim in E as [Eq Ea].
      cbn [length List.map question_name]. split; [now rewrite IH1|].
      split; [now rewrite IH2|]. constructor; [|exact IH3].
      cbn [question_name answer_text]. rewrite !strip_idem.
      destruct (strip (faq_q item)); [discriminate Eq|].
      destruct (strip (faq_a item)); [discriminate Ea|].
      split; [discriminate|]. split; [discriminate|]. split; reflexivity.
Qed.

(** * Further properties of the enforcement engine *)

Lemma drop_while_length (f : N -> bool) (s : str) :
  length (drop_while f s) <= length s.
Proof.
  induction s as [|c s IH]; [cbn; lia|]. cbn [drop_while].
  destruct (f c); cbn [length]; lia.
Qed.

Lemma rstrip_length (s : str) : length (rstrip s) <= length s.
Proof.
  unfold rstrip, rstrip_by. rewrite List.length_rev.
  pose proof (drop_while_length isspace (rev s)) as Hd.
  rewrite List.length_rev in Hd. exact Hd.
Qed.

Lemma strip_length (s : str) : length (strip s) <= length s.
Proof.
  unfold strip, lstrip_by. fold (rstrip (drop_while isspace s)).
  pose proof (rstrip_length (drop_while isspace s)).
  pose proof (drop_while_length isspace s). lia.
Qed.

Section Clamp.
Context `{Unicode}.

(** Whatever the text, the bounds and the pad, [clamp_text_len] returns at
    most [hi] characters. *)
Lemma clamp_text_len_length (s : str) (lo hi : nat) (pad : str) :
  length (clamp_text_len s lo hi pad) <= hi.
Proof.
  unfold clamp_text_len.
  match goal with
  | |- length (if hi <? length ?s2 then _ else _) <= hi => set (t := s2)
  end.
  destruct (hi <? length t) eqn:E.
  - pose proof (rstrip_length (slice_to hi t)) as Hr.
    unfold slice_to in *. pose proof (List.firstn_le_length hi t). lia.
  - apply Nat.ltb_ge in E. exact E.
Qed.

(** A text without surrounding whitespace whose length is already in the
    window is returned as it is. *)
Theorem clamp_text_len_in_window (s : str) (lo hi : nat) (pad : str) :
  strip s = s -> s <> [] -> lo <= length s <= hi ->
  clamp_text_len s lo hi pad = s.
Proof.
  intros Hs Hne [Hlo Hhi]. unfold clamp_text_len. rewrite Hs.
  destruct s as [|c r]; [now destruct Hne|]. cbn [is_empty].
  apply Nat.ltb_ge in Hlo. rewrite Hlo.
  assert (Hh : (hi <? length (c :: r)) = false) by now apply Nat.ltb_ge.
  now rewrite Hh.
Qed.

(** When the text and the pad together do not reach [lo], the pad is
    appended once and the result stays shorter than [lo]. *)
Theorem clamp_text_len_short_pad (s : str) (lo hi : nat) (pad : str) :
  strip s <> [] -> length (strip s) + 1 + length pad < lo -> lo <= hi ->
  clamp_text_len s lo hi pad = strip s ++ [SP] ++ pad
  /\ length (clamp_text_len s lo hi pad) < lo.
Proof.
  intros Hne Hshort Hhi. unfold clamp_text_len.
  destruct (strip s) as [|c r] eqn:Es; [now destruct Hne|]. cbn [is_empty].
  assert (Hl : (length (c :: r) <? lo) = true) by (apply Nat.ltb_lt; lia).
  rewrite Hl. unfold slice_to.
  assert (Hlen : length ((c :: r) ++ [SP] ++ pad) = length (c :: r) + 1 + length pad).
  { rewrite !List.length_app. cbn [length]. lia. }
  rewrite List.firstn_all2 by lia.
  assert (Hh : (hi <? length ((c :: r) ++ [SP] ++ pad)) = false)
    by (apply Nat.ltb_ge; lia).
  rewrite Hh. split; [reflexivity|lia].
Qed.

End Clamp.

Lemma clamp_text_len_in_window_witness :
  strip (u "abc") = u "abc" /\ u "abc" <> [] /\ 2 <= length (u "abc") <= 5
  /\ clamp_text_len (u "abc") 2 5 (u "pad") = u "abc".
Proof.
  assert (H1 : strip (u "abc") = u "abc") by reflexivity.
  assert (H2 : u "abc" <> []) by discriminate.
  assert (H3 : 2 <= length (u "abc") <= 5) by (vm_compute; lia).
  split; [exact H1|]. split; [exact H2|]. split; [exact H3|].
  exact (clamp_text_len_in_window (u "abc") 2 5 (u "pad") H1 H2 H3).
Defined.

(** The title [a] with the keyword [k]: fifteen characters for a minimum of
    twenty. *)
Lemma clamp_text_len_short_pad_witness :
  strip (u "a") <> []
  /\ length (strip (u "a")) + 1 + length (u "k 가이드 | 선택 기준") < 20
  /\ clamp_text_len (u "a") 20 60 (u "k 가이드 | 선택 기준")
     = strip (u "a") ++ [SP] ++ u "k 가이드 | 선택 기준".
Proof.
  assert (H1 : strip (u "a") <> []) by discriminate.
  assert (H2 : length (strip (u "a")) + 1 + length (u "k 가이드 | 선택 기준") < 20)
    by (vm_compute; lia).
  split; [exact H1|]. split; [exact H2|].
  exact (proj1 (clamp_text_len_short_pad (u "a") 20 60 (u "k 가이드 | 선택 기준") H1 H2
                  ltac:(lia))).
Defined.

(** ** What [_rule_fix] keeps *)

Lemma faq_loop_extends (n : nat) (cands : list (str * str)) :
  forall faq ex,
  exists extra,
    faq_loop n cands faq ex = faq ++ extra
    /\ Forall (fun x => In (faq_q x, faq_a x) cands) extra
    /\ length (faq ++ extra) <= Nat.max n (length faq).
Proof.
  induction cands as [|[q a] cs IH]; intros faq ex.
  - exists []. cbn [faq_loop]. rewrite List.app_nil_r.
    split; [reflexivity|]. split; [constructor|lia].
  - cbn [faq_loop]. destruct (n <=? length faq) eqn:En.
    + exists []. rewrite List.app_nil_r. split; [reflexivity|]. split; [constructor|lia].
    + apply Nat.leb_gt in En. destruct (mem_str q ex).
      * destruct (IH faq ex) as [extra (He & Hc & Hl)]. exists extra.
        split; [exact He|]. split; [|exact Hl].
        eapply List.Forall_impl; [|exact Hc]. cbn beta. intros x Hx. now right.
      * destruct (IH (faq ++ [{| faq_q := q; faq_a := a |}]) (q :: ex))
          as [extra (He & Hc & Hl)].
        exists ({| faq_q := q; faq_a := a |} :: extra).
        rewrite He, <- List.app_assoc. cbn [app].
        split; [reflexivity|]. split.
        -- constructor; [now left|].
           eapply List.Forall_impl; [|exact Hc]. cbn beta. intros x Hx. now right.
        -- rewrite <- List.app_assoc in Hl. cbn [app] in Hl.
           rewrite List.length_app in Hl. rewrite !List.length_app in *.
           cbn [length] in *. lia.
Qed.

Section FixKeeps.
Context `{Unicode}.

(** [_rule_fix] never drops or reorders a FAQ entry: the result is the
    given list followed by canned entries, and it has exactly
    [max(3, n)] entries for a list of [n]. *)
Theorem rule_fix_extends_faq (page : Page) (primary_kw : str)
    (supporting : list str) (intent : str) (run_id : option Z)
    (base_url : option str) :
  let before := get_faq (faq page) in
  let after :=
    get_faq (faq (_rule_fix page primary_kw supporting intent run_id base_url)) in
  length after = Nat.max 3 (length before)
  /\ exists extra,
       after = before ++ extra
       /\ Forall (fun x => In (faq_q x, faq_a x) (faq_candidates primary_kw)) extra.
Proof.
  intros before after. subst after. rewrite rule_fix_faq. cbn [get_faq]. fold before.
  destruct (faq_loop_extends 3 (faq_candidates primary_kw) before
              (List.map (fun item => strip (faq_q item)) before))
    as [extra (He & Hc & Hl)].
  pose proof (ensure_faq_length primary_kw before) as Hge.
  rewrite He in *. split.
  - rewrite List.length_app in *. lia.
  - exists extra. split; [reflexivity|exact Hc].
Qed.

Lemma ensure_nonempty_kept (s fallback : str) :
  has_ink s = true -> ensure_nonempty (strip s) fallback = strip s.
Proof.
  intros Hs. unfold ensure_nonempty. rewrite strip_idem.
  rewrite strip_empty_iff, Hs. reflexivity.
Qed.

Lemma canonical_url_ensure_og (x : Page) :
  canonical_url (ensure_og x) = canonical_url x.
Proof. reflexivity. Qed.

Lemma canonical_url_update_body (g : str -> str) (x : Page) :
  canonical_url (update_body g x) = canonical_url x.
Proof. reflexivity. Qed.

Lemma canonical_url_ensure_body_length (x : Page) (k : str) (n : nat) :
  canonical_url (ensure_body_length x k n) = canonical_url x.
Proof.
  unfold ensure_body_length. destruct (n <=? _); [reflexivity|].
  destruct (body_length_loop _ _ _ _ _ _) as [[b l]|]; reflexivity.
Qed.

Lemma canonical_url_ensure_faq (x : Page) (k : str) (n : nat) :
  canonical_url (ensure_faq x k n) = canonical_url x.
Proof. reflexivity. Qed.

Lemma canonical_url_ensure_h2_sections (x : Page) (k i : str) :
  canonical_url (ensure_h2_sections x k i) = canonical_url x.
Proof.
  unfold ensure_h2_sections. destruct (_ <=? _); [reflexivity|].
  destruct (0 <? _); reflexivity.
Qed.

Lemma canonical_url_ensure_cta (x : Page) (i : str) :
  canonical_url (ensure_cta x i) = canonical_url x.
Proof. unfold ensure_cta. destruct (negb _); reflexivity. Qed.

Lemma canonical_url_ensure_h1 (x : Page) (k : str) :
  canonical_url (ensure_h1 x k) = canonical_url x.
Proof. reflexivity. Qed.

Lemma canonical_url_update_meta_description (g : str -> str) (x : Page) :
  canonical_url (update_meta_description g x) = canonical_url x.
Proof. reflexivity. Qed.

Lemma canonical_url_update_meta_title (g : str -> str) (x : Page) :
  canonical_url (update_meta_title g x) = canonical_url x.
Proof. reflexivity. Qed.

(** Without a run id or a base URL the canonical URL is only stripped. *)
Lemma rule_fix_canonical_not_supplied (page : Page) (pk : str) (sup : list str)
    (intent : str) (rid : option Z) (base : option str) :
  rid = None \/ base = None ->
  canonical_url (_rule_fix page pk sup intent rid base)
  = Some (strip (get_str (canonical_url page))).
Proof.
  intros Hnone. unfold _rule_fix.
  assert (Hm : forall f : Page,
             match rid, base with
             | Some r, Some b => ensure_canonical f r b
             | _, _ => f
             end = f).
  { intros f. destruct Hnone as [-> | ->]; [reflexivity|]. destruct rid; reflexivity. }
  cbv beta zeta. rewrite Hm.
  rewrite canonical_url_ensure_og, !canonical_url_update_body,
    canonical_url_ensure_body_length, canonical_url_ensure_faq,
    canonical_url_ensure_h2_sections, canonical_url_ensure_cta,
    canonical_url_ensure_h1, canonical_url_update_meta_description,
    canonical_url_update_meta_title.
  reflexivity.
Qed.

(** A field that is not blank is only stripped: [_rule_fix] keeps the
    call to action, the H1, the canonical URL and the OpenGraph texts that a
    page already has. *)
Theorem rule_fix_keeps_filled_fields (page : Page) (primary_kw : str)
    (supporting : list str) (intent : str) (run_id : option Z)
    (base_url : option str) :
  let fixed := _rule_fix page primary_kw supporting intent run_id base_url in
  (has_ink (get_str (cta page)) = true ->
   cta fixed = Some (strip (get_str (cta page))))
  /\ (has_ink (get_str (h1 page)) = true ->
      h1 fixed = Some (strip (get_str (h1 page))))
  /\ (has_ink (get_str (canonical_url page)) = true ->
      canonical_url fixed = Some (strip (get_str (canonical_url page))))
  /\ (has_ink (get_str (og_title page)) = true ->
      og_title fixed = Some (strip (get_str (og_title page))))
  /\ (has_ink (get_str (og_description page)) = true ->
      og_description fixed = Some (strip (get_str (og_description page)))).
Proof.
  intros fixed. subst fixed.
  split; [|split; [|split; [|split]]].
  - intros Hink. rewrite rule_fix_cta, strip_empty_iff, Hink. reflexivity.
  - intros Hink. rewrite rule_fix_h1, ensure_nonempty_kept by assumption. reflexivity.
  - intros Hink.
    destruct run_id as [r|]; [destruct base_url as [b|]|].
    + rewrite rule_fix_canonical_url, strip_empty_iff, Hink. reflexivity.
    + apply rule_fix_canonical_not_supplied. now right.
    + apply rule_fix_canonical_not_supplied. now left.
  - intros Hink. rewrite rule_fix_og_title, ensure_nonempty_kept by assumption.
    reflexivity.
  - intros Hink. rewrite rule_fix_og_description, ensure_nonempty_kept by assumption.
    reflexivity.
Qed.

(** After [_rule_fix] the title has at most 60 characters and the
    description at most 170. *)
Theorem rule_fix_length_caps (page : Page) (primary_kw : str)
    (supporting : list str) (intent : str) (run_id : option Z)
    (base_url : option str) :
  let fixed := _rule_fix page primary_kw supporting intent run_id base_url in
  length (get_str (meta_title fixed)) <= 60
  /\ length (get_str (meta_description fixed)) <= 170.
Proof.
  intros fixed. subst fixed.
  rewrite rule_fix_meta_title, rule_fix_meta_description. cbn [get_str].
  split; apply clamp_text_len_length.
Qed.

End FixKeeps.

Definition page_with_cta : Page :=
  {| meta_title := None; meta_description := None; canonical_url := None;
     og_title := None; og_description := None; h1 := None; body_html := None;
     cta := Some (u " buy "); faq := None; has_faq_jsonld := None |}.

Lemma rule_fix_keeps_filled_fields_witness :
  has_ink (get_str (cta page_with_cta)) = true
  /\ cta (_rule_fix page_with_cta (u "k") [] PURCHASE None None)
     = Some (strip (get_str (cta page_with_cta))).
Proof.
  assert (Hink : has_ink (get_str (cta page_with_cta)) = true) by reflexivity.
  split; [exact Hink|].
  exact (proj1 (rule_fix_keeps_filled_fields page_with_cta (u "k") [] PURCHASE None None)
           Hink).
Defined.

(** ** Properties of the hybrid helpers *)

Lemma safe_primary_stripped (primary_keyword meta_title : option str) :
  strip (safe_primary primary_keyword meta_title) = safe_primary primary_keyword meta_title.
Proof.
  unfold safe_primary.
  destruct (negb (is_empty (strip (get_str primary_keyword)))); [apply strip_idem|].
  destruct (negb (is_empty (strip (get_str meta_title)))); [apply strip_idem|reflexivity].
Qed.

Lemma parse_filter_clean (l : list str) :
  Forall (fun x => x <> [] /\ strip x = x)
    (List.map strip (List.filter (fun x => negb (is_empty (strip x))) l)).
Proof.
  induction l as [|x l IH]; [constructor|].
  cbn [List.filter]. destruct (is_empty (strip x)) eqn:E; cbn [negb]; [exact IH|].
  cbn [List.map]. constructor; [|exact IH].
  split; [|apply strip_idem]. destruct (strip x); [discriminate E|discriminate].
Qed.

Lemma split_go_comma_free (a s cur : str) :
  ~ In 44%N a ->
  split_go [44%N] 0 cur (a ++ s) = split_go [44%N] 0 (rev a ++ cur) s.
Proof.
  revert cur. induction a as [|c a IH]; intros cur Ha; [reflexivity|].
  cbn [app split_go starts_with].
  assert (Hc : (44 =? c)%N = false).
  { apply N.eqb_neq. intros Heq. apply Ha. left. now symmetry. }
  rewrite Hc. cbn [andb]. rewrite IH.
  - cbn [rev]. now rewrite <- List.app_assoc.
  - intros Hin. apply Ha. now right.
Qed.

Lemma split_comma_join (x : str) (rest : list str) (cur : str) :
  Forall (fun y => ~ In 44%N y) (x :: rest) ->
  split_go [44%N] 0 cur (join [44%N; 32%N] (x :: rest))
  = (rev cur ++ x) :: List.map (cons 32%N) rest.
Proof.
  revert x cur. induction rest as [|y rest IH]; intros x cur Hall.
  - cbn [join List.map]. rewrite <- (List.app_nil_r x) at 1.
    rewrite split_go_comma_free by (now apply List.Forall_inv in Hall).
    cbn [split_go]. now rewrite List.rev_app_distr, List.rev_involutive.
  - apply List.Forall_cons_iff in Hall as [Hx Hall].
    change (join [44%N; 32%N] (x :: y :: rest))
      with (x ++ [44%N; 32%N] ++ join [44%N; 32%N] (y :: rest)).
    rewrite split_go_comma_free by assumption.
    cbn [app split_go starts_with length Nat.sub]. rewrite N.eqb_refl. cbn [andb].
    rewrite List.rev_app_distr, List.rev_involutive. f_equal.
    change ((44 =? 32)%N && true) with false. cbn iota.
    rewrite IH by assumption. reflexivity.
Qed.

Lemma strip_space_cons (x : str) : strip (32%N :: x) = strip x.
Proof. reflexivity. Qed.

(** [parse_supporting] returns only non-empty keywords without surrounding
    whitespace, and it reads back a list of such keywords that was joined
    with [", "] (when no keyword contains a comma). *)
Theorem parse_supporting_clean_and_round_trip (arg : SupportingArg) (l : list str) :
  Forall (fun x => x <> [] /\ strip x = x) (parse_supporting arg)
  /\ (Forall (fun x => x <> [] /\ strip x = x /\ ~ In 44%N x) l ->
      parse_supporting (SupStr (join (u ", ") l)) = l
      /\ parse_supporting (SupList l) = l).
Proof.
  split.
  - destruct arg as [l0|s|]; cbn [parse_supporting];
      [apply parse_filter_clean|apply parse_filter_clean|constructor].
  - intros Hall.
    assert (Hkeep : forall l0 : list str,
               Forall (fun x => x <> [] /\ strip x = x /\ ~ In 44%N x) l0 ->
               List.map strip (List.filter (fun x => negb (is_empty (strip x))) l0) = l0).
    { induction 1 as [|x l0 (Hne & Hs & _) _ IH]; [reflexivity|].
      cbn [List.filter]. rewrite Hs. destruct x; [now destruct Hne|].
      cbn [is_empty negb List.map]. now rewrite Hs, IH. }
    split; [|exact (Hkeep l Hall)].
    cbn [parse_supporting]. destruct l as [|x rest]; [reflexivity|].
    unfold split. change (u ",") with [44%N]. change (u ", ") with [44%N; 32%N].
    rewrite split_comma_join.
    2:{ eapply List.Forall_impl; [|exact Hall]. cbn beta. tauto. }
    cbn [rev app].
    apply List.Forall_cons_iff in Hall as [(Hne & Hs & _) Hall].
    cbn [List.filter]. rewrite Hs. destruct x as [|c x]; [now destruct Hne|].
    cbn [is_empty negb List.map]. rewrite Hs. f_equal.
    induction Hall as [|y rest (Hney & Hsy & _) _ IH]; [reflexivity|].
    cbn [List.map List.filter]. rewrite strip_space_cons, Hsy.
    destruct y as [|d y]; [now destruct Hney|].
    cbn [is_empty negb List.map]. rewrite strip_space_cons, Hsy. now rewrite IH.
Qed.

Lemma parse_supporting_round_trip_witness :
  parse_supporting (SupStr (join (u ", ") [u "cream"; u "dry skin"]))
  = [u "cream"; u "dry skin"].
Proof.
  assert (Hall : Forall (fun x => x <> [] /\ strip x = x /\ ~ In 44%N x)
                   [u "cream"; u "dry skin"]).
  { repeat constructor; try discriminate; vm_compute; intuition discriminate. }
  exact (proj1 (proj2 (parse_supporting_clean_and_round_trip SupOther _) Hall)).
Defined.

Lemma faq_ok_entries (items : list (option JItem)) :
  Forall (fun x => faq_complete x = true
                   /\ strip (faq_q x) = faq_q x /\ strip (faq_a x) = faq_a x)
    (faq_ok items).
Proof.
  induction items as [|[item|] rest IH]; cbn [faq_ok]; [constructor| |exact IH].
  destruct (negb (is_empty (strip (py_str (item_q item))))
            && negb (is_empty (strip (py_str (item_a item))))) eqn:E; [|exact IH].
  constructor; [|exact IH].
  unfold faq_complete. cbn [faq_q faq_a]. rewrite !strip_idem. now rewrite E.
Qed.

Lemma filter_faq_ok (items : list (option JItem)) :
  List.filter faq_complete (faq_ok items) = faq_ok items.
Proof.
  pose proof (faq_ok_entries items) as Hall.
  induction Hall as [|x l (Hx & _) _ IH]; [reflexivity|].
  cbn [List.filter]. now rewrite Hx, IH.
Qed.

(** An item that [_merge_llm_into_page] takes over: a dict whose question
    and answer, as [str] renders them, have a non-whitespace character. *)
Definition usable_item (item : JItem) : bool :=
  has_ink (py_str (item_q item)) && has_ink (py_str (item_a item)).

(** The items of the list that are dicts, in order. *)
Definition item_dicts (items : list (option JItem)) : list JItem :=
  List.flat_map (fun i => match i with Some item => [item] | None => [] end) items.

(** The entry made of a usable item. *)
Definition entry_of (item : JItem) : FaqItem :=
  {| faq_q := strip (py_str (item_q item)); faq_a := strip (py_str (item_a item)) |}.

Lemma faq_ok_usable (items : list (option JItem)) :
  faq_ok items = List.map entry_of (List.filter usable_item (item_dicts items)).
Proof.
  induction items as [|[item|] rest IH]; [reflexivity| |exact IH].
  cbn [faq_ok item_dicts List.flat_map app List.filter].
  fold (item_dicts rest). unfold usable_item at 1.
  rewrite !strip_empty_iff, !negb_involutive.
  destruct (has_ink (py_str (item_q item)) && has_ink (py_str (item_a item)));
    cbn [List.map]; now rewrite IH.
Qed.

Lemma faq_ok_nonempty (items : list (option JItem)) (item : JItem) :
  In (Some item) items -> usable_item item = true -> faq_ok items <> [].
Proof.
  intros Hin Hu. rewrite faq_ok_usable.
  assert (Hd : In item (List.filter usable_item (item_dicts items))).
  { apply List.filter_In. split; [|exact Hu].
    apply List.in_flat_map. exists (Some item). split; [exact Hin|now left]. }
  destruct (List.filter usable_item (item_dicts items)); [destruct Hd|discriminate].
Qed.

Lemma faq_ok_none (items : list (option JItem)) :
  (forall item, In (Some item) items -> usable_item item = false) -> faq_ok items = [].
Proof.
  intros Hall. rewrite faq_ok_usable.
  replace (List.filter usable_item (item_dicts items)) with (@nil JItem); [reflexivity|].
  symmetry. induction items as [|[item|] rest IH]; [reflexivity| |].
  - cbn [item_dicts List.flat_map app List.filter]. fold (item_dicts rest).
    rewrite (Hall item) by now left. apply IH. intros i Hi. apply Hall. now right.
  - apply IH. intros i Hi. apply Hall. now right.
Qed.

(** When the response carries at least one usable FAQ item, the merged page
    has exactly the usable items of the response, in order, as entries (the
    page's own entries are dropped): a question or answer that is [null], a
    number or a boolean counts with the text that [str] gives it.  Each
    entry is complete and stripped, and the JSON-LD flag says whether at
    least three entries are complete, the number the audit counts. *)
Theorem merge_llm_replaces_faq (base : Page) (llm : Patch)
    (items : list (option JItem)) (item : JItem) :
  p_faq llm = FaqList items -> In (Some item) items -> usable_item item = true ->
  let out := _merge_llm_into_page base llm in
  get_faq (faq out) = List.map entry_of (List.filter usable_item (item_dicts items))
  /\ Forall (fun x => faq_complete x = true
                      /\ strip (faq_q x) = faq_q x /\ strip (faq_a x) = faq_a x)
       (get_faq (faq out))
  /\ has_faq_jsonld out = Some (3 <=? complete_count out).
Proof.
  intros Hfaq Hin Hu out.
  pose proof (faq_ok_nonempty items item Hin Hu) as Hne.
  assert (Hf : faq out = Some (faq_ok items)).
  { subst out. unfold _merge_llm_into_page. cbn [faq]. rewrite Hfaq.
    destruct (faq_ok items); [now destruct Hne|reflexivity]. }
  split; [rewrite Hf; apply faq_ok_usable|]. split.
  - rewrite Hf. apply faq_ok_entries.
  - unfold complete_count. rewrite Hf. cbn [get_faq]. rewrite filter_faq_ok.
    subst out. unfold _merge_llm_into_page. cbn [has_faq_jsonld]. rewrite Hfaq.
    destruct (faq_ok items); [now destruct Hne|reflexivity].
Qed.

(** A value that [_merge_llm_into_page] takes over: a string with a
    non-whitespace character. *)
Definition usable (j : JText) : bool :=
  match j with
  | JStr s => has_ink s
  | _ => false
  end.

Lemma merge_text_unusable (j : JText) (current : option str) :
  usable j = false -> merge_text j current = current.
Proof.
  destruct j as [| |s]; try reflexivity.
  cbn [usable merge_text]. intros Hs. now rewrite strip_empty_iff, Hs.
Qed.

(** A response with nothing usable in it leaves the page as it is, whatever
    other keys it has: every text value is absent, not a string or blank,
    and there is no FAQ list, or every item of it is not a dict or has a
    question or an answer that [str] renders blank (a [null] is not blank:
    it is rendered ["None"]). *)
Theorem merge_llm_unusable_response (base : Page) (llm : Patch) :
  usable (p_meta_title llm) = false ->
  usable (p_meta_description llm) = false ->
  usable (p_h1 llm) = false ->
  usable (p_body_html llm) = false ->
  usable (p_cta llm) = false ->
  (forall items item,
     p_faq llm = FaqList items -> In (Some item) items -> usable_item item = false) ->
  _merge_llm_into_page base llm = base.
Proof.
  intros H1 H2 H3 H4 H5 H6. unfold _merge_llm_into_page.
  rewrite !merge_text_unusable by assumption.
  assert (Hok : is_empty (match p_faq llm with
                          | FaqList items => faq_ok items
                          | _ => []
                          end) = true).
  { destruct (p_faq llm) as [| |items]; try reflexivity.
    rewrite faq_ok_none; [reflexivity|]. intros item Hin. now apply (H6 items). }
  rewrite Hok. cbn [negb]. now destruct base.
Qed.

(** A response with blank texts and a FAQ list whose items are not a dict,
    have a blank answer, or have no question. *)
Definition patch_nothing_usable : Patch :=
  {| p_meta_title := JStr (u "  "); p_meta_description := JOther;
     p_h1 := JMissing; p_body_html := JStr []; p_cta := JMissing;
     p_faq := FaqList [None;
                       Some {| item_q := JString (u "q"); item_a := JString (u " ") |};
                       Some {| item_q := JAbsent; item_a := JNull |}];
     p_other_keys := true |}.

Lemma merge_llm_unusable_response_witness :
  _merge_llm_into_page page_unanswered_faq patch_nothing_usable = page_unanswered_faq.
Proof.
  apply merge_llm_unusable_response; try reflexivity.
  intros items item Heq Hin. injection Heq as <-.
  destruct Hin as [Hin|[Hin|[Hin|[]]]]; [discriminate Hin| |];
    injection Hin as <-; reflexivity.
Defined.

Section HybridProperties.
Context `{Unicode}.
Variable _llm_fix : Page -> option AuditResult -> str -> list str -> str -> option Patch.

Lemma primary_kw_stripped (primary_keyword : str) (page : Page) :
  let kw := or_str (strip primary_keyword) (safe_primary None (meta_title page)) in
  strip kw = kw.
Proof.
  cbn zeta. unfold or_str.
  destruct (is_empty (strip primary_keyword)); [apply safe_primary_stripped|apply strip_idem].
Qed.

Lemma ai_fix_to_pass_is_rule_fix (env_use_llm : option str) (page : Page)
    (audit : option AuditResult) (primary_keyword : str)
    (supporting_keywords : SupportingArg) (intent : str) (run_id : option Z)
    (base_url : option str) :
  exists p,
    ai_fix_to_pass _llm_fix env_use_llm page audit primary_keyword
      supporting_keywords intent run_id base_url
    = _rule_fix p
        (or_str (strip primary_keyword) (safe_primary None (meta_title page)))
        (parse_supporting supporting_keywords) intent run_id base_url.
Proof.
  unfold ai_fix_to_pass. cbn zeta.
  destruct (negb (use_llm_of env_use_llm)); [now exists page|].
  destruct (_likely_pass_quickcheck _ _ _ _); [now exists page|].
  destruct (_llm_fix _ _ _ _ _) as [llm_out|]; [|now exists page].
  destruct (patch_is_empty llm_out); [now exists page|].
  eexists. reflexivity.
Qed.

Lemma rule_fix_canonical_ink (page : Page) (pk : str) (sup : list str)
    (intent : str) (rid : Z) (base : str) :
  has_ink (get_str (canonical_url (_rule_fix page pk sup intent (Some rid) (Some base))))
  = true.
Proof.
  rewrite rule_fix_canonical_url. cbn [get_str].
  destruct (is_empty (strip (get_str (canonical_url page)))) eqn:E.
  - rewrite !has_ink_app.
    replace (has_ink (u "/r/")) with true by reflexivity.
    now rewrite orb_true_l, orb_true_r.
  - rewrite strip_empty_iff in E. rewrite has_ink_strip.
    now apply negb_false_iff in E.
Qed.

Lemma ai_fix_title_ink (env_use_llm : option str) (page : Page)
    (audit : option AuditResult) (primary_keyword : str)
    (supporting_keywords : SupportingArg) (intent : str) (run_id : option Z)
    (base_url : option str) :
  has_ink (get_str (meta_title
             (ai_fix_to_pass _llm_fix env_use_llm page audit primary_keyword
                supporting_keywords intent run_id base_url))) = true.
Proof.
  destruct (ai_fix_to_pass_is_rule_fix env_use_llm page audit primary_keyword
              supporting_keywords intent run_id base_url) as [p ->].
  apply rule_fix_meta_title_ink. apply (primary_kw_stripped primary_keyword page).
Qed.

Lemma ai_fix_canonical_ink (env_use_llm : option str) (page : Page)
    (audit : option AuditResult) (primary_keyword : str)
    (supporting_keywords : SupportingArg) (intent : str) (run_id : Z)
    (base_url : str) :
  has_ink (get_str (canonical_url
             (ai_fix_to_pass _llm_fix env_use_llm page audit primary_keyword
                supporting_keywords intent (Some run_id) (Some base_url)))) = true.
Proof.
  destruct (ai_fix_to_pass_is_rule_fix env_use_llm page audit primary_keyword
              supporting_keywords intent (Some run_id) (Some base_url)) as [p ->].
  apply rule_fix_canonical_ink.
Qed.

(** Whatever the rewrite service returns (nothing, an empty or a malformed
    response, or arbitrary text and FAQ values) and whatever the switch
    SEO_FIX_USE_LLM holds, the page that [ai_fix_to_pass] returns has gone
    through [_rule_fix] last: its title has 60 characters at most and its
    description 170, it has at least three FAQ entries and the JSON-LD flag
    set, and no audit of it reports an empty title (T001), an empty
    description (T003) or missing OpenGraph text (T007), nor a missing
    canonical URL (T005) when a run id and a base URL were given. *)
Theorem ai_fix_to_pass_safety_net (env_use_llm : option str) (page : Page)
    (audit : option AuditResult) (primary_keyword : str)
    (supporting_keywords : SupportingArg) (intent : str) (run_id : option Z)
    (base_url : option str) :
  let out := ai_fix_to_pass _llm_fix env_use_llm page audit primary_keyword
               supporting_keywords intent run_id base_url in
  length (get_str (meta_title out)) <= 60
  /\ length (get_str (meta_description out)) <= 170
  /\ 3 <= length (get_faq (faq out))
  /\ has_faq_jsonld out = Some true
  /\ forall (pk : str) (sup : list str) (i : str),
       ~ In T001 (audit_rules out pk sup i)
       /\ ~ In T003 (audit_rules out pk sup i)
       /\ ~ In T007 (audit_rules out pk sup i)
       /\ (run_id <> None -> base_url <> None -> ~ In T005 (audit_rules out pk sup i)).
Proof.
  intros out.
  destruct (ai_fix_to_pass_is_rule_fix env_use_llm page audit primary_keyword
              supporting_keywords intent run_id base_url) as [p Hp].
  fold out in Hp.
  pose proof (primary_kw_stripped primary_keyword page) as Hkw. cbn zeta in Hkw.
  set (kw := or_str (strip primary_keyword) (safe_primary None (meta_title page))) in *.
  set (sup0 := parse_supporting supporting_keywords) in *.
  clearbody out kw sup0. subst out.
  pose proof (rule_fix_meta_title_ink p kw sup0 intent run_id base_url Hkw) as Ht.
  pose proof (rule_fix_meta_description_ink p kw sup0 intent run_id base_url Hkw) as Hd.
  split; [|split; [|split; [|split]]].
  - rewrite rule_fix_meta_title. cbn [get_str]. apply clamp_text_len_length.
  - rewrite rule_fix_meta_description. cbn [get_str]. apply clamp_text_len_length.
  - rewrite rule_fix_faq. cbn [get_faq]. apply ensure_faq_length.
  - apply rule_fix_has_faq_jsonld.
  - intros pk sup i.
    rewrite audit_T001_iff, audit_T003_iff, audit_T007_iff.
    split; [|split; [|split]].
    + rewrite strip_empty_iff, Ht. discriminate.
    + rewrite strip_empty_iff, Hd. discriminate.
    + rewrite rule_fix_og_title, rule_fix_og_description. cbn [get_str].
      rewrite !strip_empty_iff, !ensure_nonempty_ink by assumption. discriminate.
    + intros Hr Hb.
      destruct run_id as [rid|]; [|exfalso; apply Hr; reflexivity].
      destruct base_url as [base|]; [|exfalso; apply Hb; reflexivity].
      rewrite audit_T005_iff, strip_empty_iff, rule_fix_canonical_ink. discriminate.
Qed.

(** A page that passes [_likely_pass_quickcheck] has a non-blank title,
    description and canonical URL, so no audit of it reports T001, T003 or
    T005; its title has 20 to 60 characters and its description 60 to 170. *)
Theorem quickcheck_implies_audit_basics (page : Page) (primary_kw : str)
    (supporting : list str) (intent : str) :
  _likely_pass_quickcheck page primary_kw supporting intent = true ->
  (20 <= length (strip (get_str (meta_title page))) <= 60
   /\ 60 <= length (strip (get_str (meta_description page))) <= 170
   /\ 3 <= length (get_faq (faq page)))
  /\ forall (pk : str) (sup : list str) (i : str),
       ~ In T001 (audit_rules page pk sup i)
       /\ ~ In T003 (audit_rules page pk sup i)
       /\ ~ In T005 (audit_rules page pk sup i).
Proof.
  unfold _likely_pass_quickcheck. cbn zeta.
  destruct ((20 <=? length (strip (get_str (meta_title page))))
            && (length (strip (get_str (meta_title page))) <=? 60)) eqn:Et;
    cbn [negb]; [|discriminate].
  destruct ((60 <=? length (strip (get_str (meta_description page))))
            && (length (strip (get_str (meta_description page))) <=? 170)) eqn:Ed;
    cbn [negb]; [|discriminate].
  destruct (is_empty (strip (get_str (h1 page)))); [discriminate|].
  destruct (is_empty (strip (get_str (canonical_url page)))) eqn:Ec; [discriminate|].
  destruct (count_h2 _ <? _); [discriminate|].
  destruct (word_count _ <? 360); [discriminate|].
  destruct (length (get_faq (faq page)) <? 3) eqn:Ef; [discriminate|].
  intros _.
  apply andb_true_iff in Et as [Et1 Et2]. apply andb_true_iff in Ed as [Ed1 Ed2].
  apply Nat.leb_le in Et1, Et2, Ed1, Ed2. apply Nat.ltb_ge in Ef.
  split; [lia|]. intros pk sup i.
  rewrite audit_T001_iff, audit_T003_iff, audit_T005_iff, Ec.
  destruct (strip (get_str (meta_title page))); [cbn [length] in Et1; lia|].
  destruct (strip (get_str (meta_description page))); [cbn [length] in Ed1; lia|].
  cbn [is_empty]. repeat split; discriminate.
Qed.

End HybridProperties.

(** ** Properties of the enforce layer *)

Lemma is_end_mark_ink (c : N) : is_end_mark c = true -> isspace c = false.
Proof.
  unfold is_end_mark. rewrite !orb_true_iff, !N.eqb_eq.
  intros [[->| ->]| ->]; reflexivity.
Qed.

Lemma ends_sentence_snoc (s : str) (c : N) : ends_sentence (s ++ [c]) = is_end_mark c.
Proof. unfold ends_sentence. now rewrite List.rev_app_distr. Qed.

Lemma ends_sentence_ink (s : str) : ends_sentence s = true -> has_ink s = true.
Proof.
  unfold ends_sentence. rewrite <- (has_ink_rev s).
  destruct (rev s) as [|c r]; [discriminate|].
  intros Hc. cbn [has_ink existsb]. now rewrite (is_end_mark_ink _ Hc).
Qed.

Lemma rstrip_snoc_ink (s : str) (c : N) :
  isspace c = false -> rstrip (s ++ [c]) = s ++ [c].
Proof.
  intros Hc. unfold rstrip, rstrip_by. rewrite List.rev_app_distr.
  cbn [rev app drop_while]. rewrite Hc. cbn [rev].
  now rewrite List.rev_involutive.
Qed.

Lemma strip_snoc_ink (s : str) (c : N) :
  isspace c = false -> strip (s ++ [c]) = drop_while isspace s ++ [c].
Proof.
  intros Hc. unfold strip, lstrip_by. rewrite drop_while_snoc by assumption.
  fold (rstrip (drop_while isspace s ++ [c])). now apply rstrip_snoc_ink.
Qed.

Lemma stripped_ink (s : str) : strip s = s -> s <> [] -> has_ink s = true.
Proof.
  intros Hs Hne. destruct (stripped_head Hs) as [->|(c & r & -> & Hc)];
    [now destruct Hne|].
  cbn [has_ink existsb]. now rewrite Hc.
Qed.

Lemma stripped_rstrip (s : str) : strip s = s -> rstrip s = s.
Proof.
  intros Hs. rewrite <- Hs. unfold strip. fold (rstrip (lstrip_by isspace s)).
  apply rstrip_idem.
Qed.

Lemma strip_head_ink (c : N) (r : str) :
  isspace c = false -> strip (c :: r) = c :: rstrip r.
Proof.
  intros Hc. unfold strip, lstrip_by. cbn [drop_while]. rewrite Hc.
  fold (rstrip (c :: r)). now apply rstrip_cons_ink.
Qed.

(** A prefix of a stripped string, right-stripped, is stripped. *)
Lemma strip_rstrip_firstn (n : nat) (s : str) :
  strip s = s -> strip (rstrip (firstn n s)) = rstrip (firstn n s).
Proof.
  intros Hs. destruct (stripped_head Hs) as [->|(c & r & -> & Hc)].
  - now destruct n.
  - destruct n as [|n]; [reflexivity|]. cbn [firstn].
    rewrite rstrip_cons_ink by assumption.
    rewrite strip_head_ink by assumption. now rewrite rstrip_idem.
Qed.

Lemma has_ink_rstrip_firstn (n : nat) (s : str) :
  strip s = s -> s <> [] -> 1 <= n -> has_ink (rstrip (firstn n s)) = true.
Proof.
  intros Hs Hne Hn. destruct (stripped_head Hs) as [->|(c & r & -> & Hc)];
    [now destruct Hne|].
  destruct n as [|n]; [lia|]. cbn [firstn].
  rewrite has_ink_rstrip. cbn [has_ink existsb]. now rewrite Hc.
Qed.

Lemma removelast_length {A : Type} (l : list A) :
  l <> [] -> length (removelast l) + 1 = length l.
Proof.
  intros Hne. destruct (List.exists_last Hne) as (x & a & ->).
  rewrite List.removelast_last, List.length_app. reflexivity.
Qed.

Lemma firstn_le_length {A : Type} (n : nat) (l : list A) : length (firstn n l) <= n.
Proof. rewrite List.length_firstn. lia. Qed.

Section EnforceProperties.
Context `{Unicode}.

Lemma fit_len_stripped (text : str) (min_len max_len : nat) (pad : str) (e : bool) :
  strip (_fit_len text min_len max_len pad e) = _fit_len text min_len max_len pad e.
Proof.
  unfold _fit_len. cbn zeta.
  set (t := if (length (strip text) <? min_len) && negb (is_empty pad)
            then (if negb (is_empty (strip text))
                  then strip (strip text ++ [SP] ++ pad) else strip pad)
            else strip text).
  assert (Ht : strip t = t).
  { subst t. destruct (_ && _); [destruct (negb _)|]; apply strip_idem. }
  clearbody t. destruct (max_len <? length t); [|exact Ht].
  destruct (e && _ && _); [apply strip_idem|now apply strip_rstrip_firstn].
Qed.

Lemma fit_len_length (text : str) (min_len max_len : nat) (pad : str) (e : bool) :
  length (_fit_len text min_len max_len pad e) <= max_len.
Proof.
  unfold _fit_len. cbn zeta.
  set (t := if (length (strip text) <? min_len) && negb (is_empty pad)
            then (if negb (is_empty (strip text))
                  then strip (strip text ++ [SP] ++ pad) else strip pad)
            else strip text).
  clearbody t. destruct (max_len <? length t) eqn:E; [|apply Nat.ltb_ge in E; lia].
  unfold slice_to.
  pose proof (rstrip_length (firstn max_len t)) as H1.
  pose proof (firstn_le_length max_len t) as H2.
  destruct (e && (1 <=? length (rstrip (firstn max_len t)))
            && negb (ends_sentence (rstrip (firstn max_len t)))) eqn:E2; [|lia].
  apply andb_true_iff in E2 as [E2 _]. apply andb_true_iff in E2 as [_ E2].
  apply Nat.leb_le in E2.
  pose proof (strip_length (removelast (rstrip (firstn max_len t)) ++ u "…")) as H3.
  rewrite List.length_app in H3.
  assert (Hne : rstrip (firstn max_len t) <> []).
  { intros Heq. rewrite Heq in E2. cbn [length] in E2. lia. }
  pose proof (removelast_length _ Hne) as H4.
  change (length (u "…")) with 1 in H3. lia.
Qed.

Lemma fit_len_ink (text : str) (min_len max_len : nat) (pad : str) :
  has_ink text = true \/ (0 < min_len /\ has_ink pad = true) ->
  1 <= max_len ->
  has_ink (_fit_len text min_len max_len pad false) = true.
Proof.
  intros Hsrc Hmax. unfold _fit_len. cbn zeta.
  set (t := if (length (strip text) <? min_len) && negb (is_empty pad)
            then (if negb (is_empty (strip text))
                  then strip (strip text ++ [SP] ++ pad) else strip pad)
            else strip text).
  assert (Ht : strip t = t).
  { subst t. destruct (_ && _); [destruct (negb _)|]; apply strip_idem. }
  assert (Hi : has_ink t = true).
  { subst t. destruct (has_ink text) eqn:Et.
    - destruct (_ && _).
      + rewrite strip_empty_iff, Et. cbn [negb].
        now rewrite has_ink_strip, has_ink_app, has_ink_strip, Et.
      + now rewrite has_ink_strip.
    - destruct Hsrc as [Hsrc|[Hmin Hpad]]; [discriminate|].
      assert (Hs : strip text = []).
      { pose proof (strip_empty_iff text) as Hs. rewrite Et in Hs.
        destruct (strip text); [reflexivity|discriminate]. }
      rewrite Hs. cbn [length is_empty negb].
      assert (Hp : is_empty pad = false) by now apply has_ink_nonempty.
      rewrite Hp. cbn [negb].
      replace (0 <? min_len) with true by (symmetry; now apply Nat.ltb_lt).
      cbn [andb]. now rewrite has_ink_strip. }
  clearbody t. cbn [andb]. destruct (max_len <? length t); [|exact Hi].
  apply has_ink_rstrip_firstn; [assumption| |assumption].
  intros ->. discriminate.
Qed.

(** [_fit_len] never returns more than [max_len] characters nor surrounding
    whitespace, with or without the ellipsis; a text that is already
    stripped and within the bounds is returned as it is. *)
Theorem fit_len_bounds (text : str) (min_len max_len : nat) (pad : str)
    (cut_ellipsis : bool) :
  let r := _fit_len text min_len max_len pad cut_ellipsis in
  length r <= max_len
  /\ strip r = r
  /\ (min_len <= length (strip text) <= max_len -> r = strip text).
Proof.
  cbn zeta. split; [apply fit_len_length|]. split; [apply fit_len_stripped|].
  intros [Hlo Hhi]. unfold _fit_len. cbn zeta.
  replace (length (strip text) <? min_len) with false
    by (symmetry; now apply Nat.ltb_ge).
  cbn [andb].
  replace (max_len <? length (strip text)) with false
    by (symmetry; now apply Nat.ltb_ge).
  reflexivity.
Qed.

Lemma ensure_sentence_end_cases (text : str) (max_len : nat) :
  1 <= max_len -> has_ink text = true ->
  ends_sentence (_ensure_sentence_end text max_len) = true
  /\ (length (strip text) <= max_len ->
      length (_ensure_sentence_end text max_len) <= max_len).
Proof.
  intros Hmax Hink. unfold _ensure_sentence_end. cbn zeta.
  assert (Hs : strip (strip text) = strip text) by apply strip_idem.
  assert (Hi : has_ink (strip text) = true) by now rewrite has_ink_strip.
  set (t := strip text) in *. clearbody t.
  assert (Hne : t <> []) by (intros ->; discriminate).
  assert (Hd : drop_while isspace t = t) by (rewrite <- Hs; apply lstrip_strip).
  replace (is_empty t) with false by (destruct t; [now destruct Hne|reflexivity]).
  destruct (ends_sentence t) eqn:Ee; [split; [assumption|tauto]|].
  assert (Hdot : isspace 46%N = false) by reflexivity.
  destruct (length t + 1 <=? max_len) eqn:El.
  - apply Nat.leb_le in El. change (u ".") with [46%N].
    rewrite strip_snoc_ink by assumption.
    rewrite Hd, ends_sentence_snoc, List.length_app. split; [reflexivity|].
    cbn [length]. lia.
  - replace (1 <=? max_len) with true by (symmetry; now apply Nat.leb_le).
    unfold slice_to.
    pose proof (has_ink_rstrip_firstn max_len t Hs Hne Hmax) as Hcut.
    pose proof (rstrip_length (firstn max_len t)) as H1.
    pose proof (firstn_le_length max_len t) as H2.
    set (t' := rstrip (firstn max_len t)) in *. clearbody t'.
    assert (Hne' : t' <> []) by (intros ->; discriminate).
    replace (is_empty t') with false by (destruct t'; [now destruct Hne'|reflexivity]).
    cbn [negb andb]. destruct (ends_sentence t') eqn:Ee'; cbn [negb].
    + split; [assumption|lia].
    + change (u ".") with [46%N]. rewrite strip_snoc_ink by assumption.
      rewrite ends_sentence_snoc, List.length_app. split; [reflexivity|].
      pose proof (drop_while_length isspace (removelast t')) as H3.
      pose proof (removelast_length _ Hne') as H4. cbn [length]. lia.
Qed.

(** For a limit of at least one character, [_ensure_sentence_end] turns a
    text that is not blank into one that ends with a full stop, an
    exclamation mark or a question mark, and it stays within the limit when
    the stripped text did; a blank text gives the empty string. *)
Theorem ensure_sentence_end_result (text : str) (max_len : nat) :
  1 <= max_len ->
  (has_ink text = true ->
   ends_sentence (_ensure_sentence_end text max_len) = true
   /\ (length (strip text) <= max_len ->
       length (_ensure_sentence_end text max_len) <= max_len))
  /\ (has_ink text = false -> _ensure_sentence_end text max_len = []).
Proof.
  intros Hmax. split; [now apply ensure_sentence_end_cases|].
  intros Hb. unfold _ensure_sentence_end. cbn zeta.
  pose proof (strip_empty_iff text) as He. rewrite Hb in He. cbn [negb] in He.
  rewrite He. destruct (strip text); [reflexivity|discriminate].
Qed.

End EnforceProperties.

Lemma ensure_sentence_end_result_witness :
  ends_sentence (_ensure_sentence_end (u " ab cd ") 4) = true
  /\ _ensure_sentence_end (u "  ") 4 = [].
Proof.
  assert (Hmax : 1 <= 4) by lia.
  split.
  - exact (proj1 (proj1 (ensure_sentence_end_result (u " ab cd ") 4 Hmax) eq_refl)).
  - exact (proj2 (ensure_sentence_end_result (u "  ") 4 Hmax) eq_refl).
Defined.

Lemma fit_len_bounds_witness :
  _fit_len (u " abc ") 2 5 (u "pad") true = strip (u " abc ").
Proof.
  apply (fit_len_bounds (u " abc ") 2 5 (u "pad") true). vm_compute. lia.
Defined.

Lemma starts_with_prefix (p r : str) : starts_with p (p ++ r) = true.
Proof.
  induction p as [|a p IH]; [reflexivity|].
  cbn [app starts_with]. now rewrite N.eqb_refl, IH.
Qed.

Lemma contains_prefix (p r : str) : contains p (p ++ r) = true.
Proof.
  pose proof (starts_with_prefix p r) as Hp.
  destruct (p ++ r); cbn [contains]; now rewrite Hp.
Qed.

Lemma contains_nonempty (sub s : str) : contains sub s = true -> sub <> [] -> s <> [].
Proof.
  intros Hc Hne ->. destruct sub; [now destruct Hne|discriminate Hc].
Qed.

Lemma drop_while_app_ink (x y : str) :
  has_ink x = true -> drop_while isspace (x ++ y) = drop_while isspace x ++ y.
Proof.
  induction x as [|c x IH]; [discriminate|].
  cbn [has_ink existsb app drop_while]. destruct (isspace c); [|reflexivity].
  cbn [negb orb]. exact IH.
Qed.

Lemma rstrip_app_ink (a b : str) : has_ink b = true -> rstrip (a ++ b) = a ++ rstrip b.
Proof.
  intros Hb. unfold rstrip, rstrip_by. rewrite List.rev_app_distr.
  rewrite drop_while_app_ink by now rewrite has_ink_rev.
  now rewrite List.rev_app_distr, List.rev_involutive.
Qed.

(** Joining two stripped, non-empty strings leaves nothing to strip. *)
Lemma strip_joined (a m b : str) :
  strip a = a -> a <> [] -> strip b = b -> b <> [] -> strip (a ++ m ++ b) = a ++ m ++ b.
Proof.
  intros Ha Hna Hb Hnb.
  destruct (stripped_head Ha) as [->|(c & r & -> & Hc)]; [now destruct Hna|].
  cbn [app]. rewrite strip_head_ink by assumption.
  rewrite List.app_assoc.
  rewrite rstrip_app_ink by now apply stripped_ink.
  rewrite stripped_rstrip by assumption. now rewrite <- List.app_assoc.
Qed.

Lemma or_str_ink (a b : str) : has_ink (or_str (strip a) b) = has_ink a || has_ink b.
Proof.
  unfold or_str. rewrite strip_empty_iff.
  destruct (has_ink a) eqn:Ea; cbn [negb orb]; [|reflexivity].
  now rewrite has_ink_strip.
Qed.

Lemma blank_strip (s : str) : has_ink s = false -> strip s = [].
Proof.
  intros Hs. pose proof (strip_empty_iff s) as He. rewrite Hs in He.
  destruct (strip s); [reflexivity|discriminate].
Qed.

Section EnforcePage.
Context `{Unicode}.

(** For a keyword that is not blank, the heading that [_ensure_kw_in_h1]
    returns contains the stripped keyword and has no surrounding whitespace;
    a heading that already contains it is only stripped, and a second
    application changes nothing. *)
Theorem ensure_kw_in_h1_result (h1 primary_kw : str) :
  has_ink primary_kw = true ->
  let r := _ensure_kw_in_h1 h1 primary_kw in
  contains (strip primary_kw) r = true
  /\ strip r = r
  /\ (contains (strip primary_kw) (strip h1) = true -> r = strip h1)
  /\ _ensure_kw_in_h1 r primary_kw = r.
Proof.
  intros Hkw.
  assert (Hk : strip (strip primary_kw) = strip primary_kw) by apply strip_idem.
  assert (Hh : strip (strip h1) = strip h1) by apply strip_idem.
  assert (Hne : strip primary_kw <> []).
  { intros Heq. pose proof (strip_empty_iff primary_kw) as He.
    rewrite Heq, Hkw in He. discriminate. }
  assert (Hfix : forall h : str, strip h = h -> contains (strip primary_kw) h = true ->
                 _ensure_kw_in_h1 h primary_kw = h).
  { intros h Hs Hc. unfold _ensure_kw_in_h1. cbn zeta. rewrite Hs, Hc.
    pose proof (contains_nonempty _ _ Hc Hne) as Hnh.
    destruct (strip primary_kw); [now destruct Hne|].
    destruct h; [now destruct Hnh|reflexivity]. }
  assert (Hmain : contains (strip primary_kw) (_ensure_kw_in_h1 h1 primary_kw) = true
                  /\ strip (_ensure_kw_in_h1 h1 primary_kw) = _ensure_kw_in_h1 h1 primary_kw
                  /\ (contains (strip primary_kw) (strip h1) = true ->
                      _ensure_kw_in_h1 h1 primary_kw = strip h1)).
  { unfold _ensure_kw_in_h1. cbn zeta.
    set (kw := strip primary_kw) in *. set (h := strip h1) in *. clearbody kw h.
    replace (is_empty kw) with false by (destruct kw; [now destruct Hne|reflexivity]).
    destruct h as [|c0 h0] eqn:Eh.
    - cbn [is_empty]. split; [|split; [assumption|]].
      + rewrite <- (List.app_nil_r kw) at 2. apply contains_prefix.
      + intros Hc. exfalso. exact (contains_nonempty _ _ Hc Hne eq_refl).
    - rewrite <- Eh in *. replace (is_empty h) with false by now rewrite Eh.
      destruct (contains kw h) eqn:Ec; [tauto|].
      assert (Hnh : h <> []) by (rewrite Eh; discriminate).
      rewrite (strip_joined kw [SP] h Hk Hne Hh Hnh).
      split; [apply contains_prefix|]. split; [|discriminate].
      now apply strip_joined. }
  cbn zeta. destruct Hmain as (H1 & H2 & H3).
  split; [assumption|]. split; [assumption|]. split; [assumption|].
  now apply Hfix.
Qed.

Lemma enforce_title_ink (page : Page) (pk : str) (sup : list str) (intent : str) :
  has_ink pk = true \/ has_ink (get_str (meta_title page)) = true ->
  has_ink (get_str (meta_title (_enforce_page_for_pass page pk sup intent))) = true.
Proof.
  intros Hsrc. unfold _enforce_page_for_pass. cbn [meta_title get_str].
  apply fit_len_ink; [left|lia].
  assert (Hk : strip (strip pk) = strip pk) by apply strip_idem.
  assert (Ht : strip (strip (get_str (meta_title page))) = strip (get_str (meta_title page)))
    by apply strip_idem.
  pose proof (has_ink_strip pk) as Hik.
  pose proof (has_ink_strip (get_str (meta_title page))) as Hit.
  pose proof (strip_empty_iff pk) as Hek.
  set (kw := strip pk) in *. set (title := strip (get_str (meta_title page))) in *.
  clearbody kw title. rewrite Hek.
  destruct (has_ink pk) eqn:Ep; cbn [negb andb].
  - destruct (contains kw title) eqn:Ec; cbn [negb].
    + apply stripped_ink; [assumption|].
      apply (contains_nonempty _ _ Ec). intros ->. discriminate.
    + destruct (negb (is_empty title)); rewrite has_ink_strip, has_ink_app, Hik;
        reflexivity.
  - destruct Hsrc as [Hsrc|Hsrc]; [discriminate|]. now rewrite Hit.
Qed.

Lemma enforce_title_blank (page : Page) (pk : str) (sup : list str) (intent : str) :
  has_ink pk = false -> has_ink (get_str (meta_title page)) = false ->
  get_str (meta_title (_enforce_page_for_pass page pk sup intent)) = [].
Proof.
  intros Hp Ht. unfold _enforce_page_for_pass. cbn [meta_title get_str].
  rewrite (blank_strip _ Hp), (blank_strip _ Ht). reflexivity.
Qed.

Lemma enforce_desc (page : Page) (pk : str) (sup : list str) (intent : str) :
  ends_sentence (get_str (meta_description (_enforce_page_for_pass page pk sup intent)))
  = true
  /\ length (get_str (meta_description (_enforce_page_for_pass page pk sup intent)))
     <= 160.
Proof.
  unfold _enforce_page_for_pass. cbn [meta_description get_str].
  set (desc := if negb (is_empty (strip pk)) && _ then _ else _). clearbody desc.
  set (pad := u "선택 기준, 사용 팁, FAQ까지 과장 없이 정리했습니다. 지금 확인해 보세요").
  assert (Hi : has_ink (_fit_len desc 70 160 pad false) = true).
  { apply fit_len_ink; [right; split; [lia|reflexivity]|lia]. }
  assert (Hmax : 1 <= 160) by lia.
  destruct (ensure_sentence_end_cases (_fit_len desc 70 160 pad false) 160 Hmax Hi)
    as [He Hl].
  split; [exact He|]. apply Hl. rewrite fit_len_stripped. apply fit_len_length.
Qed.

(** The page that [_enforce_page_for_pass] returns has a title of at most 60
    characters and a description of at most 160 that ends a sentence; its
    JSON-LD flag says whether it has three FAQ entries.  No audit of it
    reports an empty description (T003); an empty title (T001) is reported
    exactly when both the keyword and the title of the input were blank, and
    missing OpenGraph text (T007) only then. *)
Theorem enforce_page_guarantees (page : Page) (primary_keyword : str)
    (supporting_keywords : list str) (intent : str) :
  let out := _enforce_page_for_pass page primary_keyword supporting_keywords intent in
  length (get_str (meta_title out)) <= 60
  /\ length (get_str (meta_description out)) <= 160
  /\ ends_sentence (get_str (meta_description out)) = true
  /\ has_faq_jsonld out = Some (3 <=? length (get_faq (faq out)))
  /\ forall (pk : str) (sup : list str) (i : str),
       ~ In T003 (audit_rules out pk sup i)
       /\ (In T001 (audit_rules out pk sup i)
           <-> has_ink primary_keyword = false
               /\ has_ink (get_str (meta_title page)) = false)
       /\ (In T007 (audit_rules out pk sup i)
           -> has_ink primary_keyword = false
              /\ has_ink (get_str (meta_title page)) = false).
Proof.
  intros out.
  destruct (enforce_desc page primary_keyword supporting_keywords intent) as [He Hl].
  fold out in He, Hl.
  assert (Htitle : has_ink (get_str (meta_title out)) = false ->
                   has_ink primary_keyword = false
                   /\ has_ink (get_str (meta_title page)) = false).
  { intros Hb.
    destruct (has_ink primary_keyword) eqn:Ep.
    - subst out. rewrite enforce_title_ink in Hb by (left; exact Ep). discriminate.
    - destruct (has_ink (get_str (meta_title page))) eqn:Et; [|tauto].
      subst out. rewrite enforce_title_ink in Hb by (right; exact Et). discriminate. }
  split; [subst out; unfold _enforce_page_for_pass; cbn [meta_title get_str];
          apply fit_len_length|].
  split; [exact Hl|]. split; [exact He|]. split; [reflexivity|].
  intros pk sup i. rewrite audit_T001_iff, audit_T003_iff, audit_T007_iff.
  rewrite !strip_empty_iff. split; [|split].
  - rewrite (ends_sentence_ink _ He). discriminate.
  - split.
    + intros Hb. apply Htitle. now apply negb_true_iff.
    + intros [Hp Ht]. subst out. now rewrite enforce_title_blank.
  - intros Hog. apply Htitle.
    assert (Hot : og_title out
                  = Some (or_str (strip (get_str (og_title page)))
                            (get_str (meta_title out)))) by reflexivity.
    assert (Hod : og_description out
                  = Some (or_str (strip (get_str (og_description page)))
                            (get_str (meta_description out)))) by reflexivity.
    rewrite Hot, Hod in Hog. cbn [get_str] in Hog.
    rewrite !or_str_ink, (ends_sentence_ink _ He), orb_true_r in Hog.
    cbn [negb] in Hog. rewrite orb_false_r in Hog.
    apply negb_true_iff in Hog. now apply orb_false_iff in Hog as [_ Hog].
Qed.

End EnforcePage.

Lemma ensure_kw_in_h1_result_witness :
  contains (strip (u " serum ")) (_ensure_kw_in_h1 (u "Daily care") (u " serum ")) = true.
Proof.
  exact (proj1 (ensure_kw_in_h1_result (u "Daily care") (u " serum ") eq_refl)).
Defined.

(** * Properties of the rounds of fix_to_pass *)

Lemma rounds_of_range (max_rounds default : Z) : 1 <= rounds_of max_rounds default <= 6.
Proof. unfold rounds_of. destruct (max_rounds =? 0)%Z; lia. Qed.

Section FixRoundsProperties.
Context `{Unicode}.
Variable llm_call : nat -> Page -> option AuditResult -> str -> list str -> str -> option Patch.
Variable env_use_llm : option str.
Variables (primary : str) (supporting : list str) (intent : str).
Variables (run_id : Z) (base_url : str).

Local Abbreviation fix_round' :=
  (fix_round llm_call env_use_llm primary supporting intent run_id base_url).
Local Abbreviation fix_rounds' :=
  (fix_rounds llm_call env_use_llm primary supporting intent run_id base_url).

Lemma fix_round_clean (k : nat) (page : Page) (last_audit : AuditResult) :
  let fixed := fix_round' k page last_audit in
  has_ink (get_str (meta_title fixed)) = true
  /\ has_ink (get_str (meta_description fixed)) = true
  /\ has_ink (get_str (canonical_url fixed)) = true
  /\ has_ink (get_str (og_title fixed)) = true
  /\ has_ink (get_str (og_description fixed)) = true
  /\ length (get_str (meta_title fixed)) <= 60
  /\ length (get_str (meta_description fixed)) <= 160.
Proof.
  cbn zeta. unfold fix_round.
  set (p := ai_fix_to_pass _ _ _ _ _ _ _ _ _).
  assert (Ht : has_ink (get_str (meta_title p)) = true) by apply ai_fix_title_ink.
  assert (Hc : has_ink (get_str (canonical_url p)) = true) by apply ai_fix_canonical_ink.
  clearbody p.
  pose proof (enforce_title_ink p primary supporting intent (or_intror Ht)) as Ht'.
  destruct (enforce_desc p primary supporting intent) as [He Hl].
  pose proof (ends_sentence_ink _ He) as Hd.
  split; [exact Ht'|]. split; [exact Hd|]. split; [exact Hc|].
  split; [|split; [|split; [|exact Hl]]].
  - change (og_title (_enforce_page_for_pass p primary supporting intent))
      with (Some (or_str (strip (get_str (og_title p)))
                    (get_str (meta_title
                                (_enforce_page_for_pass p primary supporting intent))))).
    cbn [get_str]. now rewrite or_str_ink, Ht', orb_true_r.
  - change (og_description (_enforce_page_for_pass p primary supporting intent))
      with (Some (or_str (strip (get_str (og_description p)))
                    (get_str (meta_description
                                (_enforce_page_for_pass p primary supporting intent))))).
    cbn [get_str]. now rewrite or_str_ink, Hd, orb_true_r.
  - unfold _enforce_page_for_pass. cbn [meta_title get_str]. apply fit_len_length.
Qed.

Lemma fix_rounds_last (n k : nat) (page : Page) (fixed_page : option Page)
    (last_audit : AuditResult) :
  exists (j : nat) (p : Page) (a : AuditResult),
    fix_rounds' (S n) k page fixed_page last_audit
    = (Some (fix_round' j p a),
       seo_audit_page (fix_round' j p a) primary supporting intent).
Proof.
  revert k page fixed_page last_audit.
  induction n as [|n IH]; intros k page fixed_page last_audit.
  - exists k, page, last_audit. cbn [fix_rounds]. now destruct (is_pass _).
  - cbn [fix_rounds].
    destruct (is_pass (overall (seo_audit_page (fix_round' k page last_audit)
                                  primary supporting intent))) eqn:Ep.
    + exists k, page, last_audit. reflexivity.
    + exact (IH (S k) (fix_round' k page last_audit)
               (Some (fix_round' k page last_audit))
               (seo_audit_page (fix_round' k page last_audit) primary supporting intent)).
Qed.

(** The rounds of fix_to_pass: between one and six passes are made, whatever
    [max_rounds] is.  The page and the audit that are stored afterwards
    belong together (the audit is the audit of that page, for the run's own
    keywords), and the stored audit never
    reports an empty title or description (T001, T003), a missing canonical
    URL (T005), missing OpenGraph text (T007) or missing FAQ JSON-LD (S002);
    the stored title has at most 60 characters and the description 160. *)
Theorem fix_rounds_result (max_rounds default : Z) (before_page : Page)
    (before_audit : AuditResult) :
  let rounds := rounds_of max_rounds default in
  let res := fix_rounds' rounds 0 before_page None before_audit in
  1 <= rounds <= 6
  /\ exists fixed : Page,
       fst res = Some fixed
       /\ snd res = seo_audit_page fixed primary supporting intent
       /\ length (get_str (meta_title fixed)) <= 60
       /\ length (get_str (meta_description fixed)) <= 160
       /\ (forall r, In r [T001; T003; T005; T007; S002] ->
           ~ In r (List.map rule_id (issues (snd res)))).
Proof.
  intros rounds res. pose proof (rounds_of_range max_rounds default) as Hr.
  fold rounds in Hr. split; [exact Hr|].
  destruct rounds as [|n] eqn:En; [lia|].
  destruct (fix_rounds_last n 0 before_page None before_audit)
    as (j & p & a & Heq).
  subst res. rewrite Heq. cbn [fst snd].
  exists (fix_round' j p a). split; [reflexivity|]. split; [reflexivity|].
  destruct (fix_round_clean j p a) as (Ht & Hd & Hc & Hot & Hod & Hlt & Hld).
  split; [exact Hlt|]. split; [exact Hld|].
  intros r Hin.
  change (List.map rule_id
            (issues (seo_audit_page (fix_round' j p a) primary supporting intent)))
    with (audit_rules (fix_round' j p a) primary supporting intent).
  cbn [In] in Hin.
  destruct Hin as [<-|[<-|[<-|[<-|[<-|[]]]]]].
  - rewrite audit_T001_iff, strip_empty_iff, Ht. discriminate.
  - rewrite audit_T003_iff, strip_empty_iff, Hd. discriminate.
  - rewrite audit_T005_iff, strip_empty_iff, Hc. discriminate.
  - rewrite audit_T007_iff, !strip_empty_iff, Hot, Hod. discriminate.
  - apply audit_never_S002.
Qed.

End FixRoundsProperties.

(** * Properties of the export paths *)

Section ExportPaths.
Context `{Unicode}.
Variable render_export : Run -> str -> Z -> str.
Variable EXPORT_DIR : str.


(** The run as [update_run] leaves it after an export. *)
Definition exported_run (r : Run) (export : ExportInfo) (now : str) : Run :=
  {| run_stage := EXPORTED; run_updated_at := now;
     run_primary_keyword := run_primary_keyword r;
     run_supporting_keywords := run_supporting_keywords r;
     run_intent := run_intent r; run_content := run_content r;
     run_audit := run_audit r; run_export := Some export |}.

Definition export_file (run_id : Z) : str :=
  EXPORT_DIR ++ u "/run_" ++ str_of_int run_id ++ u ".html".

Lemma api_export_unknown (w : World) (run_id : Z) (base_url now : str) (elapsed : Z) :
  runs w !! run_id = None ->
  api_export render_export EXPORT_DIR w run_id base_url now elapsed
  = (if fits_int64 run_id
     then JsonError 404 (u "'run_id " ++ str_of_int run_id ++ u " not found'") None
     else InternalError, w).
Proof.
  intros Hrun. unfold api_export. rewrite Hrun. now destruct (fits_int64 run_id).
Qed.

Lemma api_export_blocked (w : World) (run_id : Z) (run : Run) (base_url now : str)
    (elapsed : Z) :
  runs w !! run_id = Some run ->
  str_eqb (recorded_verdict run) (u "PASS") = false ->
  api_export render_export EXPORT_DIR w run_id base_url now elapsed
  = (JsonError 400
       (u "Export blocked: requires PASS (current=" ++ recorded_verdict run
          ++ u "). Run Audit → Fix/Auto first.")
       (Some (run_audit run)),
     _log_job w run_id (u "EXPORT") (u "ERR") 0
       (DetailBlocked (u "blocked (current=" ++ recorded_verdict run ++ u ")")
          (run_audit run)) now).
Proof.
  intros Hrun Hv. unfold api_export. rewrite Hrun. cbv zeta.
  rewrite current_overall_recorded, Hv. reflexivity.
Qed.

Lemma api_export_passed (w : World) (run_id : Z) (run : Run) (base_url now : str)
    (elapsed : Z) :
  runs w !! run_id = Some run ->
  str_eqb (recorded_verdict run) (u "PASS") = true ->
  let export := {| export_path := export_file run_id; export_ts := now |} in
  api_export render_export EXPORT_DIR w run_id base_url now elapsed
  = (ExportOk run_id (export_file run_id) export (exported_run run export now),
     {| runs := <[run_id := exported_run run export now]> (runs w);
        job_logs := job_logs w ++
          [{| log_run_id := run_id; job_name := u "EXPORT"; job_status := u "OK";
              elapsed_ms := elapsed; job_detail := DetailExport export;
              job_ts := now |}];
        files := <[export_file run_id
                   := render_export run (rstrip_slash base_url) run_id]> (files w) |}).
Proof.
  intros Hrun Hv export. unfold api_export. rewrite Hrun. cbv zeta.
  rewrite current_overall_recorded, Hv. cbn [negb].
  unfold update_run_export, write_text. cbn [runs files job_logs]. rewrite Hrun.
  reflexivity.
Qed.

(** [api_export] touches nothing but its own run: every other row of the
    table and every other file stay as they were.  When the run exists the
    job log grows by one entry, named EXPORT, and the handler does not fail
    (the update of the run it has just read finds it).  An unknown run id
    changes nothing: it is answered with 404 when the id fits in 64 signed
    bits, and ends in the uncaught [OverflowError] (HTTP 500) when it does
    not. *)
Theorem api_export_frame (w : World) (run_id : Z) (base_url now : str) (elapsed : Z) :
  let res := api_export render_export EXPORT_DIR w run_id base_url now elapsed in
  (forall j : Z, j <> run_id -> runs (snd res) !! j = runs w !! j)
  /\ (forall p : str, p <> export_file run_id -> files (snd res) !! p = files w !! p)
  /\ (forall run, runs w !! run_id = Some run ->
      fst res <> InternalError
      /\ exists e, job_logs (snd res) = job_logs w ++ [e]
                   /\ log_run_id e = run_id /\ job_name e = u "EXPORT")
  /\ (runs w !! run_id = None ->
      snd res = w
      /\ (fits_int64 run_id = true ->
          fst res
          = JsonError 404 (u "'run_id " ++ str_of_int run_id ++ u " not found'") None)
      /\ (fits_int64 run_id = false -> fst res = InternalError)).
Proof.
  intros res. subst res.
  destruct (runs w !! run_id) as [run|] eqn:Hrun.
  - destruct (str_eqb (recorded_verdict run) (u "PASS")) eqn:Hv.
    + rewrite (api_export_passed w run_id run base_url now elapsed Hrun Hv).
      cbn [fst snd runs files job_logs].
      split; [intros j Hj; now rewrite lookup_insert_ne|].
      split; [intros p Hp; now rewrite lookup_insert_ne|].
      split; [|discriminate].
      intros run0 _. split; [discriminate|].
      eexists. split; [reflexivity|]. split; reflexivity.
    + rewrite (api_export_blocked w run_id run base_url now elapsed Hrun Hv).
      cbn [fst snd _log_job runs files job_logs].
      split; [reflexivity|]. split; [reflexivity|].
      split; [|discriminate].
      intros run0 _. split; [discriminate|].
      eexists. split; [reflexivity|]. split; reflexivity.
  - rewrite (api_export_unknown w run_id base_url now elapsed Hrun).
    cbn [fst snd]. split; [reflexivity|]. split; [reflexivity|].
    split; [discriminate|]. intros _. split; [reflexivity|].
    split; intros Hfit; now rewrite Hfit.
Qed.

(** An export does not close the gate: after a successful export the run
    still carries its PASS audit, so a second export succeeds too, and it
    overwrites the same file. *)
Theorem export_again (w : World) (run_id : Z) (run : Run) (a : AuditResult)
    (base_url now base_url' now' : str) (elapsed elapsed' : Z) :
  runs w !! run_id = Some run -> run_audit run = Some a -> overall a = PASS ->
  let first := api_export render_export EXPORT_DIR w run_id base_url now elapsed in
  let second :=
    api_export render_export EXPORT_DIR (snd first) run_id base_url' now' elapsed' in
  exists run1 run2 : Run,
    fst first
    = ExportOk run_id (export_file run_id)
        {| export_path := export_file run_id; export_ts := now |} run1
    /\ fst second
       = ExportOk run_id (export_file run_id)
           {| export_path := export_file run_id; export_ts := now' |} run2
    /\ run_audit run2 = Some a
    /\ run_stage run2 = EXPORTED
    /\ files (snd second) !! export_file run_id
       = Some (render_export run1 (rstrip_slash base_url') run_id).
Proof.
  intros Hrun Ha Ho first second.
  assert (Hv : str_eqb (recorded_verdict run) (u "PASS") = true).
  { apply recorded_verdict_pass. now exists a. }
  pose proof (api_export_passed w run_id run base_url now elapsed Hrun Hv) as H1.
  cbv zeta in H1. fold first in H1.
  set (export1 := {| export_path := export_file run_id; export_ts := now |}) in *.
  set (run1 := exported_run run export1 now) in *.
  assert (Hrun1 : runs (snd first) !! run_id = Some run1).
  { rewrite H1. cbn [snd runs]. apply lookup_insert_eq. }
  assert (Hv1 : str_eqb (recorded_verdict run1) (u "PASS") = true).
  { apply recorded_verdict_pass. exists a. split; [exact Ha|exact Ho]. }
  pose proof (api_export_passed (snd first) run_id run1 base_url' now' elapsed'
                Hrun1 Hv1) as H2.
  cbv zeta in H2. fold second in H2.
  eexists run1, _. rewrite H1, H2. cbn [fst snd files].
  split; [reflexivity|]. split; [reflexivity|].
  split; [exact Ha|]. split; [reflexivity|]. apply lookup_insert_eq.
Qed.

(** The bulk path [_admin_do_export] applies the same gate as [api_export]:
    for an existing run it raises [ValueError] exactly when the handler
    answers 400, and otherwise it writes the same file and the same row
    (for a base URL without a trailing slash); unlike the handler, it
    changes nothing at all when it refuses. *)
Theorem admin_export_same_gate (w : World) (run_id : Z) (run : Run)
    (base_url now : str) (elapsed : Z) :
  runs w !! run_id = Some run -> rstrip_slash base_url = base_url ->
  let admin := _admin_do_export render_export EXPORT_DIR w run_id base_url now in
  let api := api_export render_export EXPORT_DIR w run_id base_url now elapsed in
  runs (snd admin) = runs (snd api)
  /\ files (snd admin) = files (snd api)
  /\ ((forall a, run_audit run = Some a -> overall a <> PASS) ->
      fst admin
      = AdminValueError
          (u "Export blocked: SEO is not PASS (current=" ++ recorded_verdict run ++ u ")")
      /\ snd admin = w
      /\ exists message, fst api = JsonError 400 message (Some (run_audit run)))
  /\ ((exists a, run_audit run = Some a /\ overall a = PASS) ->
      exists run' export,
        fst admin = AdminExported run' export
        /\ fst api = ExportOk run_id (export_path export) export run').
Proof.
  intros Hrun Hbase admin api.
  assert (Hgate : match run_audit run with
                  | Some a => str_eqb (verdict_text (overall a)) (u "PASS")
                  | None => false
                  end = str_eqb (recorded_verdict run) (u "PASS")).
  { unfold recorded_verdict. now destruct (run_audit run). }
  assert (Hadmin : admin
    = if str_eqb (recorded_verdict run) (u "PASS")
      then (AdminExported
              (exported_run run {| export_path := export_file run_id; export_ts := now |} now)
              {| export_path := export_file run_id; export_ts := now |},
            {| runs := <[run_id := exported_run run
                           {| export_path := export_file run_id; export_ts := now |} now]>
                         (runs w);
               job_logs := job_logs w;
               files := <[export_file run_id := render_export run base_url run_id]>
                          (files w) |})
      else (AdminValueError
              (u "Export blocked: SEO is not PASS (current=" ++ recorded_verdict run
                 ++ u ")"), w)).
  { subst admin. unfold _admin_do_export. rewrite Hrun. cbv zeta. rewrite Hgate.
    destruct (str_eqb (recorded_verdict run) (u "PASS")); cbn [negb].
    - unfold update_run_export, write_text. cbn [runs files job_logs]. rewrite Hrun.
      reflexivity.
    - unfold recorded_verdict. reflexivity. }
  rewrite Hadmin. subst api. clear Hadmin admin.
  destruct (str_eqb (recorded_verdict run) (u "PASS")) eqn:Hv.
  - rewrite (api_export_passed w run_id run base_url now elapsed Hrun Hv).
    cbn [fst snd runs files]. rewrite Hbase.
    split; [reflexivity|]. split; [reflexivity|]. split.
    + intros Hno. apply recorded_verdict_pass in Hv as (a & Ha & Ho).
      destruct (Hno a Ha Ho).
    + intros _. eexists _, _. split; reflexivity.
  - rewrite (api_export_blocked w run_id run base_url now elapsed Hrun Hv).
    cbn [fst snd _log_job runs files].
    split; [reflexivity|]. split; [reflexivity|]. split.
    + intros _. split; [reflexivity|]. split; [reflexivity|]. eexists. reflexivity.
    + intros Hp. apply recorded_verdict_pass in Hp. rewrite Hp in Hv. discriminate.
Qed.

End ExportPaths.

(** A run whose recorded audit is PASS. *)
Definition run_passed : Run :=
  {| run_stage := AUDIT_DONE; run_updated_at := []; run_primary_keyword := u "k";
     run_supporting_keywords := []; run_intent := PURCHASE;
     run_content := empty_page;
     run_audit :=
       Some {| overall := PASS; score := 100; issues := [];
               signals :=
                 {| title_len := 40; desc_len := 100; sig_h1_count := 1;
                    sig_h2_count := 3; sig_word_count := 400;
                    primary_kw_in_h1 := true; primary_kw_in_first120 := true;
                    supporting_kw_hits := 0; sig_faq_count := 3;
                    sig_has_faq_jsonld := true |} |};
     run_export := None |}.

Definition world_passed_run : World :=
  {| runs := {[ 1%Z := run_passed ]}; job_logs := []; files := ∅ |}.

Lemma export_again_witness :
  runs world_passed_run !! 1%Z = Some run_passed
  /\ exists run2 : Run,
       fst (api_export (fun _ _ _ => []) (u "exports")
              (snd (api_export (fun _ _ _ => []) (u "exports") world_passed_run 1%Z
                      (u "http://x") (u "2026-01-01 00:00:00") 5%Z))
              1%Z (u "http://x") (u "2026-01-02 00:00:00") 6%Z)
       = ExportOk 1%Z (export_file (u "exports") 1%Z)
           {| export_path := export_file (u "exports") 1%Z;
              export_ts := u "2026-01-02 00:00:00" |} run2.
Proof.
  assert (Hrun : runs world_passed_run !! 1%Z = Some run_passed) by reflexivity.
  split; [exact Hrun|].
  destruct (export_again (fun _ _ _ => []) (u "exports") world_passed_run 1%Z run_passed
              _ (u "http://x") (u "2026-01-01 00:00:00") (u "http://x")
              (u "2026-01-02 00:00:00") 5%Z 6%Z Hrun eq_refl eq_refl)
    as (run1 & run2 & _ & H2 & _).
  exists run2. exact H2.
Defined.

Lemma admin_export_same_gate_witness :
  runs world_one_run !! 1%Z = Some run_without_audit
  /\ rstrip_slash (u "http://x") = u "http://x"
  /\ snd (_admin_do_export (fun _ _ _ => []) (u "exports") world_one_run 1%Z
            (u "http://x") (u "2026-01-01 00:00:00"))
     = world_one_run.
Proof.
  assert (Hrun : runs world_one_run !! 1%Z = Some run_without_audit) by reflexivity.
  assert (Hbase : rstrip_slash (u "http://x") = u "http://x") by reflexivity.
  split; [exact Hrun|]. split; [exact Hbase|].
  destruct (admin_export_same_gate (fun _ _ _ => []) (u "exports") world_one_run 1%Z
              run_without_audit (u "http://x") (u "2026-01-01 00:00:00") 5%Z Hrun Hbase)
    as (_ & _ & Hblocked & _).
  destruct Hblocked as (_ & Hw & _).
  - intros a Ha. discriminate Ha.
  - exact Hw.
Defined.

(** * Further properties of the A/B engine *)

(** Relabelling: A becomes B and B becomes A. *)
Definition swap_label (v : str) : str :=
  if str_eqb v (u "A") then u "B" else if str_eqb v (u "B") then u "A" else v.

Definition swap_variant (e : AB.Event) : AB.Event :=
  {| AB.variant := swap_label (AB.variant e); AB.event_name := AB.event_name e |}.

Section ABSymmetry.
Local Open Scope R_scope.

(** The summary as a function of the four counts. *)
Definition summary_of_counts (A_view A_click B_view B_click : nat)
    (min_views_required : Z) : AB.ABSummary :=
  let A_ctr := if (0 <? A_view)%nat then INR A_click / INR A_view else 0 in
  let B_ctr := if (0 <? B_view)%nat then INR B_click / INR B_view else 0 in
  let zp :=
    if ((0 <? A_view) && (0 <? B_view))%nat then
      let p_pool :=
        if (0 <? A_view + B_view)%nat then INR (A_click + B_click) / INR (A_view + B_view)
        else 0 in
      let denom :=
        sqrt (Rmax (p_pool * (1 - p_pool) * (1 / INR A_view + 1 / INR B_view))
                (1 / 10 ^ 12)) in
      ((B_ctr - A_ctr) / denom, AB._p_value_two_sided ((B_ctr - A_ctr) / denom))
    else (0, 1) in
  {| AB.stats_A := {| AB.view := A_view; AB.click := A_click; AB.ctr := A_ctr |};
     AB.stats_B := {| AB.view := B_view; AB.click := B_click; AB.ctr := B_ctr |};
     AB.uplift := B_ctr - A_ctr;
     AB.z := fst zp;
     AB.p_value := snd zp;
     AB.min_views_required := min_views_required;
     AB.recommend_variant :=
       if (min_views_required <=? Z.of_nat A_view)%Z
          && (min_views_required <=? Z.of_nat B_view)%Z
          && (if Rlt_dec (snd zp) (1 / 10) then true else false)
       then Some (if Rgt_dec B_ctr A_ctr then u "B" else u "A")
       else None |}.

Lemma ab_ctr_summary_counts (events : list AB.Event) (min_views_required : Z) :
  AB.ab_ctr_summary events min_views_required
  = summary_of_counts
      (AB.count_events (u "A") (u "view") events)
      (AB.count_events (u "A") (u "cta_click") events)
      (AB.count_events (u "B") (u "view") events)
      (AB.count_events (u "B") (u "cta_click") events) min_views_required.
Proof.
  unfold AB.ab_ctr_summary, summary_of_counts. cbv zeta.
  destruct ((0 <? AB.count_events (u "A") (u "view") events)
            && (0 <? AB.count_events (u "B") (u "view") events))%nat; reflexivity.
Qed.

Lemma count_events_perm (v n : str) (l l' : list AB.Event) :
  Permutation l l' -> AB.count_events v n l = AB.count_events v n l'.
Proof.
  unfold AB.count_events. induction 1 as [|x l l' _ IH|x y l|l l' l'' _ IH1 _ IH2].
  - reflexivity.
  - cbn [List.filter]. destruct (_ && _); cbn [length]; now rewrite IH.
  - cbn [List.filter]. destruct (_ && _), (_ && _); reflexivity.
  - now rewrite IH1.
Qed.

(** The summary depends on the events only through how many there are of
    each kind: any reordering of the event log gives the same summary. *)
Theorem ab_summary_order_invariant (events events' : list AB.Event)
    (min_views_required : Z) :
  Permutation events events' ->
  AB.ab_ctr_summary events min_views_required
  = AB.ab_ctr_summary events' min_views_required.
Proof.
  intros Hp. rewrite !ab_ctr_summary_counts.
  now rewrite !(count_events_perm _ _ _ _ Hp).
Qed.

Lemma summary_tie (av ac bv bc : nat) (m : Z) :
  av = 0%nat \/ bv = 0%nat
  \/ AB.ctr (AB.stats_A (summary_of_counts av ac bv bc m))
     = AB.ctr (AB.stats_B (summary_of_counts av ac bv bc m)) ->
  AB.z (summary_of_counts av ac bv bc m) = 0
  /\ AB.p_value (summary_of_counts av ac bv bc m) = 1
  /\ AB.recommend_variant (summary_of_counts av ac bv bc m) = None.
Proof.
  intros Hc.
  assert (Hzp : AB.z (summary_of_counts av ac bv bc m) = 0
                /\ AB.p_value (summary_of_counts av ac bv bc m) = 1).
  { unfold summary_of_counts in *. cbn [AB.z AB.p_value AB.ctr AB.stats_A AB.stats_B] in *.
    destruct ((0 <? av)%nat) eqn:Ea; cbn [andb].
    - destruct ((0 <? bv)%nat) eqn:Eb; cbn [fst snd]; [|split; reflexivity].
      destruct Hc as [->|[->|Hc]]; [discriminate Ea|discriminate Eb|].
      rewrite <- Hc. set (d := sqrt _).
      replace ((INR ac / INR av - INR ac / INR av) / d) with 0 by (unfold Rdiv; ring).
      split; [reflexivity|apply p_value_zero].
    - cbn [fst snd]. split; reflexivity. }
  destruct Hzp as [Hz Hp]. split; [exact Hz|]. split; [exact Hp|].
  unfold summary_of_counts in *. cbn [AB.p_value AB.recommend_variant] in *.
  rewrite Hp. destruct (Rlt_dec 1 (1 / 10)) as [Hlt|_]; [lra|].
  now rewrite andb_false_r.
Qed.

(** Without a difference there is no recommendation: when a variant has no
    view at all, or when both rates are equal, the statistic is 0, the
    p-value is 1 and no variant is recommended, whatever the threshold
    [min_views_required] is (zero and negative ones included). *)
Theorem ab_no_difference_no_recommendation (events : list AB.Event)
    (min_views_required : Z) :
  let s := AB.ab_ctr_summary events min_views_required in
  AB.view (AB.stats_A s) = 0%nat \/ AB.view (AB.stats_B s) = 0%nat
  \/ AB.ctr (AB.stats_A s) = AB.ctr (AB.stats_B s) ->
  AB.z s = 0 /\ AB.p_value s = 1 /\ AB.recommend_variant s = None.
Proof.
  cbv zeta. rewrite ab_ctr_summary_counts. apply summary_tie.
Qed.

Lemma swap_label_A (v : str) : str_eqb (swap_label v) (u "A") = str_eqb v (u "B").
Proof.
  unfold swap_label. destruct (str_eqb v (u "A")) eqn:Ea.
  - apply str_eqb_eq in Ea. subst v. reflexivity.
  - destruct (str_eqb v (u "B")) eqn:Eb; [reflexivity|exact Ea].
Qed.

Lemma swap_label_B (v : str) : str_eqb (swap_label v) (u "B") = str_eqb v (u "A").
Proof.
  unfold swap_label. destruct (str_eqb v (u "A")) eqn:Ea; [reflexivity|].
  destruct (str_eqb v (u "B")) eqn:Eb; [reflexivity|exact Eb].
Qed.

Lemma count_events_swap_A (n : str) (events : list AB.Event) :
  AB.count_events (u "A") n (List.map swap_variant events)
  = AB.count_events (u "B") n events.
Proof.
  unfold AB.count_events. induction events as [|e l IH]; [reflexivity|].
  cbn [List.map List.filter swap_variant AB.variant AB.event_name].
  rewrite swap_label_A. destruct (_ && _); cbn [length]; now rewrite IH.
Qed.

Lemma count_events_swap_B (n : str) (events : list AB.Event) :
  AB.count_events (u "B") n (List.map swap_variant events)
  = AB.count_events (u "A") n events.
Proof.
  unfold AB.count_events. induction events as [|e l IH]; [reflexivity|].
  cbn [List.map List.filter swap_variant AB.variant AB.event_name].
  rewrite swap_label_B. destruct (_ && _); cbn [length]; now rewrite IH.
Qed.

Lemma p_value_opp (x : R) : AB._p_value_two_sided (- x) = AB._p_value_two_sided x.
Proof. unfold AB._p_value_two_sided. now rewrite Rabs_Ropp. Qed.

Lemma summary_swap (av ac bv bc : nat) (m : Z) :
  let s := summary_of_counts av ac bv bc m in
  let s' := summary_of_counts bv bc av ac m in
  AB.stats_A s' = AB.stats_B s
  /\ AB.stats_B s' = AB.stats_A s
  /\ AB.uplift s' = - AB.uplift s
  /\ AB.z s' = - AB.z s
  /\ AB.p_value s' = AB.p_value s
  /\ AB.recommend_variant s' = option_map swap_label (AB.recommend_variant s).
Proof.
  intros s s'.
  assert (Hz : AB.z s' = - AB.z s /\ AB.p_value s' = AB.p_value s).
  { subst s s'. unfold summary_of_counts. cbn [AB.z AB.p_value].
    rewrite (andb_comm (0 <? bv)%nat (0 <? av)%nat).
    destruct ((0 <? av)%nat && (0 <? bv)%nat); cbn [fst snd]; [|split; [ring|reflexivity]].
    rewrite (Nat.add_comm bv av), (Nat.add_comm bc ac).
    rewrite (Rplus_comm (1 / INR bv) (1 / INR av)).
    set (d := sqrt _).
    set (a := if (0 <? av)%nat then _ else _). set (b := if (0 <? bv)%nat then _ else _).
    replace ((a - b) / d) with (- ((b - a) / d)) by (unfold Rdiv; ring).
    split; [reflexivity|apply p_value_opp]. }
  destruct Hz as [Hz Hp].
  split; [reflexivity|]. split; [reflexivity|].
  split; [subst s s'; unfold summary_of_counts; cbn [AB.uplift]; ring|].
  split; [exact Hz|]. split; [exact Hp|].
  pose proof (summary_tie av ac bv bc m) as Htie. fold s in Htie.
  assert (Hrec : AB.recommend_variant s
                 = if (m <=? Z.of_nat av)%Z && (m <=? Z.of_nat bv)%Z
                      && (if Rlt_dec (AB.p_value s) (1 / 10) then true else false)
                   then Some (if Rgt_dec (AB.ctr (AB.stats_B s)) (AB.ctr (AB.stats_A s))
                              then u "B" else u "A")
                   else None) by reflexivity.
  assert (Hrec' : AB.recommend_variant s'
                  = if (m <=? Z.of_nat bv)%Z && (m <=? Z.of_nat av)%Z
                       && (if Rlt_dec (AB.p_value s') (1 / 10) then true else false)
                    then Some (if Rgt_dec (AB.ctr (AB.stats_A s)) (AB.ctr (AB.stats_B s))
                               then u "B" else u "A")
                    else None) by reflexivity.
  rewrite Hrec', Hrec, Hp. rewrite (andb_comm (m <=? Z.of_nat bv)%Z).
  destruct ((m <=? Z.of_nat av)%Z && (m <=? Z.of_nat bv)%Z); [|reflexivity].
  cbn [andb]. destruct (Rlt_dec (AB.p_value s) (1 / 10)) as [Hlt|_]; [|reflexivity].
  cbn [option_map]. f_equal.
  assert (Hne : AB.ctr (AB.stats_A s) <> AB.ctr (AB.stats_B s)).
  { intros Heq. destruct Htie as (_ & Hone & _); [right; right; exact Heq|].
    rewrite Hone in Hlt. lra. }
  destruct (Rgt_dec (AB.ctr (AB.stats_A s)) (AB.ctr (AB.stats_B s))) as [Hab|Hab];
    destruct (Rgt_dec (AB.ctr (AB.stats_B s)) (AB.ctr (AB.stats_A s))) as [Hba|Hba];
    try reflexivity; exfalso; lra.
Qed.

(** The test does not favour a label.  Relabelling the events (A for B and
    B for A) exchanges the two statistics blocks, negates the uplift and the
    statistic, keeps the p-value, and relabels the recommendation: the
    default A of the source, for equal rates, is never reached when a
    variant is recommended. *)
Theorem ab_summary_label_symmetry (events : list AB.Event) (min_views_required : Z) :
  let s := AB.ab_ctr_summary events min_views_required in
  let s' := AB.ab_ctr_summary (List.map swap_variant events) min_views_required in
  AB.stats_A s' = AB.stats_B s
  /\ AB.stats_B s' = AB.stats_A s
  /\ AB.uplift s' = - AB.uplift s
  /\ AB.z s' = - AB.z s
  /\ AB.p_value s' = AB.p_value s
  /\ AB.recommend_variant s' = option_map swap_label (AB.recommend_variant s).
Proof.
  cbv zeta. rewrite !ab_ctr_summary_counts.
  rewrite !count_events_swap_A, !count_events_swap_B. apply summary_swap.
Qed.

End ABSymmetry.

Lemma ab_summary_order_invariant_witness :
  AB.ab_ctr_summary (rev events_3_1_2_1) 20%Z = AB.ab_ctr_summary events_3_1_2_1 20%Z.
Proof.
  apply ab_summary_order_invariant. symmetry. apply Permutation_rev.
Defined.

Lemma ab_no_difference_no_recommendation_witness :
  AB.recommend_variant
    (AB.ab_ctr_summary [ {| AB.variant := u "A"; AB.event_name := u "view" |} ] 0%Z)
  = None.
Proof.
  apply (ab_no_difference_no_recommendation
           [ {| AB.variant := u "A"; AB.event_name := u "view" |} ] 0%Z).
  right. left. reflexivity.
Defined.

(** * Properties of the banned-term check *)

(** How bad a grade is. *)
Definition grade_rank (v : verdict) : nat :=
  match v with PASS => 0 | OVERALL_WARN => 1 | OVERALL_FAIL => 2 end.

Lemma starts_with_extend (w s b : str) :
  starts_with w s = true -> starts_with w (s ++ b) = true.
Proof.
  intros Hs. destruct (starts_with_app _ _ Hs) as [r ->].
  rewrite <- List.app_assoc. apply starts_with_prefix.
Qed.

Lemma contains_extend_right (w s b : str) :
  contains w s = true -> contains w (s ++ b) = true.
Proof.
  induction s as [|c s IH]; cbn [contains app].
  - rewrite orb_false_r. intros Hs. destruct w; [|discriminate Hs].
    destruct b; reflexivity.
  - intros Hs. apply orb_true_iff in Hs as [Hs|Hs].
    + change (c :: s ++ b) with ((c :: s) ++ b).
      now rewrite (starts_with_extend _ _ b Hs).
    + rewrite (IH Hs). apply orb_true_r.
Qed.

Lemma contains_extend_left (w a s : str) :
  contains w s = true -> contains w (a ++ s) = true.
Proof.
  intros Hs. induction a as [|c a IH]; [exact Hs|].
  cbn [app contains]. rewrite IH. apply orb_true_r.
Qed.

Lemma contains_embedded (w a s b : str) :
  contains w s = true -> contains w (a ++ s ++ b) = true.
Proof. intros Hs. now apply contains_extend_left, contains_extend_right. Qed.

Lemma filter_nonempty_exists {A : Type} (f : A -> bool) (l : list A) :
  is_empty (List.filter f l) = false <-> exists x, In x l /\ f x = true.
Proof.
  split.
  - intros Hne. destruct (List.filter f l) as [|x r] eqn:E; [discriminate|].
    exists x. apply List.filter_In. rewrite E. now left.
  - intros (x & Hx & Hf).
    assert (Hin : In x (List.filter f l)) by now apply List.filter_In.
    destruct (List.filter f l); [destruct Hin|reflexivity].
Qed.

Lemma qc_grade_fail (text : str) :
  qc_grade (qc_check_text_pack text) = OVERALL_FAIL
  <-> exists w, In w BANNED_FAIL /\ contains w text = true.
Proof.
  rewrite <- filter_nonempty_exists. unfold qc_check_text_pack. cbv zeta.
  destruct (is_empty (List.filter (fun w => contains w text) BANNED_FAIL));
    cbn [negb qc_grade]; [|tauto].
  destruct (negb _); cbn [qc_grade]; split; discriminate.
Qed.

Lemma qc_grade_pass (text : str) :
  qc_grade (qc_check_text_pack text) = PASS
  <-> forall w, In w (BANNED_FAIL ++ BANNED_WARN) -> contains w text = false.
Proof.
  unfold qc_check_text_pack. cbv zeta.
  pose proof (filter_nonempty_exists (fun w => contains w text) BANNED_FAIL) as Hf.
  pose proof (filter_nonempty_exists (fun w => contains w text) BANNED_WARN) as Hw.
  destruct (is_empty (List.filter (fun w => contains w text) BANNED_FAIL));
    cbn [negb qc_grade].
  - destruct (is_empty (List.filter (fun w => contains w text) BANNED_WARN));
      cbn [negb qc_grade].
    + split; [|reflexivity]. intros _ w Hin.
      destruct (contains w text) eqn:Ec; [|reflexivity].
      apply List.in_app_or in Hin as [Hin|Hin].
      * assert (Hx : true = false) by (apply Hf; now exists w). discriminate Hx.
      * assert (Hx : true = false) by (apply Hw; now exists w). discriminate Hx.
    + split; [discriminate|]. intros Hall.
      destruct (proj1 Hw eq_refl) as (w & Hin & Hc).
      rewrite Hall in Hc by (apply List.in_or_app; now right). discriminate Hc.
  - split; [discriminate|]. intros Hall.
    destruct (proj1 Hf eq_refl) as (w & Hin & Hc).
    rewrite Hall in Hc by (apply List.in_or_app; now left). discriminate Hc.
Qed.

(** The grade is PASS exactly when no term of either list occurs in the
    text and FAIL exactly when a term of [BANNED_FAIL] occurs; the hits are
    terms of the lists that do occur, and there is at least one unless the
    grade is PASS. *)
Theorem qc_grade_meaning (text : str) :
  let r := qc_check_text_pack text in
  (qc_grade r = PASS
   <-> forall w, In w (BANNED_FAIL ++ BANNED_WARN) -> contains w text = false)
  /\ (qc_grade r = OVERALL_FAIL
      <-> exists w, In w BANNED_FAIL /\ contains w text = true)
  /\ (forall w, In w (qc_hits r) ->
      In w (BANNED_FAIL ++ BANNED_WARN) /\ contains w text = true)
  /\ (qc_hits r = [] <-> qc_grade r = PASS).
Proof.
  cbv zeta. split; [apply qc_grade_pass|]. split; [apply qc_grade_fail|].
  unfold qc_check_text_pack. cbv zeta.
  destruct (List.filter (fun w => contains w text) BANNED_FAIL) as [|x l] eqn:Ef;
    cbn [is_empty negb].
  - destruct (List.filter (fun w => contains w text) BANNED_WARN) as [|y l'] eqn:Ew;
      cbn [is_empty negb qc_hits qc_grade].
    + split; [intros w []|tauto].
    + split; [|split; discriminate].
      intros w Hin. rewrite <- Ew in Hin. apply List.filter_In in Hin as [Hin Hc].
      split; [apply List.in_or_app; now right|exact Hc].
  - cbn [qc_hits qc_grade]. split; [|split; discriminate].
    intros w Hin. rewrite <- Ef in Hin. apply List.filter_In in Hin as [Hin Hc].
    split; [apply List.in_or_app; now left|exact Hc].
Qed.

(** Text around a finding does not remove it: embedding a text into a
    longer one (as [api_optimize_ab] does when it joins the fields of a
    variant) never gives a better grade. *)
Theorem qc_grade_monotone (before text after : str) :
  grade_rank (qc_grade (qc_check_text_pack text))
  <= grade_rank (qc_grade (qc_check_text_pack (before ++ text ++ after))).
Proof.
  destruct (qc_grade (qc_check_text_pack (before ++ text ++ after))) eqn:Eb.
  - replace (qc_grade (qc_check_text_pack text)) with PASS; [reflexivity|].
    symmetry. apply qc_grade_pass. intros w Hin.
    destruct (contains w text) eqn:Ec; [|reflexivity].
    rewrite <- (proj1 (qc_grade_pass _) Eb w Hin).
    symmetry. now apply contains_embedded.
  - destruct (qc_grade (qc_check_text_pack text)) eqn:Et; cbn [grade_rank]; try lia.
    apply qc_grade_fail in Et as (w & Hin & Hc).
    assert (Hf : qc_grade (qc_check_text_pack (before ++ text ++ after)) = OVERALL_FAIL).
    { apply qc_grade_fail. exists w. split; [exact Hin|now apply contains_embedded]. }
    rewrite Hf in Eb. discriminate Eb.
  - destruct (qc_grade (qc_check_text_pack text)); cbn [grade_rank]; lia.
Qed.

(** * Instances of the further properties (with the tables [basic_unicode]) *)

Lemma audit_verdict_from_score_witness :
  overall (seo_audit_page empty_page [] [] []) = OVERALL_FAIL
  /\ (score (seo_audit_page empty_page [] [] []) <= 75)%Z.
Proof.
  assert (Hf : overall (seo_audit_page empty_page [] [] []) = OVERALL_FAIL)
    by (vm_compute; reflexivity).
  split; [exact Hf|].
  exact (proj2 (proj2 (audit_verdict_from_score empty_page [] [] [])) Hf).
Defined.

(** A response whose FAQ list has an item that is no dict, an item with
    [null] for a question and a number for an answer, a usable item and an
    item without an answer. *)
Definition patch_faq_only : Patch :=
  {| p_meta_title := JMissing; p_meta_description := JMissing; p_h1 := JMissing;
     p_body_html := JMissing; p_cta := JMissing;
     p_faq := FaqList [None;
                       Some {| item_q := JNull; item_a := JInteger 5 |};
                       Some {| item_q := JString (u " q "); item_a := JString (u "a") |};
                       Some {| item_q := JString (u "q"); item_a := JAbsent |}];
     p_other_keys := false |}.

Lemma merge_llm_replaces_faq_witness :
  usable_item {| item_q := JNull; item_a := JInteger 5 |} = true
  /\ get_faq (faq (_merge_llm_into_page page_unanswered_faq patch_faq_only))
     = [ {| faq_q := u "None"; faq_a := u "5" |}; {| faq_q := u "q"; faq_a := u "a" |} ].
Proof.
  split; [reflexivity|].
  exact (proj1 (merge_llm_replaces_faq page_unanswered_faq patch_faq_only _
                  {| item_q := JNull; item_a := JInteger 5 |}
                  eq_refl (or_intror (or_introl eq_refl)) eq_refl)).
Defined.

(** A page that passes the quick check: three H2 sections, both disclaimer
    phrases and 360 further words. *)
Definition page_quickcheck : Page :=
  {| meta_title := Some (List.repeat 116%N 25);
     meta_description := Some (List.repeat 100%N 80);
     canonical_url := Some (u "https://example.com/r/1");
     og_title := None; og_description := None;
     h1 := Some (u "h");
     body_html :=
       Some (u "<h2>a</h2><h2>b</h2><h2>c</h2> 개인차 이상 반응 "
               ++ List.concat (List.repeat (u "w ") 360));
     cta := None;
     faq := Some (List.repeat {| faq_q := u "q"; faq_a := u "a" |} 3);
     has_faq_jsonld := None |}.

Lemma quickcheck_implies_audit_basics_witness :
  _likely_pass_quickcheck page_quickcheck [] [] PURCHASE = true
  /\ ~ In T005 (audit_rules page_quickcheck (u "k") [] PURCHASE).
Proof.
  assert (Hq : _likely_pass_quickcheck page_quickcheck [] [] PURCHASE = true)
    by (vm_compute; reflexivity).
  split; [exact Hq|].
  exact (proj2 (proj2 (proj2 (quickcheck_implies_audit_basics page_quickcheck [] []
                                PURCHASE Hq) (u "k") [] PURCHASE))).
Defined.

Lemma ai_fix_to_pass_safety_net_witness :
  ~ In T005
      (audit_rules
         (ai_fix_to_pass (fun _ _ _ _ _ => None) None empty_page None (u "k") SupOther
            PURCHASE (Some 1%Z) (Some (u "http://x")))
         (u "k") [] PURCHASE).
Proof.
  destruct (ai_fix_to_pass_safety_net (fun _ _ _ _ _ => None) None empty_page None (u "k")
              SupOther PURCHASE (Some 1%Z) (Some (u "http://x")))
    as (_ & _ & _ & _ & Haudit).
  destruct (Haudit (u "k") [] PURCHASE) as (_ & _ & _ & H5).
  apply H5; discriminate.
Defined.

Lemma enforce_page_guarantees_witness :
  In T001 (audit_rules (_enforce_page_for_pass empty_page [] [] []) [] [] []).
Proof.
  destruct (enforce_page_guarantees empty_page [] [] []) as (_ & _ & _ & _ & Haudit).
  destruct (Haudit [] [] []) as (_ & H1 & _).
  apply H1. split; reflexivity.
Defined.

Lemma fix_rounds_result_witness :
  ~ In T001
      (List.map rule_id
         (issues
            (snd (fix_rounds (fun _ _ _ _ _ _ => None) None (u "k") [] PURCHASE 1%Z
                    (u "http://x") (rounds_of 0 1) 0 empty_page None
                    (seo_audit_page empty_page (u "k") [] PURCHASE))))).
Proof.
  pose proof (fix_rounds_result (fun _ _ _ _ _ _ => None) None (u "k") [] PURCHASE 1%Z
                (u "http://x") 0%Z 1%Z empty_page
                (seo_audit_page empty_page (u "k") [] PURCHASE)) as Hres.
  cbv zeta in Hres. destruct Hres as (_ & fixed & _ & _ & _ & _ & Hr).
  apply Hr. left. reflexivity.
Defined.

Lemma api_export_frame_witness :
  runs world_one_run !! 2%Z = None
  /\ runs world_one_run !! (2 ^ 63)%Z = None
  /\ fst (api_export (fun _ _ _ => []) (u "exports") world_one_run 2%Z (u "http://x")
            (u "2026-01-01 00:00:00") 5%Z)
     = JsonError 404 (u "'run_id " ++ str_of_int 2%Z ++ u " not found'") None
  /\ fst (api_export (fun _ _ _ => []) (u "exports") world_one_run (2 ^ 63)%Z
            (u "http://x") (u "2026-01-01 00:00:00") 5%Z)
     = InternalError.
Proof.
  assert (Hrun : runs world_one_run !! 2%Z = None) by reflexivity.
  assert (Hbig : runs world_one_run !! (2 ^ 63)%Z = None) by reflexivity.
  split; [exact Hrun|]. split; [exact Hbig|]. split.
  - exact (proj1 (proj2 (proj2 (proj2 (proj2
             (api_export_frame (fun _ _ _ => []) (u "exports") world_one_run 2%Z
                (u "http://x") (u "2026-01-01 00:00:00") 5%Z))) Hrun)) eq_refl).
  - exact (proj2 (proj2 (proj2 (proj2 (proj2
             (api_export_frame (fun _ _ _ => []) (u "exports") world_one_run (2 ^ 63)%Z
                (u "http://x") (u "2026-01-01 00:00:00") 5%Z))) Hbig)) eq_refl).
Defined.

Lemma qc_grade_meaning_witness :
  qc_grade (qc_check_text_pack (u "피부 완치 크림")) = OVERALL_FAIL.
Proof.
  apply (proj2 (proj1 (proj2 (qc_grade_meaning (u "피부 완치 크림"))))).
  exists (u "완치"). split; [left; reflexivity|reflexivity].
Defined.
